(** * The Information Sieve: layering and orchestration (sieve.py)

    A shallow embedding of [Sieve] and [SieveLayer] from [sieve.py], with
    the numpy operations they use, and the properties of the layered
    transform / invert / predict / fit logic.

    Conventions.
    - Python exceptions are values of [exn]; a computation that may raise
      returns a [result].  A method that mutates [self] returns an
      [outcome], which keeps the state also when it raises.
    - A numpy array is an [np.ndarray]: one-dimensional, or two-dimensional
      with its shape kept explicitly, so that an [n x 0] matrix and a
      [0 x w] matrix are different values, as in numpy.  Entries are
      integers.
    - The Factor Extractor ([corex.Corex]) and the Remainder Model
      ([remainder.Remainder]) are collaborators whose code is not part of
      [sieve.py]; they appear as records of total functions.  Exceptions
      raised inside them are not modelled.
    - Scores and bounds ([tc], [mi], [h]) and the accumulator of
      [predict_variable] are floats; they are kept abstract in a type
      class [Scalar], so that the results below hold for any arithmetic
      that satisfies the laws a theorem asks for.  Nothing is assumed of
      the arithmetic unless a theorem says so: sums may round.
    - Recursion and loops are the source's own: [Sieve.transform] and
      [Sieve.invert] recurse on the integer [layer], [Sieve.fit] loops
      while [len(self.layers) < self.max_layers]; their termination is
      proved where they are defined.
    - Not modelled: printing, and the property [tc], which no result
      below is about. *)

From Stdlib Require Import List ZArith QArith Lia Bool Arith.
From Equations Require Import Equations.
From Equations.Prop Require Import Logic.
Import ListNotations.

Set Implicit Arguments.
Open Scope Z_scope.

(* ===================================================================== *)
(** ** Exceptions and results *)
(* ===================================================================== *)

Inductive exn : Type :=
| IndexError
| ValueError
| ZeroDivisionError.

Inductive result (A : Type) : Type :=
| Ok (a : A)
| Err (e : exn).
Arguments Ok {A} a.
Arguments Err {A} e.

Definition bind {A B : Type} (m : result A) (k : A -> result B) : result B :=
  match m with
  | Ok a => k a
  | Err e => Err e
  end.

Notation "x <- m ;; k" := (bind m (fun x => k))
  (at level 61, m at next level, right associativity).

(** A list comprehension whose body may raise: the first exception wins. *)
Fixpoint mapM {A B : Type} (f : A -> result B) (l : list A) : result (list B) :=
  match l with
  | [] => Ok []
  | a :: l' => b <- f a ;; bs <- mapM f l' ;; Ok (b :: bs)
  end.

(* ===================================================================== *)
(** ** Python built-ins *)
(* ===================================================================== *)

Module py.

(** [len(l)] *)
Definition len {A : Type} (l : list A) : Z := Z.of_nat (length l).

(** [l[i]] for an integer [i]: a negative index counts from the end. *)
Definition index {A : Type} (l : list A) (i : Z) : result A :=
  let j := if i <? 0 then i + len l else i in
  if (j <? 0) || (len l <=? j) then Err IndexError
  else match nth_error l (Z.to_nat j) with
       | Some a => Ok a
       | None => Err IndexError
       end.

(** [range(n)] *)
Definition range (n : nat) : list Z := map Z.of_nat (seq 0 n).

(** [enumerate(l)] *)
Definition enumerate {A : Type} (l : list A) : list (Z * A) :=
  combine (range (length l)) l.

End py.

(* ===================================================================== *)
(** ** numpy arrays *)
(* ===================================================================== *)

(** [np.bincount] of an empty array raised [ValueError] in early numpy
    releases and returns an empty array in later ones: the release in use
    decides, so the answer is a parameter. *)
Class Numpy : Type := { bincount_empty : result (list Z) }.

Module np.

(** A two-dimensional array of shape [(nrows, length cols)], stored by
    columns.  In a well-formed matrix every column has [nrows] entries. *)
Record matrix : Type := Matrix { nrows : nat; cols : list (list Z) }.

Definition ncols (m : matrix) : nat := length (cols m).

Definition wf (m : matrix) : Prop :=
  Forall (fun c => length c = nrows m) (cols m).

Inductive ndarray : Type :=
| Arr1 (v : list Z)            (* shape (len v,) *)
| ArrObj (vs : list (list Z))  (* shape (len vs,), dtype object *)
| Arr2 (m : matrix).           (* shape (nrows m, ncols m) *)

(** [a.shape] *)
Definition shape (a : ndarray) : list nat :=
  match a with
  | Arr1 v => [length v]
  | ArrObj vs => [length vs]
  | Arr2 m => [nrows m; ncols m]
  end.

(** [a.shape[1]] *)
Definition shape1 (a : ndarray) : result nat :=
  match a with
  | Arr2 m => Ok (ncols m)
  | _ => Err IndexError
  end.

Definition same_length (n : nat) (l : list (list Z)) : bool :=
  forallb (fun c => Nat.eqb (length c) n) l.

(** [np.array(l).T] for a Python list [l] of one-dimensional arrays.
    The empty list gives the one-dimensional empty array.  Arrays of one
    common length [n] give the [(len l, n)] matrix whose rows are the
    elements of [l], so the transpose has them as columns.  Arrays of
    different lengths give a one-dimensional array of objects, which is
    its own transpose. *)
Definition array_T (l : list (list Z)) : ndarray :=
  match l with
  | [] => Arr1 []
  | c :: _ =>
      if same_length (length c) l then Arr2 (Matrix (length c) l)
      else ArrObj l
  end.

(** [a[:, i]] *)
Definition col (a : ndarray) (i : Z) : result (list Z) :=
  match a with
  | Arr2 m => py.index (cols m) i
  | _ => Err IndexError
  end.

(** [a[:, -1:]] : the last column kept as a matrix (no column when the
    matrix has none). *)
Definition last_col_slice (a : ndarray) : result matrix :=
  match a with
  | Arr2 m => Ok (Matrix (nrows m) (skipn (length (cols m) - 1) (cols m)))
  | _ => Err IndexError
  end.

(** [v[:, np.newaxis]] for a one-dimensional [v] *)
Definition newaxis (v : list Z) : matrix := Matrix (length v) [v].

(** [np.hstack([a, b])] where [b] is two-dimensional: the arrays are
    joined along the columns, so [a] must be two-dimensional with as many
    rows; otherwise numpy raises [ValueError]. *)
Definition hstack (a : ndarray) (b : matrix) : result matrix :=
  match a with
  | Arr2 m =>
      if Nat.eqb (nrows m) (nrows b)
      then Ok (Matrix (nrows m) (cols m ++ cols b))
      else Err ValueError
  | _ => Err ValueError
  end.

(** The array [l] with [f] applied to the entry at position [j]. *)
Fixpoint update {A : Type} (l : list A) (j : nat) (f : A -> A) : list A :=
  match l, j with
  | [], _ => []
  | a :: l', O => f a :: l'
  | a :: l', S j' => a :: update l' j' f
  end.

(** [np.bincount(a)]: for each value from [0] to the largest entry, how
    often it occurs; a negative entry raises [ValueError]. *)
Definition bincount `{Numpy} (a : list Z) : result (list Z) :=
  match a with
  | [] => bincount_empty
  | _ :: _ =>
      if existsb (fun v => v <? 0) a then Err ValueError
      else Ok (map (fun v => Z.of_nat (count_occ Z.eq_dec a v))
                   (py.range (S (Z.to_nat (fold_right Z.max 0 a)))))
  end.

(** Iterating over a two-dimensional array, as in [for y in ys], yields
    its rows. *)
Definition rows (m : matrix) : list (list Z) :=
  map (fun r => map (fun c => nth r c 0) (cols m)) (seq 0 (nrows m)).

End np.

(* ===================================================================== *)
(** ** Scalars *)
(* ===================================================================== *)

(** The float operations [sieve.py] performs on scores and bounds. *)
Class Scalar (F : Type) : Type := {
  fzero : F;                  (* where [sum] starts; [np.zeros] entries *)
  fadd : F -> F -> F;
  fsub : F -> F -> F;
  fdouble : F -> F;           (* [2 * h] *)
  frecip : positive -> F;     (* [1. / n] for a positive integer [n] *)
  ffloat : Z -> F;            (* an integer, converted to a float *)
  fltb : F -> F -> bool;      (* [a < b] *)
  fleb : F -> F -> bool       (* [a <= b] *)
}.

(** What a theorem on bounds needs from the arithmetic: [<=] holds between
    equal zeros and addition is monotone.  Rationals and reals satisfy it,
    and so do floats under IEEE rounding to nearest as long as no sum is
    NaN. *)
Class ScalarOrder (F : Type) `{Scalar F} : Prop := {
  fleb_zero : fleb fzero fzero = true;
  fadd_mono : forall a b c d,
      fleb a b = true -> fleb c d = true -> fleb (fadd a c) (fadd b d) = true
}.

(** Python's [sum(xs)]: a left fold that starts from [0]. *)
Definition py_sum {F : Type} `{Scalar F} (xs : list F) : F :=
  fold_left fadd xs fzero.

(** Counts up to [bound] are floats without rounding: the conversion of
    [0] is the float zero, two counts whose sum stays within [bound] add
    up to the conversion of the sum, and the order of the conversions is
    the order of the counts.  For 64-bit floats this holds with the bound
    [2 ^ 53], and for no larger one. *)
Definition exact_counts {F : Type} `{Scalar F} (bound : Z) : Prop :=
  ffloat 0 = fzero /\
  (forall a b, 0 <= a -> 0 <= b -> a + b <= bound ->
               fadd (ffloat a) (ffloat b) = ffloat (a + b)) /\
  (forall a b, 0 <= a <= bound -> 0 <= b <= bound ->
               fleb (ffloat a) (ffloat b) = (a <=? b)).

(* ===================================================================== *)
(** ** numpy arrays of floats *)
(* ===================================================================== *)

Module npf.

(** A two-dimensional array of floats of shape [(length rows, ncols)],
    stored by rows.  In a well-formed one every row has [ncols] entries. *)
Record matrix (F : Type) : Type := Matrix { ncols : nat; rows : list (list F) }.
Arguments Matrix {F}.
Arguments ncols {F}.
Arguments rows {F}.

Section Floats.
Context {F : Type} `{Scalar F}.

Definition nrows (a : matrix F) : nat := length (rows a).

Definition wf (a : matrix F) : Prop :=
  Forall (fun r => length r = ncols a) (rows a).

(** [a.shape] *)
Definition shape (a : matrix F) : list nat := [nrows a; ncols a].

(** [v[np.newaxis, :]] for a one-dimensional [v]: one row. *)
Definition newaxis_row (v : list F) : matrix F := Matrix (length v) [v].

(** [np.zeros((r, c))] *)
Definition zeros (r c : nat) : matrix F := Matrix c (repeat (repeat fzero c) r).

(** [np.zeros(n)]: a one-dimensional array of [n] float zeros. *)
Definition zeros1 (n : nat) : list F := repeat fzero n.

(** [a[i] += d] for a one-dimensional float array [a], an integer index
    [i] and an integer [d]: a negative index counts from the end, and [d]
    is converted to a float and added to the entry. *)
Definition add_at (a : list F) (i d : Z) : result (list F) :=
  let j := if i <? 0 then i + py.len a else i in
  if (j <? 0) || (py.len a <=? j) then Err IndexError
  else Ok (np.update a (Z.to_nat j) (fun v => fadd v (ffloat d))).

(** [np.hstack([a, b])] for two-dimensional [a] and [b] *)
Definition hstack (a b : matrix F) : result (matrix F) :=
  if Nat.eqb (nrows a) (nrows b)
  then Ok (Matrix (ncols a + ncols b)
                  (map (fun p => fst p ++ snd p) (combine (rows a) (rows b))))
  else Err ValueError.

(** [np.vstack([a, v])] for a two-dimensional [a] and a one-dimensional
    [v], which becomes one more row when it has as many entries as [a] has
    columns. *)
Definition vstack (a : matrix F) (v : list F) : result (matrix F) :=
  if Nat.eqb (ncols a) (length v)
  then Ok (Matrix (ncols a) (rows a ++ [v]))
  else Err ValueError.

(** A float is NaN exactly when it is not [<=] itself. *)
Definition isnan (x : F) : bool := negb (fleb x x).

(** The scan of numpy's float [argmax]: an entry replaces the best so far
    unless it is [<=] it, and the scan stops at a NaN. *)
Fixpoint argmax_from (best_i : nat) (best : F) (i : nat) (l : list F) : nat :=
  match l with
  | [] => best_i
  | v :: l' =>
      if fleb v best then argmax_from best_i best (S i) l'
      else if isnan v then i
      else argmax_from i v (S i) l'
  end.

(** [np.argmax(a)] for a one-dimensional float array *)
Definition argmax (a : list F) : result Z :=
  match a with
  | [] => Err ValueError
  | v :: a' =>
      if isnan v then Ok 0 else Ok (Z.of_nat (argmax_from 0 v 1 a'))
  end.

(** [a[:, j]] *)
Definition column (a : matrix F) (j : nat) : list F :=
  map (fun r => nth j r fzero) (rows a).

(** [np.argmax(a, axis=0)]: for every column the row of its largest
    entry; an array without rows has no largest entry. *)
Definition argmax_axis0 (a : matrix F) : result np.ndarray :=
  match rows a with
  | [] => Err ValueError
  | _ :: _ =>
      idx <- mapM (fun j => argmax (column a j)) (seq 0 (ncols a)) ;;
      Ok (np.Arr1 idx)
  end.

End Floats.

End npf.

(* ===================================================================== *)
(** ** Collaborators *)
(* ===================================================================== *)

Module Remainder.
(** A fitted [remainder.Remainder]. *)
Record t (F : Type) : Type := Build {
  transform : list Z -> list Z -> list Z;   (* transform(x_col, labels) *)
  predict : list Z -> list Z -> list Z;     (* predict(labels, codes) *)
  mi : F;
  h : F
}.
Arguments transform {F}.
Arguments predict {F}.
Arguments mi {F}.
Arguments h {F}.
End Remainder.

Module Corex.
(** A fitted [corex.Corex]. *)
Record t (F : Type) : Type := Build {
  labels : list Z;
  transform : np.ndarray -> list Z;
  tc : F;
  mis : list F
}.
Arguments labels {F}.
Arguments transform {F}.
Arguments tc {F}.
Arguments mis {F}.
End Corex.

(** The entry of the keyword arguments of [Sieve] that [sieve.py] reads
    for itself: [k_max], which [SieveLayer] pops before it hands the
    others to [Corex].  The others never change during the life of a
    Sieve; they are part of [corex_fit] below.  ([verbose] only switches
    printing.) *)
Record kwargs : Type := Kwargs { k_max : option Z }.

(** The constructors of the collaborators. *)
Class Collaborators (F : Type) : Type := {
  (* [Corex] built from the remaining keyword arguments and fitted on [x] *)
  corex_fit : np.matrix -> Corex.t F;
  (* Remainder(xs, labels, k_max=k_max) *)
  remainder_new : list Z -> list Z -> Z -> Remainder.t F
}.

(* ===================================================================== *)
(** ** SieveLayer *)
(* ===================================================================== *)

Module SieveLayer.

Record t (F : Type) : Type := Build {
  corex : Corex.t F;
  labels : list Z;
  remainders : list (Remainder.t F)
}.
Arguments corex {F}.
Arguments labels {F}.
Arguments remainders {F}.

Section Methods.
Context {F : Type} `{Scalar F}.

(** [a[mask]] for a one-dimensional [a] and a boolean [mask]: the entries
    of [a] at the positions where [mask] is true; a true position past the
    end of [a] raises [IndexError]. *)
Fixpoint mask_take (a : list Z) (mask : list bool) : result (list Z) :=
  match mask, a with
  | [], _ => Ok []
  | b :: mask', [] =>
      if b then Err IndexError else mask_take [] mask'
  | b :: mask', v :: a' =>
      r <- mask_take a' mask' ;; Ok (if b then v :: r else r)
  end.

(** [SieveLayer(x, **kwargs)] *)
Definition init `{Collaborators F} (x : np.matrix) (kw : kwargs)
  : result (t F) :=
  let k := match k_max kw with Some k => k | None => 2 end in
  let c := corex_fit x in
  let labels := Corex.labels c in
  rs <- mapM (fun xs =>
                let mask := map (fun v => 0 <=? v) xs in
                ls <- mask_take labels mask ;;
                Ok (remainder_new (filter (fun v => 0 <=? v) xs) ls k))
             (np.cols x) ;;
  Ok (Build c labels rs).

(** [SieveLayer.transform] *)
Definition transform (self : t F) (x : np.ndarray) : result np.matrix :=
  let labels := Corex.transform (corex self) x in
  w <- np.shape1 x ;;
  xr <- mapM (fun i =>
                r <- py.index (remainders self) i ;;
                xi <- np.col x i ;;
                Ok (Remainder.transform r xi labels))
             (py.range w) ;;
  np.hstack (np.array_T xr) (np.newaxis labels).

(** [SieveLayer.invert] *)
Definition invert (self : t F) (xr : np.ndarray) : result np.ndarray :=
  ys <- np.col xr (-1) ;;
  w <- np.shape1 xr ;;
  x <- mapM (fun i =>
               r <- py.index (remainders self) i ;;
               zi <- np.col xr i ;;
               Ok (Remainder.predict r ys zi))
            (py.range (w - 1)) ;;
  Ok (np.array_T x).

(** [SieveLayer.lb] *)
Definition lb (self : t F) : F :=
  py_sum (map Remainder.mi (remainders self)).

(** [SieveLayer.ub] *)
Definition ub (self : t F) : F :=
  py_sum (map (fun r => fdouble (Remainder.h r)) (remainders self)).

End Methods.

End SieveLayer.

(* ===================================================================== *)
(** ** Sieve *)
(* ===================================================================== *)

Module Sieve.

(** The attributes of a [Sieve] object.  [data_format] is never read and
    [verbose] only switches printing; both are left out. *)
Record t (F : Type) : Type := Build {
  max_layers : Z;
  kw : kwargs;
  layers : list (SieveLayer.t F);
  x_stats : list (list Z);
  n_variables : option nat
}.
Arguments max_layers {F}.
Arguments kw {F}.
Arguments layers {F}.
Arguments x_stats {F}.
Arguments n_variables {F}.

(** [Sieve(max_layers, **kwargs)] *)
Definition init (F : Type) (max_layers : Z) (kw : kwargs) : t F :=
  Build max_layers kw [] [] None.

(** The terminal states of the growth loop: it ends at the [break]
    (a candidate was rejected) or because the loop test became false. *)
Inductive terminal : Type := CONVERGED | MAX_LAYERS_REACHED.

(** A method that mutates [self]: it returns or raises, and in both cases
    leaves a state behind. *)
Inductive outcome (F : Type) : Type :=
| Returned (self : t F)
| Raised (e : exn) (self : t F).

(** The growth loop: the same, with the value of the local [x] and the
    way the loop was left. *)
Inductive loop_outcome (F : Type) : Type :=
| LoopEnd (self : t F) (x : np.matrix) (why : terminal)
| LoopRaise (e : exn) (self : t F).

Section Methods.
Context {F : Type} `{Scalar F}.

(** [Sieve.labels] *)
Definition labels (self : t F) : np.ndarray :=
  np.array_T (map SieveLayer.labels (layers self)).

(** [Sieve.tcs] *)
Definition tcs (self : t F) : list F :=
  map (fun layer => Corex.tc (SieveLayer.corex layer)) (layers self).

(** [Sieve.lb] *)
Definition lb (self : t F) : F :=
  py_sum (map SieveLayer.lb (layers self)).

(** [Sieve.ub] *)
Definition ub (self : t F) : F :=
  py_sum (map SieveLayer.ub (layers self)).

(** The labels accumulated in [Sieve.transform]. *)
Definition stack_labels (prev_labels : option np.ndarray)
           (x_out : np.matrix) : result np.matrix :=
  match prev_labels with
  | None => np.last_col_slice (np.Arr2 x_out)
  | Some prev =>
      last <- np.last_col_slice (np.Arr2 x_out) ;; np.hstack prev last
  end.

(** [Sieve.transform(x, layer, prev_labels)] *)
Equations? transform (self : t F) (x : np.ndarray) (layer : Z)
           (prev_labels : option np.ndarray)
  : result (np.matrix * np.matrix)
  by wf (Z.to_nat (py.len (layers self) - layer)) lt :=
  transform self x layer prev_labels with
      inspect (py.index (layers self) layer) := {
    | exist _ (Err e) _ => Err e
    | exist _ (Ok l) Hl with SieveLayer.transform l x := {
      | Err e => Err e
      | Ok x_out with stack_labels prev_labels x_out := {
        | Err e => Err e
        | Ok labels with layer =? py.len (layers self) - 1 := {
          | true => Ok (x_out, labels)
          | false => transform self (np.Arr2 x_out) (layer + 1)
                               (Some (np.Arr2 labels)) } } } }.
Proof.
  unfold py.index, py.len in *.
  destruct (layer <? 0) eqn:Hneg;
    destruct (_ || _) eqn:Hb; try discriminate;
    apply orb_false_iff in Hb; destruct Hb as [_ Hb];
    apply Z.leb_gt in Hb; try apply Z.ltb_lt in Hneg; lia.
Qed.

(** [Sieve.invert(x, layer)] for an integer [layer] *)
Equations? invert_at (self : t F) (x : np.ndarray) (layer : Z)
  : result np.ndarray
  by wf (Z.to_nat (layer + py.len (layers self) + 1)) lt :=
  invert_at self x layer with
      inspect (py.index (layers self) layer) := {
    | exist _ (Err e) _ => Err e
    | exist _ (Ok l) Hl with SieveLayer.invert l x := {
      | Err e => Err e
      | Ok x' with inspect (layer =? 0) := {
        | exist _ true _ => Ok x'
        | exist _ false Hz => invert_at self x' (layer - 1) } } }.
Proof.
  apply Z.eqb_neq in Hz.
  unfold py.index, py.len in *.
  destruct (layer <? 0) eqn:Hneg;
    destruct (_ || _) eqn:Hb; try discriminate;
    apply orb_false_iff in Hb; destruct Hb as [Hb _];
    apply Z.ltb_ge in Hb; try apply Z.ltb_ge in Hneg; lia.
Qed.

(** [Sieve.invert(x, layer=None)] *)
Definition invert (self : t F) (x : np.ndarray) (layer : option Z)
  : result np.ndarray :=
  invert_at self x
    (match layer with
     | None => py.len (layers self) - 1
     | Some k => k
     end).

(** A loop whose body may raise. *)
Fixpoint foldM {A B : Type} (f : B -> A -> result B) (l : list A) (b : B)
  : result B :=
  match l with
  | [] => Ok b
  | a :: l' => b' <- f b a ;; foldM f l' b'
  end.

(** [Sieve.invert_variable(zi, y, i)] *)
Definition invert_variable (self : t F) (zi : Z) (y : list Z) (i : Z)
  : result Z :=
  foldM (fun zi '(k, layer) =>
           r <- py.index (SieveLayer.remainders layer) i ;;
           yk <- py.index y k ;;
           py.index (Remainder.predict r [yk] [zi]) 0)
        (rev (py.enumerate (layers self))) zi.

(** The count that the pairs (code, count) give to the value [v] under
    the labels [y]: the sum, as integers, of the counts of the codes that
    [invert_variable] reconstructs as [v]. *)
Definition tally (self : t F) (y : list Z) (i : Z)
           (pairs : list (Z * Z)) (v : Z) : Z :=
  fold_right (fun '(xi, nxi) acc =>
                match invert_variable self xi y i with
                | Ok v' => if v' =? v then nxi + acc else acc
                | Err _ => acc
                end)
             0 pairs.

Definition vote (self : t F) (y : list Z) (i : Z) (stats : list Z)
           (v : Z) : Z :=
  tally self y i (py.enumerate stats) v.

(** [p] is the first value below [n] with the largest score. *)
Definition first_argmax (n : Z) (score : Z -> Z) (p : Z) : Prop :=
  0 <= p < n /\
  (forall v, 0 <= v < n -> score v <= score p) /\
  (forall v, 0 <= v < p -> score v < score p).

(** The float that the accumulator of [predict_variable] holds for the
    value [v] after the pairs (code, count), when it held [acc] before:
    the counts of the codes whose reconstruction [v'] hits [v] are
    converted to floats and added to it, in the order of the pairs. *)
Definition float_tally (self : t F) (y : list Z) (i : Z)
           (hits : Z -> Z -> bool) (pairs : list (Z * Z)) (v : Z) (acc : F)
  : F :=
  fold_left (fun acc '(xi, nxi) =>
               match invert_variable self xi y i with
               | Ok v' => if hits v' v then fadd acc (ffloat nxi) else acc
               | Err _ => acc
               end)
            pairs acc.

(** The scores of the values [0 .. 99] under the labels [y]: for each
    value, the float sum of the counts of the codes reconstructed as
    it. *)
Definition scores (self : t F) (y : list Z) (i : Z) (stats : list Z)
  : list F :=
  map (fun v => float_tally self y i Z.eqb (py.enumerate stats) v fzero)
      (py.range 100).

(** The loop body of [predict_variable] that accumulates the counts. *)
Definition accumulate (self : t F) (y : list Z) (i : Z)
           (prediction : list F) (entry : Z * Z) : result (list F) :=
  let '(xi, nxi) := entry in
  x_pred <- invert_variable self xi y i ;;
  npf.add_at prediction x_pred nxi.

(** The body of the outer loop of [predict_variable]: the prediction
    for one row [y] of labels. *)
Definition predict_row (self : t F) (y : list Z) (i : Z) : result Z :=
  stats <- py.index (x_stats self) i ;;
  prediction <-
    foldM (accumulate self y i) (py.enumerate stats) (npf.zeros1 100) ;;
  npf.argmax prediction.

(** [Sieve.predict_variable(ys, i)], for the rows [ys] *)
Definition predict_variable (self : t F) (ys : list (list Z)) (i : Z)
  : result np.ndarray :=
  most_likely <- mapM (fun y => predict_row self y i) ys ;;
  Ok (np.Arr1 most_likely).

(** [x[x[:, i] >= 0, i]] *)
Definition observed (x : np.matrix) (i : Z) : result (list Z) :=
  c <- np.col (np.Arr2 x) i ;; Ok (filter (fun v => 0 <=? v) c).

(** The acceptance test
    [next_layer.corex.tc - next_layer.lb > 1. / n_samples]. *)
Definition accepts (next_layer : SieveLayer.t F) (n_samples : nat)
  : result bool :=
  let gain := fsub (Corex.tc (SieveLayer.corex next_layer))
                   (SieveLayer.lb next_layer) in
  match n_samples with
  | O => Err ZeroDivisionError
  | S _ => Ok (fltb (frecip (Pos.of_nat n_samples)) gain)
  end.

(** [self.layers.append(next_layer)] *)
Definition append (self : t F) (next_layer : SieveLayer.t F) : t F :=
  Build (max_layers self) (kw self) (layers self ++ [next_layer])
        (x_stats self) (n_variables self).

Definition set_x_stats (self : t F) (stats : list (list Z)) : t F :=
  Build (max_layers self) (kw self) (layers self) stats
        (n_variables self).

Definition set_n_variables (self : t F) (n : nat) : t F :=
  Build (max_layers self) (kw self) (layers self) (x_stats self)
        (Some n).

(** [Sieve.mis] *)
Definition mis (self : t F) : result (npf.matrix F) :=
  first <- py.index (layers self) 0 ;;
  foldM (fun mis layer =>
           padded <- npf.hstack mis (npf.zeros (npf.nrows mis) 1) ;;
           npf.vstack padded (Corex.mis (SieveLayer.corex layer)))
        (skipn 1 (layers self))
        (npf.newaxis_row (Corex.mis (SieveLayer.corex first))).

(** [Sieve.clusters] *)
Definition clusters (self : t F) : result np.ndarray :=
  m <- mis self ;; npf.argmax_axis0 m.

(** The list [most_likely] that [predict_variable] wraps in [np.array]. *)
Definition most_likely (self : t F) (ys : list (list Z)) (i : Z)
  : result (list Z) :=
  mapM (fun y => predict_row self y i) ys.

(** [Sieve.predict(y)] for a two-dimensional [y].  [None] stands for the
    [AttributeError] of reading [self.n_variables], which is assigned by
    [fit] and not by the constructor. *)
Definition predict (self : t F) (y : np.matrix)
  : option (result np.ndarray) :=
  match n_variables self with
  | None => None
  | Some n =>
      Some (columns <- mapM (fun i => most_likely self (np.rows y) i)
                            (py.range n) ;;
            Ok (np.array_T columns))
  end.

Context `{Collaborators F} `{Numpy}.

(** The right-hand side of the assignment to [self.x_stats]. *)
Definition count_values (x : np.matrix) (n_variables : nat)
  : result (list (list Z)) :=
  mapM (fun i => c <- observed x i ;; np.bincount c)
       (py.range n_variables).

(** The [while] loop of [Sieve.fit].  [n_samples] and [n_variables] are
    the values unpacked from [x.shape] before the loop; the loop does
    not assign [self.n_variables]. *)
Equations? fit_loop (self : t F) (x : np.matrix)
           (n_samples n_variables : nat) : loop_outcome F
  by wf (Z.to_nat (max_layers self - py.len (layers self))) lt :=
  fit_loop self x n_samples n_variables with
      inspect (py.len (layers self) <? max_layers self) := {
    | exist _ false _ => LoopEnd self x MAX_LAYERS_REACHED
    | exist _ true Hlt with SieveLayer.init x (kw self) := {
      | Err e => LoopRaise e self
      | Ok next_layer with
            SieveLayer.transform next_layer (np.Arr2 x) := {
        | Err e => LoopRaise e self
        | Ok x' with accepts next_layer n_samples := {
          | Err e => LoopRaise e self
          | Ok false => LoopEnd self x' CONVERGED
          | Ok true with count_values x' n_variables := {
            | Err e => LoopRaise e (append self next_layer)
            | Ok stats =>
                fit_loop (set_x_stats (append self next_layer) stats)
                         x' n_samples n_variables } } } } }.
Proof.
  apply Z.ltb_lt in Hlt. unfold py.len in *. simpl.
  rewrite length_app. simpl. lia.
Qed.

(** The run of [Sieve.fit(x)]: the shape of [x] is unpacked, then the
    loop runs. *)
Definition fit_run (self : t F) (x : np.ndarray) : loop_outcome F :=
  match x with
  | np.Arr2 m =>
      let self := set_n_variables self (np.ncols m) in
      fit_loop self m (np.nrows m) (np.ncols m)
  | _ => LoopRaise ValueError self
  end.

(** [Sieve.fit(x)], which returns [self]. *)
Definition fit (self : t F) (x : np.ndarray) : outcome F :=
  match fit_run self x with
  | LoopEnd self' _ _ => Returned self'
  | LoopRaise e self' => Raised e self'
  end.

(** The state a run leaves behind. *)
Definition final_state (o : loop_outcome F) : t F :=
  match o with
  | LoopEnd self' _ _ => self'
  | LoopRaise _ self' => self'
  end.

(** The state [Sieve.fit] leaves behind, returning or raising. *)
Definition state_of (o : outcome F) : t F :=
  match o with
  | Returned self' => self'
  | Raised _ self' => self'
  end.

(** The first two statements of the loop body, [k] times over: the
    candidates that the loop builds in its first [k] turns from the
    matrix [x] when each of them is accepted, every candidate built on
    the output of the one before, each paired with its output. *)
Fixpoint candidates (kw : kwargs) (k : nat) (x : np.matrix)
  : result (list (SieveLayer.t F * np.matrix)) :=
  match k with
  | O => Ok []
  | S k' =>
      next_layer <- SieveLayer.init x kw ;;
      x' <- SieveLayer.transform next_layer (np.Arr2 x) ;;
      rest <- candidates kw k' x' ;;
      Ok ((next_layer, x') :: rest)
  end.

(** The value of the local [x] after the turns [turns] of a loop that
    started on [x]: the output of the last candidate. *)
Definition data_after (turns : list (SieveLayer.t F * np.matrix))
           (x : np.matrix) : np.matrix :=
  last (map snd turns) x.

End Methods.

End Sieve.

(* ===================================================================== *)
(** ** What "fitted" means for the shape of a stack of layers *)
(* ===================================================================== *)

Section Fitted.
Context {F : Type}.

(** A Remainder Model answers per sample. *)
Definition per_sample (r : Remainder.t F) : Prop :=
  forall xs ys, length xs = length ys ->
    length (Remainder.transform r xs ys) = length xs /\
    length (Remainder.predict r ys xs) = length xs.

(** A Factor Extractor gives one label per row. *)
Definition one_label_per_row (c : Corex.t F) : Prop :=
  forall m, length (Corex.transform c (np.Arr2 m)) = np.nrows m.

(** A layer built on a matrix of [w] columns: one Remainder Model per
    column, and collaborators that keep their contracts. *)
Definition fitted_layer (w : nat) (l : SieveLayer.t F) : Prop :=
  length (SieveLayer.remainders l) = w /\
  one_label_per_row (SieveLayer.corex l) /\
  Forall per_sample (SieveLayer.remainders l).

(** Layer [k] of a Sieve fitted on [V] variables was built on the output
    of layer [k - 1], which has [V + k] columns. *)
Inductive fitted_stack : nat -> list (SieveLayer.t F) -> Prop :=
| fitted_nil : forall V, fitted_stack V []
| fitted_cons : forall V l ls,
    fitted_layer V l -> fitted_stack (S V) ls -> fitted_stack V (l :: ls).

(** The residual codes a layer computes for the columns of [m]. *)
Definition residual_codes (l : SieveLayer.t F) (m : np.matrix)
  : list (list Z) :=
  let labels := Corex.transform (SieveLayer.corex l) (np.Arr2 m) in
  map (fun rc => Remainder.transform (fst rc) (snd rc) labels)
      (combine (SieveLayer.remainders l) (np.cols m)).

(** The values a layer predicts from the codes [zs] and the labels [ys]. *)
Definition predictions (l : SieveLayer.t F) (zs : list (list Z))
           (ys : list Z) : list (list Z) :=
  map (fun rz => Remainder.predict (fst rz) ys (snd rz))
      (combine (SieveLayer.remainders l) zs).

(** A layer is lossless on [m] when predicting from the codes of each
    column of [m] gives the column back. *)
Definition lossless_on (l : SieveLayer.t F) (m : np.matrix) : Prop :=
  let labels := Corex.transform (SieveLayer.corex l) (np.Arr2 m) in
  Forall (fun rc => Remainder.predict (fst rc) labels
                      (Remainder.transform (fst rc) (snd rc) labels)
                    = snd rc)
         (combine (SieveLayer.remainders l) (np.cols m)).

(** Every layer of the stack is lossless on the matrix it receives. *)
Fixpoint lossless_chain (ls : list (SieveLayer.t F))
         (m : np.matrix) : Prop :=
  match ls with
  | [] => True
  | l :: ls' =>
      lossless_on l m /\
      forall m', SieveLayer.transform l (np.Arr2 m) = Ok m' ->
                 lossless_chain ls' m'
  end.

(** The outputs of the successive layers: each layer receives the whole
    output of the layer before it. *)
Fixpoint layer_outputs (ls : list (SieveLayer.t F))
         (x : np.ndarray) : result (list np.matrix) :=
  match ls with
  | [] => Ok []
  | l :: ls' =>
      o <- SieveLayer.transform l x ;;
      os <- layer_outputs ls' (np.Arr2 o) ;;
      Ok (o :: os)
  end.

(** [Sieve.transform] as a recursion on the layers that remain. *)
Fixpoint transform_list (ls : list (SieveLayer.t F))
         (x : np.ndarray) (prev_labels : option np.ndarray)
  : result (np.matrix * np.matrix) :=
  match ls with
  | [] => Err IndexError
  | l :: ls' =>
      x_out <- SieveLayer.transform l x ;;
      labels <- Sieve.stack_labels prev_labels x_out ;;
      match ls' with
      | [] => Ok (x_out, labels)
      | _ :: _ => transform_list ls' (np.Arr2 x_out) (Some (np.Arr2 labels))
      end
  end.

(** [Sieve.invert] as a recursion on the layers still to undo, deepest
    first. *)
Fixpoint invert_chain (ls : list (SieveLayer.t F))
         (x : np.ndarray) : result np.ndarray :=
  match ls with
  | [] => Ok x
  | l :: ls' => x' <- SieveLayer.invert l x ;; invert_chain ls' x'
  end.

(** What a fitted layer returns for [m]: the residual codes of the
    columns of [m], then the label column. *)
Definition layer_output (l : SieveLayer.t F) (m : np.matrix) : np.matrix :=
  np.Matrix (np.nrows m)
    (residual_codes l m
       ++ [Corex.transform (SieveLayer.corex l) (np.Arr2 m)]).

(** The outputs of the successive layers of a fitted stack on [m]. *)
Fixpoint stack_outputs (ls : list (SieveLayer.t F)) (m : np.matrix)
  : list np.matrix :=
  match ls with
  | [] => []
  | l :: ls' => layer_output l m :: stack_outputs ls' (layer_output l m)
  end.

Definition last_column (m : np.matrix) : list Z := last (np.cols m) [].

(** The label columns accumulated so far, and their number of rows. *)
Definition prev_cols (prev_labels : option np.ndarray) : list (list Z) :=
  match prev_labels with
  | Some (np.Arr2 p) => np.cols p
  | _ => []
  end.

Definition prev_rows (prev_labels : option np.ndarray) (n : nat) : Prop :=
  match prev_labels with
  | None => True
  | Some (np.Arr2 p) => np.nrows p = n
  | Some _ => False
  end.

(** The constructors keep the contracts: the fitted extractor has one
    label per row, at fitting time and on new data, and every fitted
    Remainder Model answers per sample. *)
Definition extractor_contract `{Collaborators F} : Prop :=
  forall m,
    length (Corex.labels (corex_fit m)) = np.nrows m /\
    one_label_per_row (corex_fit m).

Definition remainder_contract `{Collaborators F} : Prop :=
  forall xs ls k, per_sample (remainder_new xs ls k).

(** The transform that the prose describes: at each layer the trailing
    label column is split off, only the residual portion goes to the next
    layer, and the deepest layer returns the residual without a label
    column. *)
Fixpoint transform_as_specified (ls : list (SieveLayer.t F))
         (x : np.ndarray) (prev_labels : option np.ndarray)
  : result (np.matrix * np.matrix) :=
  match ls with
  | [] => Err IndexError
  | l :: ls' =>
      x_out <- SieveLayer.transform l x ;;
      labels <- Sieve.stack_labels prev_labels x_out ;;
      let residual :=
        np.Matrix (np.nrows x_out) (removelast (np.cols x_out)) in
      match ls' with
      | [] => Ok (residual, labels)
      | _ :: _ => transform_as_specified ls' (np.Arr2 residual)
                                         (Some (np.Arr2 labels))
      end
  end.

End Fitted.

(* ===================================================================== *)
(** ** Reference values for the derived properties and for construction *)
(* ===================================================================== *)

Section Views.
Context {F : Type} `{Scalar F}.

(** The rows of [Sieve.mis]: the vector of each layer, followed by one
    zero for every deeper layer. *)
Fixpoint padded_mis (ls : list (SieveLayer.t F)) : list (list F) :=
  match ls with
  | [] => []
  | l :: ls' =>
      (Corex.mis (SieveLayer.corex l) ++ repeat fzero (length ls'))
        :: padded_mis ls'
  end.

(** The labels of the rows where the column [xs] is not missing. *)
Definition kept_labels (labels xs : list Z) : list Z :=
  map snd (filter (fun p => 0 <=? fst p) (combine xs labels)).

(** The Remainder Models that [SieveLayer] builds for the columns of [x]. *)
Definition built_remainders `{Collaborators F} (x : np.matrix)
           (kw : kwargs) : list (Remainder.t F) :=
  let k := match k_max kw with Some k => k | None => 2 end in
  let labels := Corex.labels (corex_fit x) in
  map (fun xs => remainder_new (filter (fun v => 0 <=? v) xs)
                               (kept_labels labels xs) k)
      (np.cols x).

(** The count that position [v] of the accumulator of [predict_variable]
    stands for when all reconstructed values lie in [-100 .. 99]: the
    votes for [v], and the votes for the negative value [v - 100], which
    numpy counts from the end of the array. *)
Definition wrapped_vote (self : Sieve.t F) (y : list Z) (i : Z)
           (stats : list Z) (v : Z) : Z :=
  Sieve.vote self y i stats v + Sieve.vote self y i stats (v - 100).

(** A reconstruction [v'] is added at position [v] when it is [v], or the
    negative value [v - 100]. *)
Definition wraps_to (v' v : Z) : bool := (v' =? v) || (v' =? v - 100).

(** The integer that the pairs (code, count) add up to for the value [v],
    when a reconstruction [v'] counts for [v] if it hits it. *)
Definition hit_count (self : Sieve.t F) (y : list Z) (i : Z)
           (hits : Z -> Z -> bool) (pairs : list (Z * Z)) (v : Z) : Z :=
  fold_right (fun '(xi, nxi) acc =>
                match Sieve.invert_variable self xi y i with
                | Ok v' => if hits v' v then nxi + acc else acc
                | Err _ => acc
                end)
             0 pairs.

(** The floats that the accumulator holds at the positions [0 .. 99] when
    all reconstructed values lie in [-100 .. 99]. *)
Definition wrapped_scores (self : Sieve.t F) (y : list Z) (i : Z)
           (stats : list Z) : list F :=
  map (fun v =>
         Sieve.float_tally self y i wraps_to (py.enumerate stats) v fzero)
      (py.range 100).

(** The number of entries of a column that are not missing. *)
Definition count_observed (c : list Z) : nat :=
  length (filter (fun v => 0 <=? v) c).

(** The sum of a list of counts. *)
Definition total (c : list Z) : Z := fold_right Z.add 0 c.

End Views.

(* ===================================================================== *)
(** ** Rational scalars and small concrete models *)
(* ===================================================================== *)

#[export] Instance Q_Scalar : Scalar Q := {
  fzero := 0%Q;
  fadd := Qplus;
  fsub := Qminus;
  fdouble := fun q => (2 * q)%Q;
  frecip := fun p => (1 # p)%Q;
  ffloat := inject_Z;
  fltb := fun a b => negb (Qle_bool b a);
  fleb := Qle_bool
}.

Module Example.

(** A Remainder Model that keeps the value as its own code. *)
Definition keep (mi h : Q) : Remainder.t Q :=
  Remainder.Build (fun xs _ => xs) (fun _ zs => zs) mi h.

(** A Factor Extractor that gives every row the label [lab]. *)
Definition flat (lab : Z) (rows : nat) (tc : Q) : Corex.t Q :=
  Corex.Build (repeat lab rows)
              (fun x => match x with
                        | np.Arr2 m => repeat lab (np.nrows m)
                        | _ => []
                        end)
              tc [].

(** Collaborators whose factor explains [tc] and whose remainders report
    [mi] and [h]. *)
Definition collaborators (tc mi h : Q) : Collaborators Q := {|
  corex_fit := fun m => flat 0 (np.nrows m) tc;
  remainder_new := fun _ _ _ => keep mi h
|}.

Definition numpy : Numpy := {| bincount_empty := Err ValueError |}.

(** Two samples of one variable. *)
Definition x2 : np.matrix := np.Matrix 2 [[1; 0]].

(** A layer on [w] columns of two samples, with label [lab]. *)
Definition layer (lab : Z) (w : nat) : SieveLayer.t Q :=
  SieveLayer.Build (flat lab 2 1) [lab; lab] (repeat (keep (1 # 4) (1 # 3)) w).

(** A Sieve of two layers on one variable; the labels are [7] in layer 0
    and [9] in layer 1. *)
Definition sieve2 : Sieve.t Q :=
  Sieve.Build 10 (Kwargs None) [layer 7 1; layer 9 2] [[1; 1]]
              (Some 1%nat).

(** A Remainder Model whose prediction is the code moved by [d]. *)
Definition shift (d : Z) : Remainder.t Q :=
  Remainder.Build (fun xs _ => map (fun v => v - d) xs)
                  (fun _ zs => map (fun z => z + d) zs) 0%Q 0%Q.

(** A Sieve of one layer on one variable, whose model moves codes by
    [d]; code [0] was seen three times. *)
Definition sieve_shift (d : Z) : Sieve.t Q :=
  Sieve.Build 10 (Kwargs None)
              [SieveLayer.Build (flat 0 1 1) [0] [shift d]]
              [[3]] (Some 1%nat).

(** A Factor Extractor with the vector [mis] of mutual informations. *)
Definition informed (mis : list Q) : Corex.t Q :=
  Corex.Build [0; 0] (fun _ => [0; 0]) 1%Q mis.

(** A Sieve of two layers on two variables with their mutual
    informations. *)
Definition sieve_mis : Sieve.t Q :=
  Sieve.Build 10 (Kwargs None)
    [SieveLayer.Build (informed [1 # 2; 1 # 3]) [0; 0]
                      [keep 0 0; keep 0 0];
     SieveLayer.Build (informed [1 # 5; 1 # 2; 1 # 7]) [0; 0]
                      [keep 0 0; keep 0 0; keep 0 0]]
    [[1; 1]; [2]] (Some 2%nat).

End Example.

(* ===================================================================== *)
(** ** Indexing and list comprehensions *)
(* ===================================================================== *)

Lemma bind_Ok {A B : Type} (m : result A) (k : A -> result B) (b : B) :
  bind m k = Ok b -> exists a, m = Ok a /\ k a = Ok b.
Proof.
  destruct m as [a | e]; simpl; intros Hk; [ | discriminate ].
  exists a. split; [ reflexivity | exact Hk ].
Qed.

Lemma index_nil {A : Type} (i : Z) : py.index (@nil A) i = Err IndexError.
Proof.
  unfold py.index, py.len. simpl.
  destruct (i <? 0) eqn:Hi.
  - rewrite Z.add_0_r, Hi. reflexivity.
  - apply Z.ltb_ge in Hi.
    assert (Hle : (0 <=? i) = true) by (apply Z.leb_le; lia).
    rewrite Hle, orb_true_r. reflexivity.
Qed.

(** A non-negative index in range reads the element at that position. *)
Lemma index_middle {A : Type} (pre suf : list A) (a : A) :
  py.index (pre ++ a :: suf) (Z.of_nat (length pre)) = Ok a.
Proof.
  unfold py.index, py.len.
  assert (Hneg : (Z.of_nat (length pre) <? 0) = false) by (apply Z.ltb_ge; lia).
  rewrite Hneg. simpl. rewrite Hneg.
  assert (Hin : (Z.of_nat (length (pre ++ a :: suf)) <=? Z.of_nat (length pre))
                = false).
  { apply Z.leb_gt. rewrite length_app. simpl. lia. }
  rewrite Hin, Nat2Z.id, nth_error_app2 by lia.
  rewrite Nat.sub_diag. reflexivity.
Qed.

(** Index [-1] reads the last element. *)
Lemma index_last {A : Type} (l : list A) (a : A) :
  py.index (l ++ [a]) (-1) = Ok a.
Proof.
  unfold py.index, py.len. rewrite length_app.
  change (-1 <? 0) with true. cbv iota.
  change (length [a]) with 1%nat.
  replace (-1 + Z.of_nat (length l + 1)) with (Z.of_nat (length l)) by lia.
  assert (Hneg : (Z.of_nat (length l) <? 0) = false) by (apply Z.ltb_ge; lia).
  assert (Hin : (Z.of_nat (length l + 1) <=? Z.of_nat (length l)) = false)
    by (apply Z.leb_gt; lia).
  rewrite Hneg, Hin, Nat2Z.id, nth_error_app2 by lia.
  rewrite Nat.sub_diag. reflexivity.
Qed.

(** A comprehension over [range] that reads two lists at the same index is
    a map over the zipped lists. *)
Lemma mapM_zip_index {A B C : Type} (g : A -> B -> C) :
  forall (rs : list A) (cs : list B) (pr sr : list A) (pc sc : list B),
    length pr = length pc ->
    length rs = length cs ->
    mapM (fun i => r <- py.index (pr ++ rs ++ sr) i ;;
                   c <- py.index (pc ++ cs ++ sc) i ;;
                   Ok (g r c))
         (map Z.of_nat (seq (length pr) (length rs)))
    = Ok (map (fun rc => g (fst rc) (snd rc)) (combine rs cs)).
Proof.
  induction rs as [ | r rs IH ]; intros cs pr sr pc sc Hp Hl.
  - reflexivity.
  - destruct cs as [ | c cs ]; [ discriminate | ].
    simpl in Hl. injection Hl as Hl.
    simpl seq. simpl map. simpl mapM.
    simpl app.
    rewrite index_middle. simpl bind.
    rewrite Hp at 1. rewrite index_middle. simpl bind.
    specialize (IH cs (pr ++ [r]) sr (pc ++ [c]) sc).
    rewrite !length_app in IH. simpl in IH.
    rewrite <- !app_assoc in IH. simpl in IH.
    replace (length pr + 1)%nat with (S (length pr)) in IH by lia.
    rewrite IH by lia.
    reflexivity.
Qed.

Lemma same_length_Forall (n : nat) (l : list (list Z)) :
  Forall (fun c => length c = n) l -> np.same_length n l = true.
Proof.
  unfold np.same_length. intros Hl. apply forallb_forall. intros c Hc.
  rewrite Forall_forall in Hl. apply Nat.eqb_eq. apply Hl. exact Hc.
Qed.

(** Columns of one length make a matrix. *)
Lemma array_T_matrix (n : nat) (l : list (list Z)) :
  l <> [] -> Forall (fun c => length c = n) l ->
  np.array_T l = np.Arr2 (np.Matrix n l).
Proof.
  intros Hne Hl. destruct l as [ | c l' ]; [ contradiction | ].
  unfold np.array_T.
  assert (Hc : length c = n) by (inversion Hl; assumption).
  rewrite Hc, same_length_Forall by exact Hl. reflexivity.
Qed.

(* ===================================================================== *)
(** ** One layer *)
(* ===================================================================== *)

Section LayerFacts.
Context {F : Type}.

Lemma range_length (n : nat) : length (py.range n) = n.
Proof. unfold py.range. rewrite length_map, length_seq. reflexivity. Qed.

Lemma residual_codes_length (l : SieveLayer.t F) (m : np.matrix) :
  length (SieveLayer.remainders l) = np.ncols m ->
  length (residual_codes l m) = np.ncols m.
Proof.
  intros Hl. unfold residual_codes.
  rewrite length_map, length_combine, Hl. unfold np.ncols. lia.
Qed.

Lemma residual_codes_rows (l : SieveLayer.t F) (m : np.matrix) :
  one_label_per_row (SieveLayer.corex l) ->
  Forall per_sample (SieveLayer.remainders l) ->
  np.wf m ->
  Forall (fun c => length c = np.nrows m) (residual_codes l m).
Proof.
  intros Hc Hr Hm. unfold residual_codes.
  apply Forall_forall. intros z Hz.
  apply in_map_iff in Hz. destruct Hz as [[r c] [Hz Hin]]. subst z. simpl.
  rewrite Forall_forall in Hr. unfold np.wf in Hm. rewrite Forall_forall in Hm.
  assert (Hlc : length c = np.nrows m) by (apply Hm; eapply in_combine_r; eassumption).
  destruct (Hr r (in_combine_l _ _ _ _ Hin) c
               (Corex.transform (SieveLayer.corex l) (np.Arr2 m))) as [Ht _].
  - rewrite Hc. exact Hlc.
  - rewrite Ht. exact Hlc.
Qed.

(** A fitted layer turns a matrix with at least one column into its
    residual codes followed by the label column. *)
Lemma layer_transform_fitted (l : SieveLayer.t F) (m : np.matrix) :
  fitted_layer (np.ncols m) l -> (1 <= np.ncols m)%nat -> np.wf m ->
  SieveLayer.transform l (np.Arr2 m)
  = Ok (np.Matrix (np.nrows m)
          (residual_codes l m
             ++ [Corex.transform (SieveLayer.corex l) (np.Arr2 m)])).
Proof.
  intros [Hlen [Hc Hr]] Hw Hm.
  unfold SieveLayer.transform. cbn [np.shape1 bind].
  unfold py.range.
  pose proof (mapM_zip_index
                (fun r xi => Remainder.transform r xi
                   (Corex.transform (SieveLayer.corex l) (np.Arr2 m)))
                (SieveLayer.remainders l) (np.cols m) [] [] [] []
                eq_refl Hlen) as Hmap.
  cbn [app length] in Hmap. rewrite !app_nil_r in Hmap.
  rewrite Hlen in Hmap. cbn [np.col].
  rewrite Hmap. cbn [bind]. fold (residual_codes l m).
  rewrite (array_T_matrix (n := np.nrows m)).
  - unfold np.hstack, np.newaxis. cbn [np.nrows np.cols].
    rewrite Hc, Nat.eqb_refl. reflexivity.
  - intros Hnil. apply (f_equal (@length _)) in Hnil.
    rewrite residual_codes_length in Hnil by exact Hlen. simpl in Hnil. lia.
  - apply residual_codes_rows; assumption.
Qed.

Lemma predictions_length (l : SieveLayer.t F) (zs : list (list Z))
      (ys : list Z) :
  length (SieveLayer.remainders l) = length zs ->
  length (predictions l zs ys) = length zs.
Proof.
  intros Hl. unfold predictions.
  rewrite length_map, length_combine, Hl. lia.
Qed.

Lemma predictions_rows (l : SieveLayer.t F) (n : nat)
      (zs : list (list Z)) (ys : list Z) :
  Forall per_sample (SieveLayer.remainders l) ->
  Forall (fun c => length c = n) zs -> length ys = n ->
  Forall (fun c => length c = n) (predictions l zs ys).
Proof.
  intros Hr Hz Hy. unfold predictions.
  apply Forall_forall. intros v Hv.
  apply in_map_iff in Hv. destruct Hv as [[r z] [Hv Hin]]. subst v. simpl.
  rewrite Forall_forall in Hr, Hz.
  assert (Hlz : length z = n) by (apply Hz; eapply in_combine_r; eassumption).
  destruct (Hr r (in_combine_l _ _ _ _ Hin) z ys) as [_ Hp].
  - rewrite Hy. exact Hlz.
  - rewrite Hp. exact Hlz.
Qed.

(** A fitted layer turns codes followed by a label column into one
    predicted column per code column. *)
Lemma layer_invert_fitted (l : SieveLayer.t F) (n : nat)
      (zs : list (list Z)) (ys : list Z) :
  fitted_layer (length zs) l -> zs <> [] ->
  Forall (fun c => length c = n) zs -> length ys = n ->
  SieveLayer.invert l (np.Arr2 (np.Matrix n (zs ++ [ys])))
  = Ok (np.Arr2 (np.Matrix n (predictions l zs ys))).
Proof.
  intros [Hlen [_ Hr]] Hne Hz Hy.
  unfold SieveLayer.invert. cbn [np.col np.cols].
  rewrite index_last. cbn [bind np.shape1].
  unfold np.ncols. cbn [np.cols].
  rewrite length_app. cbn [length].
  replace (length zs + 1 - 1)%nat with (length zs) by lia.
  unfold py.range.
  pose proof (mapM_zip_index
                (fun r zi => Remainder.predict r ys zi)
                (SieveLayer.remainders l) zs [] [] [] [ys]
                eq_refl Hlen) as Hmap.
  cbn [app length] in Hmap. rewrite app_nil_r in Hmap.
  rewrite Hlen in Hmap.
  rewrite Hmap. cbn [bind]. fold (predictions l zs ys).
  rewrite (array_T_matrix (n := n)).
  - reflexivity.
  - intros Hnil. apply (f_equal (@length _)) in Hnil.
    rewrite predictions_length in Hnil by exact Hlen.
    destruct zs; [ contradiction | discriminate ].
  - apply predictions_rows; assumption.
Qed.

End LayerFacts.

Lemma keep_per_sample (mi h : Q) : per_sample (Example.keep mi h).
Proof. intros xs ys Hl. split; reflexivity. Qed.

Lemma flat_one_label_per_row (lab : Z) (rows : nat) (tc : Q) :
  one_label_per_row (Example.flat lab rows tc).
Proof. intros m. simpl. apply repeat_length. Qed.

Lemma example_layer_fitted (lab : Z) (w : nat) :
  fitted_layer w (Example.layer lab w).
Proof.
  unfold fitted_layer, Example.layer. simpl. split; [ | split ].
  - apply repeat_length.
  - apply flat_one_label_per_row.
  - apply Forall_forall. intros r Hr. apply repeat_spec in Hr. subst r.
    apply keep_per_sample.
Qed.

(** C6.  For a fitted layer and a matrix [m] with the layout the layer was
    built on, [transform] returns the residual codes of the columns of [m]
    followed by the label vector as last column, so one column more than
    [m]; and [invert], on a layer-output matrix [out], takes the last
    column as labels and predicts one column for each other column, so one
    column fewer than [out]. *)
Theorem layer_transform_invert_widths
        {F : Type} (l : SieveLayer.t F) (w : nat) (m out : np.matrix) :
  fitted_layer w l -> (1 <= w)%nat ->
  np.wf m -> np.ncols m = w ->
  np.wf out -> np.ncols out = S w ->
  (exists xr,
      SieveLayer.transform l (np.Arr2 m) = Ok xr /\
      np.cols xr = residual_codes l m
                     ++ [Corex.transform (SieveLayer.corex l) (np.Arr2 m)] /\
      np.shape (np.Arr2 xr) = [np.nrows m; (np.ncols m + 1)%nat]) /\
  (exists x,
      SieveLayer.invert l (np.Arr2 out) = Ok (np.Arr2 x) /\
      np.cols x = predictions l (removelast (np.cols out))
                              (last (np.cols out) []) /\
      np.shape (np.Arr2 x) = [np.nrows out; (np.ncols out - 1)%nat]).
Proof.
  intros Hl Hw Hm Hmw Ho How. split.
  - subst w. eexists. split; [ apply layer_transform_fitted; assumption | ].
    split; [ reflexivity | ].
    unfold np.shape, np.ncols. cbn [np.nrows np.cols].
    rewrite length_app, (residual_codes_length l m) by apply Hl.
    reflexivity.
  - destruct out as [n ocols]. unfold np.ncols, np.wf in *.
    cbn [np.nrows np.cols] in *.
    assert (Hne : ocols <> []) by (intros ->; discriminate).
    pose proof (app_removelast_last [] Hne) as Hsplit.
    set (zs := removelast ocols) in *. set (ys := last ocols []) in *.
    assert (Hzl : length zs = w).
    { apply (f_equal (@length _)) in Hsplit.
      rewrite length_app in Hsplit. simpl in Hsplit. lia. }
    rewrite Hsplit in Ho. apply Forall_app in Ho. destruct Ho as [Hz Hy].
    exists (np.Matrix n (predictions l zs ys)).
    split; [ | split ].
    + rewrite Hsplit. apply layer_invert_fitted.
      * rewrite Hzl. exact Hl.
      * intros Hnil. rewrite Hnil in Hzl. simpl in Hzl. lia.
      * exact Hz.
      * inversion Hy. assumption.
    + reflexivity.
    + unfold np.shape, np.ncols. cbn [np.nrows np.cols].
      rewrite predictions_length by (rewrite Hzl; apply Hl).
      do 2 f_equal. lia.
Qed.

Lemma layer_transform_invert_widths_witness :
  fitted_layer 1 (Example.layer 7 1) /\
  (exists xr,
      SieveLayer.transform (Example.layer 7 1) (np.Arr2 Example.x2) = Ok xr /\
      np.cols xr = [[1; 0]; [7; 7]] /\
      np.shape (np.Arr2 xr) = [2%nat; 2%nat]) /\
  (exists x,
      SieveLayer.invert (Example.layer 7 1)
                        (np.Arr2 (np.Matrix 2 [[1; 0]; [7; 7]]))
      = Ok (np.Arr2 x) /\
      np.cols x = [[1; 0]] /\
      np.shape (np.Arr2 x) = [2%nat; 1%nat]).
Proof.
  split; [ apply example_layer_fitted | ].
  apply (@layer_transform_invert_widths Q (Example.layer 7 1) 1%nat
           Example.x2 (np.Matrix 2 [[1; 0]; [7; 7]])).
  - apply example_layer_fitted.
  - lia.
  - repeat constructor.
  - reflexivity.
  - repeat constructor.
  - reflexivity.
Defined.

(* ===================================================================== *)
(** ** Bounds *)
(* ===================================================================== *)

Section Bounds.
Context {F : Type} `{ScalarOrder F}.

Lemma fold_left_fadd_mono {A : Type} (f g : A -> F) :
  forall (l : list A) (a b : F),
    (forall r, In r l -> fleb (f r) (g r) = true) ->
    fleb a b = true ->
    fleb (fold_left fadd (map f l) a) (fold_left fadd (map g l) b) = true.
Proof.
  induction l as [ | r l IH ]; intros a b Hfg Hab; simpl.
  - exact Hab.
  - apply IH.
    + intros r' Hr'. apply Hfg. right. exact Hr'.
    + apply fadd_mono; [ exact Hab | apply Hfg; left; reflexivity ].
Qed.

Lemma py_sum_mono {A : Type} (f g : A -> F) (l : list A) :
  (forall r, In r l -> fleb (f r) (g r) = true) ->
  fleb (py_sum (map f l)) (py_sum (map g l)) = true.
Proof.
  intros Hfg. unfold py_sum.
  apply fold_left_fadd_mono; [ exact Hfg | apply fleb_zero ].
Qed.

End Bounds.

#[export] Instance Q_ScalarOrder : @ScalarOrder Q Q_Scalar.
Proof.
  split.
  - reflexivity.
  - intros a b c d Hab Hcd. simpl in *.
    apply Qle_bool_iff. apply Qle_bool_iff in Hab, Hcd.
    apply Qplus_le_compat; assumption.
Qed.

(** C4.  When every Remainder Model of a Sieve has [mi <= 2 * h], each
    layer has [lb <= ub] (with [lb] the sum of the [mi] and [ub] the sum of
    the [2 * h] of its models), and the Sieve has [lb <= ub] (each the sum
    of the layers' values). *)
Theorem bounds_ordered {F : Type} `{ScalarOrder F} (s : Sieve.t F) :
  (forall l r, In l (Sieve.layers s) -> In r (SieveLayer.remainders l) ->
               fleb (Remainder.mi r) (fdouble (Remainder.h r)) = true) ->
  (forall l, In l (Sieve.layers s) ->
             fleb (SieveLayer.lb l) (SieveLayer.ub l) = true) /\
  fleb (Sieve.lb s) (Sieve.ub s) = true.
Proof.
  intros Hmodels.
  assert (Hlayers : forall l, In l (Sieve.layers s) ->
                              fleb (SieveLayer.lb l) (SieveLayer.ub l) = true).
  { intros l Hl. unfold SieveLayer.lb, SieveLayer.ub.
    apply py_sum_mono. intros r Hr. apply (Hmodels l r Hl Hr). }
  split; [ exact Hlayers | ].
  unfold Sieve.lb, Sieve.ub. apply py_sum_mono. exact Hlayers.
Qed.

(* ===================================================================== *)
(** ** The recursion of [Sieve.transform] and [Sieve.invert] *)
(* ===================================================================== *)

Ltac rewrite_branches :=
  repeat match goal with
         | Hx : _ = Ok _ |- _ => rewrite Hx; cbn [bind]
         | Hx : _ = Err _ |- _ => rewrite Hx; cbn [bind]
         | Hx : (_ =? _) = _ |- _ => rewrite Hx
         | Hx : (_ <? _) = _ |- _ => rewrite Hx
         end.

Section Recursion.
Context {F : Type}.

(** One step of [Sieve.transform], as the source reads. *)
Lemma transform_unfold (self : Sieve.t F) (x : np.ndarray) (layer : Z)
      (prev_labels : option np.ndarray) :
  Sieve.transform self x layer prev_labels
  = (l <- py.index (Sieve.layers self) layer ;;
     x_out <- SieveLayer.transform l x ;;
     labels <- Sieve.stack_labels prev_labels x_out ;;
     if layer =? py.len (Sieve.layers self) - 1
     then Ok (x_out, labels)
     else Sieve.transform self (np.Arr2 x_out) (layer + 1)
                          (Some (np.Arr2 labels))).
Proof.
  funelim (Sieve.transform self x layer prev_labels);
    rewrite_branches; reflexivity.
Qed.

(** One step of [Sieve.invert], as the source reads. *)
Lemma invert_at_unfold (self : Sieve.t F) (x : np.ndarray) (layer : Z) :
  Sieve.invert_at self x layer
  = (l <- py.index (Sieve.layers self) layer ;;
     x' <- SieveLayer.invert l x ;;
     if layer =? 0 then Ok x'
     else Sieve.invert_at self x' (layer - 1)).
Proof.
  funelim (Sieve.invert_at self x layer);
    rewrite_branches; reflexivity.
Qed.

(** From layer [length pre] on, [Sieve.transform] runs through the
    remaining layers in order. *)
Lemma transform_as_list (self : Sieve.t F) :
  forall (suf pre : list (SieveLayer.t F)) (x : np.ndarray)
         (prev_labels : option np.ndarray),
    Sieve.layers self = pre ++ suf -> suf <> [] ->
    Sieve.transform self x (Z.of_nat (length pre)) prev_labels
    = transform_list suf x prev_labels.
Proof.
  induction suf as [ | l suf IH ]; intros pre x prev Hs Hne;
    [ contradiction | ].
  rewrite transform_unfold, Hs, index_middle. cbn [bind transform_list].
  destruct (SieveLayer.transform l x) as [x_out | e]; [ | reflexivity ].
  cbn [bind].
  destruct (Sieve.stack_labels prev x_out) as [labels | e]; [ | reflexivity ].
  cbn [bind]. unfold py.len. rewrite length_app. cbn [length].
  destruct suf as [ | l2 suf ].
  - assert (Hlast : (Z.of_nat (length pre)
                     =? Z.of_nat (length pre + 1) - 1) = true)
      by (apply Z.eqb_eq; lia).
    cbn [length]. rewrite Hlast. reflexivity.
  - assert (Hmore : (Z.of_nat (length pre)
                     =? Z.of_nat (length pre + S (S (length suf))) - 1)
                    = false)
      by (apply Z.eqb_neq; lia).
    cbn [length]. rewrite Hmore.
    specialize (IH (pre ++ [l]) (np.Arr2 x_out) (Some (np.Arr2 labels))).
    rewrite length_app in IH. cbn [length] in IH.
    replace (Z.of_nat (length pre) + 1) with (Z.of_nat (length pre + 1))
      by lia.
    apply IH.
    + rewrite <- app_assoc. exact Hs.
    + discriminate.
Qed.

Lemma bind_ret {A : Type} (m : result A) : (a <- m ;; Ok a) = m.
Proof. destruct m; reflexivity. Qed.

(** From layer [length pre] down, [Sieve.invert] undoes that layer and
    then the shallower ones, deepest first. *)
Lemma invert_at_as_chain (self : Sieve.t F) :
  forall (pre : list (SieveLayer.t F)) (l : SieveLayer.t F)
         (suf : list (SieveLayer.t F)) (x : np.ndarray),
    Sieve.layers self = pre ++ l :: suf ->
    Sieve.invert_at self x (Z.of_nat (length pre))
    = invert_chain (l :: rev pre) x.
Proof.
  induction pre as [ | l' pre IH ] using rev_ind; intros l suf x Hs.
  - rewrite invert_at_unfold, Hs.
    rewrite (index_middle [] suf l). cbn [bind length rev invert_chain].
    change (Z.of_nat 0 =? 0) with true. cbv iota.
    destruct (SieveLayer.invert l x); reflexivity.
  - rewrite invert_at_unfold, Hs, index_middle.
    cbn [bind invert_chain]. rewrite rev_unit.
    rewrite length_app. cbn [length].
    assert (Hnz : (Z.of_nat (length pre + 1) =? 0) = false)
      by (apply Z.eqb_neq; lia).
    rewrite Hnz.
    destruct (SieveLayer.invert l x) as [x' | e]; [ | reflexivity ].
    cbn [bind].
    replace (Z.of_nat (length pre + 1) - 1) with (Z.of_nat (length pre))
      by lia.
    apply (IH l' (l :: suf)).
    rewrite <- app_assoc in Hs. exact Hs.
Qed.

(** With at least one layer, [Sieve.invert(x)] undoes all layers, deepest
    first. *)
Lemma invert_as_chain (self : Sieve.t F) (x : np.ndarray) :
  Sieve.layers self <> [] ->
  Sieve.invert self x None = invert_chain (rev (Sieve.layers self)) x.
Proof.
  intros Hne.
  destruct (exists_last Hne) as [pre [l Hs]].
  unfold Sieve.invert, py.len. rewrite Hs.
  rewrite length_app. cbn [length].
  replace (Z.of_nat (length pre + 1) - 1) with (Z.of_nat (length pre))
    by lia.
  rewrite (invert_at_as_chain self pre l [] x Hs).
  rewrite rev_unit. reflexivity.
Qed.

Lemma invert_chain_app (ls1 ls2 : list (SieveLayer.t F)) (x : np.ndarray) :
  invert_chain (ls1 ++ ls2) x
  = (x' <- invert_chain ls1 x ;; invert_chain ls2 x').
Proof.
  revert x. induction ls1 as [ | l ls1 IH ]; intros x; simpl.
  - reflexivity.
  - destruct (SieveLayer.invert l x) as [x' | e]; simpl;
      [ apply IH | reflexivity ].
Qed.

End Recursion.

(* ===================================================================== *)
(** ** A fitted stack of layers *)
(* ===================================================================== *)

Section StackFacts.
Context {F : Type}.

Lemma last_cons_default {A : Type} (l : list A) (a d : A) :
  last (a :: l) d = last l a.
Proof.
  revert a d. induction l as [ | b l IH ]; intros a d; [ reflexivity | ].
  change (last (a :: b :: l) d) with (last (b :: l) d).
  rewrite (IH b d), (IH b a). reflexivity.
Qed.

Lemma skipn_last {A : Type} (l : list A) (d : A) :
  l <> [] -> skipn (length l - 1) l = [last l d].
Proof.
  intros Hne. destruct (exists_last Hne) as [pre [a Hl]]. subst l.
  rewrite length_app, last_last. cbn [length].
  replace (length pre + 1 - 1)%nat with (length pre + 0)%nat by lia.
  rewrite skipn_app, Nat.add_0_r, skipn_all.
  replace (length pre - length pre)%nat with 0%nat by lia.
  reflexivity.
Qed.

Lemma layer_output_shape (l : SieveLayer.t F) (m : np.matrix) :
  fitted_layer (np.ncols m) l -> np.wf m ->
  np.wf (layer_output l m) /\
  np.nrows (layer_output l m) = np.nrows m /\
  np.ncols (layer_output l m) = S (np.ncols m) /\
  last_column (layer_output l m)
  = Corex.transform (SieveLayer.corex l) (np.Arr2 m).
Proof.
  intros [Hlen [Hc Hr]] Hm. unfold layer_output, np.wf, np.ncols, last_column.
  cbn [np.nrows np.cols]. repeat split.
  - apply Forall_app. split.
    + apply residual_codes_rows; assumption.
    + constructor; [ apply Hc | constructor ].
  - rewrite length_app, residual_codes_length by exact Hlen.
    unfold np.ncols. cbn [length]. lia.
  - apply last_last.
Qed.

(** The accumulated labels gain the last column of the layer's output. *)
Lemma stack_labels_last (prev_labels : option np.ndarray) (o : np.matrix)
      (n : nat) :
  np.nrows o = n -> np.cols o <> [] -> prev_rows prev_labels n ->
  Sieve.stack_labels prev_labels o
  = Ok (np.Matrix n (prev_cols prev_labels ++ [last_column o])).
Proof.
  intros Hn Hne Hp. unfold Sieve.stack_labels, np.last_col_slice.
  rewrite (skipn_last [] Hne). fold (last_column o).
  destruct prev_labels as [[v | vs | p] | ]; simpl in Hp;
    try contradiction.
  - cbn [bind np.hstack np.nrows np.cols prev_cols].
    rewrite Hp, Hn, Nat.eqb_refl. reflexivity.
  - rewrite Hn. reflexivity.
Qed.

(** In a fitted stack every layer returns, and what it returns is its
    [layer_output] on the whole output of the layer before. *)
Lemma layer_outputs_fitted :
  forall (ls : list (SieveLayer.t F)) (V : nat) (m : np.matrix),
    fitted_stack V ls -> (1 <= V)%nat -> np.wf m -> np.ncols m = V ->
    layer_outputs ls (np.Arr2 m) = Ok (stack_outputs ls m).
Proof.
  induction ls as [ | l ls IH ]; intros V m Hf HV Hm Hw.
  - reflexivity.
  - inversion Hf as [ | V' l' ls' Hl Hrest ]; subst.
    cbn [layer_outputs stack_outputs].
    rewrite layer_transform_fitted by assumption.
    cbn [bind]. fold (layer_output l m).
    destruct (layer_output_shape Hl Hm) as [Hwf [_ [Hcols _]]].
    rewrite (IH (S (np.ncols m)) (layer_output l m)) by (auto; lia).
    reflexivity.
Qed.

(** [Sieve.transform] on a fitted stack: the first component is the
    output of the deepest layer, the second collects the last column of
    every layer's output. *)
Lemma transform_list_fitted :
  forall (ls : list (SieveLayer.t F)) (V : nat) (m : np.matrix)
         (prev_labels : option np.ndarray),
    fitted_stack V ls -> ls <> [] -> (1 <= V)%nat ->
    np.wf m -> np.ncols m = V -> prev_rows prev_labels (np.nrows m) ->
    transform_list ls (np.Arr2 m) prev_labels
    = Ok (last (stack_outputs ls m) m,
          np.Matrix (np.nrows m)
            (prev_cols prev_labels
               ++ map last_column (stack_outputs ls m))).
Proof.
  induction ls as [ | l ls IH ]; intros V m prev Hf Hne HV Hm Hw Hp;
    [ contradiction | ].
  inversion Hf as [ | V' l' ls' Hl Hrest ]; subst.
  cbn [transform_list stack_outputs].
  rewrite layer_transform_fitted by assumption.
  cbn [bind]. fold (layer_output l m).
  destruct (layer_output_shape Hl Hm) as [Hwf [Hrows [Hcols Hlast]]].
  rewrite (@stack_labels_last prev (layer_output l m) (np.nrows m))
    by (try assumption;
        intros Hnil; unfold np.ncols in Hcols; rewrite Hnil in Hcols;
        discriminate).
  cbn [bind].
  destruct ls as [ | l2 ls ].
  - reflexivity.
  - rewrite (IH (S (np.ncols m)) (layer_output l m)
                (Some (np.Arr2
                         (np.Matrix (np.nrows m)
                            (prev_cols prev
                               ++ [last_column (layer_output l m)])))));
      try assumption; try discriminate; try lia;
      try (cbn [prev_rows np.nrows]; symmetry; exact Hrows).
    rewrite last_cons_default, Hrows.
    cbn [prev_cols np.cols map]. rewrite <- app_assoc. reflexivity.
Qed.

(** Shape of the deepest output. *)
Lemma stack_outputs_last_shape :
  forall (ls : list (SieveLayer.t F)) (V : nat) (m : np.matrix),
    fitted_stack V ls -> np.wf m -> np.ncols m = V ->
    np.wf (last (stack_outputs ls m) m) /\
    np.nrows (last (stack_outputs ls m) m) = np.nrows m /\
    np.ncols (last (stack_outputs ls m) m) = (V + length ls)%nat.
Proof.
  induction ls as [ | l ls IH ]; intros V m Hf Hm Hw.
  - cbn. repeat split; [ exact Hm | lia ].
  - inversion Hf as [ | V' l' ls' Hl Hrest ]; subst.
    cbn [stack_outputs length]. rewrite last_cons_default.
    destruct (layer_output_shape Hl Hm) as [Hwf [Hrows [Hcols _]]].
    destruct (IH (S (np.ncols m)) (layer_output l m) Hrest Hwf Hcols)
      as [H1 [H2 H3]].
    repeat split; [ exact H1 | congruence | lia ].
Qed.

Lemma stack_outputs_length (ls : list (SieveLayer.t F)) (m : np.matrix) :
  length (stack_outputs ls m) = length ls.
Proof.
  revert m. induction ls as [ | l ls IH ]; intros m; simpl;
    [ reflexivity | rewrite IH; reflexivity ].
Qed.

Lemma stack_outputs_snoc (pre : list (SieveLayer.t F)) (l : SieveLayer.t F) :
  forall m,
    stack_outputs (pre ++ [l]) m
    = stack_outputs pre m
        ++ [layer_output l (last (stack_outputs pre m) m)].
Proof.
  induction pre as [ | l' pre IH ]; intros m.
  - reflexivity.
  - cbn [app stack_outputs]. rewrite IH, last_cons_default. reflexivity.
Qed.

Lemma last_map_default {A B : Type} (f : A -> B) (l : list A) (a : A)
      (b : B) :
  l <> [] -> last (map f l) b = f (last l a).
Proof.
  intros Hne. destruct (exists_last Hne) as [pre [x Hl]]. subst l.
  rewrite map_app. cbn [map]. rewrite !last_last. reflexivity.
Qed.

End StackFacts.

Lemma bounds_ordered_witness :
  (forall l r, In l (Sieve.layers Example.sieve2) ->
               In r (SieveLayer.remainders l) ->
               fleb (Remainder.mi r) (fdouble (Remainder.h r)) = true) /\
  (forall l, In l (Sieve.layers Example.sieve2) ->
             fleb (SieveLayer.lb l) (SieveLayer.ub l) = true) /\
  fleb (Sieve.lb Example.sieve2) (Sieve.ub Example.sieve2) = true.
Proof.
  assert (Hmodels : forall l r, In l (Sieve.layers Example.sieve2) ->
                                In r (SieveLayer.remainders l) ->
                                fleb (Remainder.mi r)
                                     (fdouble (Remainder.h r)) = true).
  { intros l r Hl Hr. simpl in Hl.
    destruct Hl as [Hl | [Hl | []]]; subst l; simpl in Hr;
      repeat (destruct Hr as [Hr | Hr]; [ subst r; reflexivity | ]);
      contradiction. }
  split; [ exact Hmodels | ].
  exact (@bounds_ordered Q Q_Scalar Q_ScalarOrder Example.sieve2 Hmodels).
Defined.

(* ===================================================================== *)
(** ** Sieve.transform and Sieve.invert *)
(* ===================================================================== *)

Lemma sieve2_fitted : fitted_stack 1 (Sieve.layers Example.sieve2).
Proof.
  simpl. repeat constructor; apply example_layer_fitted.
Qed.

Lemma x2_wf : np.wf Example.x2.
Proof. repeat constructor. Qed.

(** With no previous labels, [Sieve.transform] on a fitted Sieve returns
    the deepest layer's output and the last columns of all outputs. *)
Lemma transform_fitted {F : Type} (s : Sieve.t F) (V : nat) (m : np.matrix) :
  fitted_stack V (Sieve.layers s) -> Sieve.layers s <> [] ->
  (1 <= V)%nat -> np.wf m -> np.ncols m = V ->
  Sieve.transform s (np.Arr2 m) 0 None
  = Ok (last (stack_outputs (Sieve.layers s) m) m,
        np.Matrix (np.nrows m)
                  (map last_column (stack_outputs (Sieve.layers s) m))).
Proof.
  intros Hf Hne HV Hm Hw.
  change 0 with (Z.of_nat (length (@nil (SieveLayer.t F)))).
  rewrite (@transform_as_list F s (Sieve.layers s) [] (np.Arr2 m) None
             eq_refl Hne).
  apply (transform_list_fitted None Hf Hne HV Hm Hw I).
Qed.

(** C10.  For a fitted Sieve with [L >= 1] layers and a matrix of the
    width [V] it was fitted on, [Sieve.transform] returns a pair whose
    first component has [V + L] columns, whose second component has [L]
    columns, the label columns of the layers in layer order, and the last
    column of the first component is the last column of the second. *)
Theorem transform_shapes {F : Type} (s : Sieve.t F) (V : nat)
        (m : np.matrix) :
  fitted_stack V (Sieve.layers s) -> Sieve.layers s <> [] ->
  (1 <= V)%nat -> np.wf m -> np.ncols m = V ->
  exists r labels,
    Sieve.transform s (np.Arr2 m) 0 None = Ok (r, labels) /\
    np.shape (np.Arr2 r) = [np.nrows m; (V + length (Sieve.layers s))%nat] /\
    np.shape (np.Arr2 labels) = [np.nrows m; length (Sieve.layers s)] /\
    np.cols labels = map last_column (stack_outputs (Sieve.layers s) m) /\
    last_column r = last_column labels.
Proof.
  intros Hf Hne HV Hm Hw.
  eexists. eexists. split; [ apply (transform_fitted s Hf Hne HV Hm Hw) | ].
  destruct (stack_outputs_last_shape Hf Hm Hw) as [_ [Hrows Hcols]].
  split; [ | split; [ | split ] ].
  - unfold np.shape. rewrite Hrows, Hcols. reflexivity.
  - unfold np.shape, np.ncols. cbn [np.nrows np.cols].
    rewrite length_map, stack_outputs_length. reflexivity.
  - reflexivity.
  - unfold last_column at 2. cbn [np.cols].
    symmetry. apply last_map_default.
    intros Hnil. apply (f_equal (@length _)) in Hnil.
    rewrite stack_outputs_length in Hnil.
    destruct (Sieve.layers s); [ contradiction | discriminate ].
Qed.

Lemma transform_shapes_witness :
  exists r labels,
    Sieve.transform Example.sieve2 (np.Arr2 Example.x2) 0 None
    = Ok (r, labels) /\
    np.shape (np.Arr2 r) = [2%nat; 3%nat] /\
    np.shape (np.Arr2 labels) = [2%nat; 2%nat] /\
    np.cols labels = [[7; 7]; [9; 9]] /\
    last_column r = last_column labels.
Proof.
  apply (@transform_shapes Q Example.sieve2 1%nat Example.x2).
  - exact sieve2_fitted.
  - discriminate.
  - lia.
  - exact x2_wf.
  - reflexivity.
Defined.

(** C1, as stated, fails: on a Sieve of two layers the first component
    that [Sieve.transform] returns ends with the label columns, and the
    result differs from the transform that passes on only the residual
    portion. *)
Lemma transform_is_not_as_specified :
  Sieve.transform Example.sieve2 (np.Arr2 Example.x2) 0 None
  = Ok (np.Matrix 2 [[1; 0]; [7; 7]; [9; 9]], np.Matrix 2 [[7; 7]; [9; 9]]) /\
  transform_as_specified (Sieve.layers Example.sieve2) (np.Arr2 Example.x2)
                         None
  = Ok (np.Matrix 2 [[1; 0]], np.Matrix 2 [[7; 7]; [9; 9]]) /\
  Sieve.transform Example.sieve2 (np.Arr2 Example.x2) 0 None
  <> transform_as_specified (Sieve.layers Example.sieve2)
                            (np.Arr2 Example.x2) None.
Proof.
  split; [ reflexivity | split; [ reflexivity | ] ].
  intros Heq. vm_compute in Heq. discriminate Heq.
Qed.

(** C1, amended.  For a fitted Sieve with at least one layer and a matrix
    with the layer-0 layout, every layer receives the whole output of the
    layer before it, label column included; [Sieve.transform] returns the
    output of the deepest layer, which ends with that layer's label
    column, together with the label columns of all layers in layer
    order. *)
Theorem transform_feeds_whole_output {F : Type} (s : Sieve.t F) (V : nat)
        (m : np.matrix) :
  fitted_stack V (Sieve.layers s) -> Sieve.layers s <> [] ->
  (1 <= V)%nat -> np.wf m -> np.ncols m = V ->
  let outs := stack_outputs (Sieve.layers s) m in
  layer_outputs (Sieve.layers s) (np.Arr2 m) = Ok outs /\
  Sieve.transform s (np.Arr2 m) 0 None
  = Ok (last outs m, np.Matrix (np.nrows m) (map last_column outs)) /\
  forall pre l, Sieve.layers s = pre ++ [l] ->
    let input := last (stack_outputs pre m) m in
    np.cols (last outs m)
    = residual_codes l input
        ++ [Corex.transform (SieveLayer.corex l) (np.Arr2 input)].
Proof.
  intros Hf Hne HV Hm Hw outs. subst outs.
  split; [ apply (layer_outputs_fitted Hf HV Hm Hw) | ].
  split; [ apply (transform_fitted s Hf Hne HV Hm Hw) | ].
  intros pre l Hs input. subst input.
  rewrite Hs, stack_outputs_snoc, last_last. reflexivity.
Qed.

Lemma transform_feeds_whole_output_witness :
  layer_outputs (Sieve.layers Example.sieve2) (np.Arr2 Example.x2)
  = Ok (stack_outputs (Sieve.layers Example.sieve2) Example.x2) /\
  Sieve.transform Example.sieve2 (np.Arr2 Example.x2) 0 None
  = Ok (last (stack_outputs (Sieve.layers Example.sieve2) Example.x2)
             Example.x2,
        np.Matrix 2
          (map last_column
               (stack_outputs (Sieve.layers Example.sieve2) Example.x2))) /\
  forall pre l, Sieve.layers Example.sieve2 = pre ++ [l] ->
    np.cols (last (stack_outputs (Sieve.layers Example.sieve2) Example.x2)
                  Example.x2)
    = residual_codes l (last (stack_outputs pre Example.x2) Example.x2)
        ++ [Corex.transform (SieveLayer.corex l)
              (np.Arr2 (last (stack_outputs pre Example.x2) Example.x2))].
Proof.
  apply (@transform_feeds_whole_output Q Example.sieve2 1%nat Example.x2).
  - exact sieve2_fitted.
  - discriminate.
  - lia.
  - exact x2_wf.
  - reflexivity.
Defined.

(* ===================================================================== *)
(** ** Round trip *)
(* ===================================================================== *)

Section RoundTrip.
Context {F : Type}.

(** Predicting from the codes of lossless models gives the columns back. *)
Lemma predictions_of_codes (labels : list Z) :
  forall (rs : list (Remainder.t F)) (cs : list (list Z)),
    length rs = length cs ->
    Forall (fun rc => Remainder.predict (fst rc) labels
                        (Remainder.transform (fst rc) (snd rc) labels)
                      = snd rc)
           (combine rs cs) ->
    map (fun rz => Remainder.predict (fst rz) labels (snd rz))
        (combine rs
           (map (fun rc => Remainder.transform (fst rc) (snd rc) labels)
                (combine rs cs)))
    = cs.
Proof.
  induction rs as [ | r rs IH ]; intros cs Hl Hloss.
  - destruct cs; [ reflexivity | discriminate ].
  - destruct cs as [ | c cs ]; [ discriminate | ].
    simpl in *. inversion Hloss as [ | rc rcs Hhead Htail ]; subst.
    simpl in Hhead. rewrite Hhead. f_equal.
    apply IH; [ lia | exact Htail ].
Qed.

(** One layer: [invert] undoes [transform] when the layer is lossless on
    the matrix. *)
Lemma layer_roundtrip (l : SieveLayer.t F) (m : np.matrix) :
  fitted_layer (np.ncols m) l -> (1 <= np.ncols m)%nat -> np.wf m ->
  lossless_on l m ->
  SieveLayer.invert l (np.Arr2 (layer_output l m)) = Ok (np.Arr2 m).
Proof.
  intros Hl Hw Hm Hloss.
  pose proof Hl as [Hlen [Hc Hr]].
  unfold layer_output.
  rewrite layer_invert_fitted.
  - unfold predictions, residual_codes.
    unfold lossless_on in Hloss.
    rewrite predictions_of_codes by assumption.
    destruct m; reflexivity.
  - rewrite residual_codes_length by exact Hlen. exact Hl.
  - intros Hnil. apply (f_equal (@length _)) in Hnil.
    rewrite residual_codes_length in Hnil by exact Hlen.
    simpl in Hnil. lia.
  - apply residual_codes_rows; assumption.
  - apply Hc.
Qed.

(** All layers: undoing them deepest first gives the input back. *)
Lemma stack_roundtrip :
  forall (ls : list (SieveLayer.t F)) (V : nat) (m : np.matrix),
    fitted_stack V ls -> (1 <= V)%nat -> np.wf m -> np.ncols m = V ->
    lossless_chain ls m ->
    invert_chain (rev ls) (np.Arr2 (last (stack_outputs ls m) m))
    = Ok (np.Arr2 m).
Proof.
  induction ls as [ | l ls IH ]; intros V m Hf HV Hm Hw Hloss.
  - reflexivity.
  - inversion Hf as [ | V' l' ls' Hl Hrest ]; subst.
    destruct Hloss as [Hhere Hdeeper].
    destruct (layer_output_shape Hl Hm) as [Hwf [_ [Hcols _]]].
    cbn [rev stack_outputs]. rewrite last_cons_default, invert_chain_app.
    rewrite (IH (S (np.ncols m)) (layer_output l m)); try assumption;
      try lia.
    + cbn [bind invert_chain].
      rewrite layer_roundtrip by assumption. reflexivity.
    + apply Hdeeper. apply layer_transform_fitted; assumption.
Qed.

End RoundTrip.

(** C3.  For a fitted Sieve with at least one layer, if every layer's
    Remainder Models give back, on the labels and codes that occur, the
    column they encoded, then [Sieve.invert] applied to the first component
    of [Sieve.transform(x)] returns [x]. *)
Theorem invert_transform_roundtrip {F : Type} (s : Sieve.t F) (V : nat)
        (m : np.matrix) :
  fitted_stack V (Sieve.layers s) -> Sieve.layers s <> [] ->
  (1 <= V)%nat -> np.wf m -> np.ncols m = V ->
  lossless_chain (Sieve.layers s) m ->
  exists r labels,
    Sieve.transform s (np.Arr2 m) 0 None = Ok (r, labels) /\
    Sieve.invert s (np.Arr2 r) None = Ok (np.Arr2 m).
Proof.
  intros Hf Hne HV Hm Hw Hloss.
  eexists. eexists. split; [ apply (transform_fitted s Hf Hne HV Hm Hw) | ].
  rewrite invert_as_chain by exact Hne.
  eapply stack_roundtrip; eassumption.
Qed.

Lemma sieve2_lossless : lossless_chain (Sieve.layers Example.sieve2) Example.x2.
Proof.
  simpl. split; [ repeat constructor | ].
  intros m' Hm'. vm_compute in Hm'. injection Hm' as <-.
  split; [ repeat constructor | ].
  intros m'' _. exact I.
Qed.

Lemma invert_transform_roundtrip_witness :
  exists r labels,
    Sieve.transform Example.sieve2 (np.Arr2 Example.x2) 0 None
    = Ok (r, labels) /\
    Sieve.invert Example.sieve2 (np.Arr2 r) None = Ok (np.Arr2 Example.x2).
Proof.
  apply (@invert_transform_roundtrip Q Example.sieve2 1%nat Example.x2).
  - exact sieve2_fitted.
  - discriminate.
  - lia.
  - exact x2_wf.
  - reflexivity.
  - exact sieve2_lossless.
Defined.

(** C9.  A Sieve with no layer returns nothing from [transform] and from
    [invert]: [transform] reads [layers[0]] and [invert] reads
    [layers[-1]] of the empty list, and both raise [IndexError]. *)
Theorem empty_sieve_raises {F : Type} (s : Sieve.t F) (x : np.ndarray) :
  Sieve.layers s = [] ->
  py.index (Sieve.layers s) 0 = Err IndexError /\
  py.index (Sieve.layers s) (-1) = Err IndexError /\
  Sieve.transform s x 0 None = Err IndexError /\
  Sieve.invert s x None = Err IndexError.
Proof.
  intros Hempty.
  assert (Hidx : forall i, py.index (Sieve.layers s) i = Err IndexError)
    by (intros i; rewrite Hempty; apply index_nil).
  split; [ apply Hidx | split; [ apply Hidx | split ] ].
  - rewrite transform_unfold, Hidx. reflexivity.
  - unfold Sieve.invert. rewrite invert_at_unfold, Hidx. reflexivity.
Qed.

Lemma empty_sieve_raises_witness :
  let s := Sieve.init Q 10 (Kwargs None) in
  Sieve.layers s = [] /\
  py.index (Sieve.layers s) 0 = Err IndexError /\
  py.index (Sieve.layers s) (-1) = Err IndexError /\
  Sieve.transform s (np.Arr2 Example.x2) 0 None = Err IndexError /\
  Sieve.invert s (np.Arr2 Example.x2) None = Err IndexError.
Proof.
  intros s. split; [ reflexivity | ].
  exact (@empty_sieve_raises Q s (np.Arr2 Example.x2) eq_refl).
Defined.

(* ===================================================================== *)
(** ** Prediction *)
(* ===================================================================== *)

Section Prediction.
Context {F : Type} `{Scalar F}.

Lemma index_error {A : Type} (l : list A) (i : Z) (e : exn) :
  py.index l i = Err e -> e = IndexError.
Proof.
  unfold py.index.
  destruct (_ || _); [ intros Heq; injection Heq as <-; reflexivity | ].
  destruct (nth_error _ _); [ discriminate | ].
  intros Heq; injection Heq as <-; reflexivity.
Qed.

Lemma foldM_error {A B : Type} (f : B -> A -> result B) :
  (forall b a e, f b a = Err e -> e = IndexError) ->
  forall l b e, Sieve.foldM f l b = Err e -> e = IndexError.
Proof.
  intros Hf. induction l as [ | a l IH ]; intros b e Hfold; simpl in Hfold.
  - discriminate.
  - destruct (f b a) as [b' | e'] eqn:Hstep; simpl in Hfold.
    + eapply IH. exact Hfold.
    + injection Hfold as <-. eapply Hf. exact Hstep.
Qed.

Lemma invert_variable_error (s : Sieve.t F) (zi : Z) (y : list Z) (i : Z)
      (e : exn) :
  Sieve.invert_variable s zi y i = Err e -> e = IndexError.
Proof.
  unfold Sieve.invert_variable. apply foldM_error.
  intros b [k layer] e' Hstep.
  destruct (py.index (SieveLayer.remainders layer) i) as [r | e1] eqn:Hr;
    simpl in Hstep.
  - destruct (py.index y k) as [yk | e2] eqn:Hy; simpl in Hstep.
    + eapply index_error. exact Hstep.
    + injection Hstep as <-. eapply index_error. exact Hy.
  - injection Hstep as <-. eapply index_error. exact Hr.
Qed.

Lemma update_length {A : Type} (f : A -> A) :
  forall (l : list A) (j : nat), length (np.update l j f) = length l.
Proof.
  induction l as [ | a l IH ]; intros j; [ reflexivity | ].
  destruct j; simpl; [ reflexivity | rewrite IH; reflexivity ].
Qed.

Lemma update_nth {A : Type} (f : A -> A) (d : A) :
  forall (l : list A) (j k : nat),
    (j < length l)%nat ->
    nth k (np.update l j f) d
    = if Nat.eqb k j then f (nth k l d) else nth k l d.
Proof.
  induction l as [ | a l IH ]; intros j k Hj; simpl in Hj; [ lia | ].
  destruct j, k; simpl; try reflexivity.
  apply IH. lia.
Qed.

(** A value outside [-100 .. 99] is not a valid index of the scores. *)
Lemma add_at_out_of_range (p : list F) (v d : Z) :
  length p = 100%nat -> v < -100 \/ 100 <= v ->
  npf.add_at p v d = Err IndexError.
Proof.
  intros Hp Hv. unfold npf.add_at, py.len. rewrite Hp.
  change (Z.of_nat 100) with 100.
  destruct (v <? 0) eqn:Hneg.
  - apply Z.ltb_lt in Hneg.
    assert (Hlow : (v + 100 <? 0) = true) by (apply Z.ltb_lt; lia).
    rewrite Hlow. reflexivity.
  - apply Z.ltb_ge in Hneg.
    assert (Hhigh : (100 <=? v) = true) by (apply Z.leb_le; lia).
    rewrite Hhigh, orb_true_r. reflexivity.
Qed.

Lemma add_at_error (p : list F) (v d : Z) (e : exn) :
  npf.add_at p v d = Err e -> e = IndexError.
Proof.
  unfold npf.add_at. destruct (_ || _); [ | discriminate ].
  intros Heq. injection Heq as <-. reflexivity.
Qed.

Lemma add_at_length (p p' : list F) (v d : Z) :
  npf.add_at p v d = Ok p' -> length p' = length p.
Proof.
  unfold npf.add_at. destruct (_ || _); [ discriminate | ].
  intros Heq. injection Heq as <-. apply update_length.
Qed.

(** A value in [-100 .. 99] adds the count, as a float, at its own index,
    counted from the end when it is negative. *)
Lemma add_at_wrapped (p : list F) (v d : Z) :
  length p = 100%nat -> -100 <= v < 100 ->
  exists p', npf.add_at p v d = Ok p' /\
             length p' = 100%nat /\
             forall k, (k < 100)%nat ->
               nth k p' fzero
               = if wraps_to v (Z.of_nat k)
                 then fadd (nth k p fzero) (ffloat d) else nth k p fzero.
Proof.
  intros Hp Hv. unfold npf.add_at, py.len, wraps_to. rewrite Hp.
  change (Z.of_nat 100) with 100.
  destruct (v <? 0) eqn:Hneg.
  - apply Z.ltb_lt in Hneg.
    assert (Hlow : (v + 100 <? 0) = false) by (apply Z.ltb_ge; lia).
    assert (Hhigh : (100 <=? v + 100) = false) by (apply Z.leb_gt; lia).
    rewrite Hlow, Hhigh. cbn [orb].
    eexists. split; [ reflexivity | split ].
    + rewrite update_length. exact Hp.
    + intros k Hk. rewrite update_nth by lia.
      assert (Hne : (v =? Z.of_nat k) = false) by (apply Z.eqb_neq; lia).
      rewrite Hne. cbn [orb].
      destruct (Nat.eqb k (Z.to_nat (v + 100))) eqn:Hkv.
      * apply Nat.eqb_eq in Hkv.
        assert (He : (v =? Z.of_nat k - 100) = true) by (apply Z.eqb_eq; lia).
        rewrite He. reflexivity.
      * apply Nat.eqb_neq in Hkv.
        assert (He : (v =? Z.of_nat k - 100) = false)
          by (apply Z.eqb_neq; lia).
        rewrite He. reflexivity.
  - apply Z.ltb_ge in Hneg.
    assert (Hlow : (v <? 0) = false) by (apply Z.ltb_ge; lia).
    assert (Hhigh : (100 <=? v) = false) by (apply Z.leb_gt; lia).
    rewrite Hlow, Hhigh. cbn [orb].
    eexists. split; [ reflexivity | split ].
    + rewrite update_length. exact Hp.
    + intros k Hk. rewrite update_nth by lia.
      assert (Hne : (v =? Z.of_nat k - 100) = false)
        by (apply Z.eqb_neq; lia).
      rewrite Hne, orb_false_r.
      destruct (Nat.eqb k (Z.to_nat v)) eqn:Hkv.
      * apply Nat.eqb_eq in Hkv.
        assert (He : (v =? Z.of_nat k) = true) by (apply Z.eqb_eq; lia).
        rewrite He. reflexivity.
      * apply Nat.eqb_neq in Hkv.
        assert (He : (v =? Z.of_nat k) = false) by (apply Z.eqb_neq; lia).
        rewrite He. reflexivity.
Qed.

Lemma accumulate_error (s : Sieve.t F) (y : list Z) (i : Z) (p : list F)
      (entry : Z * Z) (e : exn) :
  Sieve.accumulate s y i p entry = Err e -> e = IndexError.
Proof.
  destruct entry as [xi nxi]. unfold Sieve.accumulate.
  destruct (Sieve.invert_variable s xi y i) as [v | e'] eqn:Hv; simpl.
  - apply add_at_error.
  - intros Heq. injection Heq as <-. eapply invert_variable_error.
    exact Hv.
Qed.

(** One reconstruction outside [-100 .. 99] makes the accumulation raise. *)
Lemma accumulate_raises (s : Sieve.t F) (y : list Z) (i xi nxi v : Z) :
  Sieve.invert_variable s xi y i = Ok v -> v < -100 \/ 100 <= v ->
  forall (pairs : list (Z * Z)) (p : list F),
    length p = 100%nat -> In (xi, nxi) pairs ->
    Sieve.foldM (Sieve.accumulate s y i) pairs p = Err IndexError.
Proof.
  intros Hv Hbad.
  induction pairs as [ | entry pairs IH ]; intros p Hp Hin;
    [ contradiction | ].
  cbn [Sieve.foldM].
  destruct (Sieve.accumulate s y i p entry) as [p' | e] eqn:Hstep.
  - cbn [bind]. destruct Hin as [Hhere | Hlater].
    + subst entry. unfold Sieve.accumulate in Hstep.
      rewrite Hv in Hstep. cbn [bind] in Hstep.
      rewrite add_at_out_of_range in Hstep by assumption. discriminate.
    + apply IH; [ | exact Hlater ].
      destruct entry as [xi' nxi']. unfold Sieve.accumulate in Hstep.
      destruct (Sieve.invert_variable s xi' y i); simpl in Hstep;
        [ | discriminate ].
      rewrite (add_at_length _ _ _ Hstep). exact Hp.
  - cbn [bind]. f_equal. eapply accumulate_error. exact Hstep.
Qed.

(** When all reconstructions are in [-100 .. 99], every position of the
    accumulator holds the float sum of the counts added there, in the
    order of the pairs. *)
Lemma accumulate_scores (s : Sieve.t F) (y : list Z) (i : Z) :
  forall (pairs : list (Z * Z)) (p : list F),
    length p = 100%nat ->
    (forall xi nxi, In (xi, nxi) pairs ->
       exists v, Sieve.invert_variable s xi y i = Ok v /\ -100 <= v < 100) ->
    exists p',
      Sieve.foldM (Sieve.accumulate s y i) pairs p = Ok p' /\
      length p' = 100%nat /\
      forall k, (k < 100)%nat ->
        nth k p' fzero
        = Sieve.float_tally s y i wraps_to pairs (Z.of_nat k)
                            (nth k p fzero).
Proof.
  induction pairs as [ | [xi nxi] pairs IH ]; intros p Hp Hall.
  - exists p. split; [ reflexivity | split; [ exact Hp | ] ].
    intros k _. reflexivity.
  - destruct (Hall xi nxi (or_introl eq_refl)) as [v [Hv Hrange]].
    destruct (@add_at_wrapped p v nxi Hp Hrange) as [p1 [Hadd [Hp1 Hnth1]]].
    assert (Hrest : forall xi' nxi', In (xi', nxi') pairs ->
              exists v', Sieve.invert_variable s xi' y i = Ok v'
                         /\ -100 <= v' < 100)
      by (intros xi' nxi' Hin; apply (Hall xi' nxi'); right; exact Hin).
    destruct (IH p1 Hp1 Hrest) as [p' [Hfold [Hp' Hnth']]].
    exists p'. split; [ | split; [ exact Hp' | ] ].
    + cbn [Sieve.foldM]. unfold Sieve.accumulate at 1.
      rewrite Hv. cbn [bind]. rewrite Hadd. cbn [bind]. exact Hfold.
    + intros k Hk. rewrite (Hnth' k Hk), (Hnth1 k Hk).
      unfold Sieve.float_tally. cbn [fold_left]. rewrite Hv. reflexivity.
Qed.

(** For a value in [0 .. 99] and reconstructions that are not negative,
    nothing wraps. *)
Lemma float_tally_in_range (s : Sieve.t F) (y : list Z) (i v : Z) :
  0 <= v < 100 ->
  forall (pairs : list (Z * Z)) (acc : F),
    (forall xi nxi, In (xi, nxi) pairs ->
       exists v', Sieve.invert_variable s xi y i = Ok v' /\ 0 <= v' < 100) ->
    Sieve.float_tally s y i wraps_to pairs v acc
    = Sieve.float_tally s y i Z.eqb pairs v acc.
Proof.
  intros Hv. unfold Sieve.float_tally.
  induction pairs as [ | [xi nxi] pairs IH ]; intros acc Hall;
    [ reflexivity | ].
  cbn [fold_left].
  destruct (Hall xi nxi (or_introl eq_refl)) as [v' [Hv' Hrange]].
  rewrite Hv'.
  assert (Hw : wraps_to v' v = (v' =? v)).
  { unfold wraps_to.
    assert (Hno : (v' =? v - 100) = false) by (apply Z.eqb_neq; lia).
    rewrite Hno. apply orb_false_r. }
  rewrite Hw.
  apply IH. intros xi' nxi' Hin. apply (Hall xi' nxi'). right. exact Hin.
Qed.

Lemma nth_range_map {A : Type} (g : Z -> A) (d : A) (n k : nat) :
  (k < n)%nat -> nth k (map g (py.range n)) d = g (Z.of_nat k).
Proof.
  intros Hk. apply nth_error_nth. apply map_nth_error.
  unfold py.range. apply map_nth_error.
  rewrite (nth_error_nth' _ 0%nat) by (rewrite length_seq; exact Hk).
  rewrite seq_nth by exact Hk. reflexivity.
Qed.

(** An array of length 100 is the list of its entries. *)
Lemma array_of_entries (p : list F) (g : Z -> F) :
  length p = 100%nat ->
  (forall k, (k < 100)%nat -> nth k p fzero = g (Z.of_nat k)) ->
  p = map g (py.range 100).
Proof.
  intros Hp Hnth. apply (nth_ext p (map g (py.range 100)) fzero fzero).
  - rewrite length_map, range_length. exact Hp.
  - intros k Hk. rewrite Hp in Hk. rewrite (Hnth k Hk).
    rewrite nth_range_map by exact Hk. reflexivity.
Qed.

(** The prediction for a row whose reconstructions all lie in
    [-100 .. 99] is the [argmax] of the scores with wrapping. *)
Lemma predict_row_wrapped (s : Sieve.t F) (y : list Z) (i : Z)
      (stats : list Z) :
  py.index (Sieve.x_stats s) i = Ok stats ->
  (forall xi nxi, In (xi, nxi) (py.enumerate stats) ->
     exists v, Sieve.invert_variable s xi y i = Ok v /\ -100 <= v < 100) ->
  Sieve.predict_row s y i = npf.argmax (wrapped_scores s y i stats).
Proof.
  intros Hstats Hall. unfold Sieve.predict_row. rewrite Hstats. cbn [bind].
  destruct (@accumulate_scores s y i (py.enumerate stats) (npf.zeros1 100)
              (repeat_length fzero 100%nat) Hall)
    as [p' [Hfold [Hlen Hnth]]].
  rewrite Hfold. cbn [bind]. f_equal. unfold wrapped_scores.
  apply array_of_entries; [ exact Hlen | ].
  intros k Hk. rewrite (Hnth k Hk). unfold npf.zeros1.
  rewrite nth_repeat. reflexivity.
Qed.

(** The prediction for a row whose reconstructions all lie in [0 .. 99]
    is the [argmax] of the scores. *)
Lemma predict_row_scores (s : Sieve.t F) (y : list Z) (i : Z)
      (stats : list Z) :
  py.index (Sieve.x_stats s) i = Ok stats ->
  (forall xi nxi, In (xi, nxi) (py.enumerate stats) ->
     exists v, Sieve.invert_variable s xi y i = Ok v /\ 0 <= v < 100) ->
  Sieve.predict_row s y i = npf.argmax (Sieve.scores s y i stats).
Proof.
  intros Hstats Hall. rewrite (@predict_row_wrapped s y i stats Hstats).
  - f_equal. unfold wrapped_scores, Sieve.scores.
    apply map_ext_in. intros v Hv. unfold py.range in Hv.
    apply in_map_iff in Hv. destruct Hv as [k [<- Hk]]. apply in_seq in Hk.
    apply float_tally_in_range; [ lia | exact Hall ].
  - intros xi nxi Hin. destruct (Hall xi nxi Hin) as [v [Hv Hrange]].
    exists v. split; [ exact Hv | lia ].
Qed.

Lemma scores_length (s : Sieve.t F) (y : list Z) (i : Z) (stats : list Z) :
  length (Sieve.scores s y i stats) = 100%nat /\
  length (wrapped_scores s y i stats) = 100%nat.
Proof.
  unfold Sieve.scores, wrapped_scores.
  rewrite !length_map, range_length. split; reflexivity.
Qed.

(** The float [argmax] of a non-empty array returns. *)
Lemma float_argmax_returns (a : list F) :
  a <> [] -> exists j, npf.argmax a = Ok j.
Proof.
  intros Hne. destruct a as [ | v a ]; [ contradiction | ].
  cbn [npf.argmax]. destruct (npf.isnan v); eexists; reflexivity.
Qed.

End Prediction.

(* ===================================================================== *)
(** ** Counts that add up without rounding *)
(* ===================================================================== *)

Section ExactCounts.
Context {F : Type} `{Scalar F}.
Variable bound : Z.
Hypothesis Hexact : exact_counts bound.

Lemma total_cons (n : Z) (l : list Z) : total (n :: l) = n + total l.
Proof. reflexivity. Qed.

Lemma total_nonneg (l : list Z) :
  Forall (fun n => 0 <= n) l -> 0 <= total l.
Proof.
  unfold total. induction 1 as [ | n l Hn _ IH ]; simpl; lia.
Qed.

Lemma count_bounds (s : Sieve.t F) (y : list Z) (i : Z)
      (hits : Z -> Z -> bool) (v : Z) :
  forall pairs,
    Forall (fun n => 0 <= n) (map snd pairs) ->
    0 <= hit_count s y i hits pairs v <= total (map snd pairs).
Proof.
  induction pairs as [ | [xi nxi] pairs IH ]; intros Hpos.
  - cbn. lia.
  - cbn [map snd] in Hpos. inversion Hpos as [ | n l Hn Hrest ]; subst.
    specialize (IH Hrest).
    cbn [hit_count fold_right map snd]. fold (hit_count s y i hits pairs v).
    rewrite total_cons.
    destruct (Sieve.invert_variable s xi y i) as [v' | e];
      [ destruct (hits v' v) | ]; lia.
Qed.

(** Counts that are not negative and stay within the bound add up as
    floats to the float of their integer sum. *)
Lemma float_tally_exact (s : Sieve.t F) (y : list Z) (i : Z)
      (hits : Z -> Z -> bool) (v : Z) :
  forall (pairs : list (Z * Z)) (a : Z),
    Forall (fun n => 0 <= n) (map snd pairs) ->
    0 <= a -> a + total (map snd pairs) <= bound ->
    Sieve.float_tally s y i hits pairs v (ffloat a)
    = ffloat (a + hit_count s y i hits pairs v).
Proof.
  pose proof Hexact as [_ [Hadd _]].
  induction pairs as [ | [xi nxi] pairs IH ]; intros a Hpos Ha Hsum.
  - cbn. rewrite Z.add_0_r. reflexivity.
  - cbn [map snd] in Hpos, Hsum.
    inversion Hpos as [ | n l Hn Hrest ]; subst.
    pose proof (@total_nonneg (map snd pairs) Hrest) as Htotal.
    rewrite total_cons in Hsum.
    unfold Sieve.float_tally in *. cbn [fold_left].
    cbn [hit_count fold_right]. fold (hit_count s y i hits pairs v).
    destruct (Sieve.invert_variable s xi y i) as [v' | e].
    + destruct (hits v' v).
      * rewrite Hadd by lia. rewrite IH by (try assumption; lia).
        f_equal. lia.
      * apply IH; try assumption; lia.
    + apply IH; try assumption; lia.
Qed.

Lemma enumerate_snd {A : Type} (l : list A) : map snd (py.enumerate l) = l.
Proof.
  unfold py.enumerate, py.range. generalize 0%nat.
  induction l as [ | a l IH ]; intros start; [ reflexivity | ].
  cbn [length seq map combine snd]. rewrite IH. reflexivity.
Qed.

(** The float scores are the floats of the integer counts. *)
Lemma scores_exact (s : Sieve.t F) (y : list Z) (i : Z)
      (hits : Z -> Z -> bool) (stats : list Z) :
  Forall (fun n => 0 <= n) stats -> total stats <= bound ->
  map (fun v => Sieve.float_tally s y i hits (py.enumerate stats) v fzero)
      (py.range 100)
  = map ffloat (map (hit_count s y i hits (py.enumerate stats)) (py.range 100))
  /\ Forall (fun z => 0 <= z <= bound)
            (map (hit_count s y i hits (py.enumerate stats)) (py.range 100)).
Proof.
  intros Hpos Hsum.
  assert (Hsnd : map snd (py.enumerate stats) = stats)
    by apply enumerate_snd.
  split.
  - rewrite map_map. apply map_ext. intros v.
    pose proof Hexact as [Hzero _]. rewrite <- Hzero.
    rewrite float_tally_exact; rewrite ?Hsnd; try assumption; try lia.
    reflexivity.
  - apply Forall_forall. intros z Hz. apply in_map_iff in Hz.
    destruct Hz as [v [<- _]].
    pose proof (@count_bounds s y i hits v (py.enumerate stats)) as Hb.
    rewrite Hsnd in Hb. specialize (Hb Hpos). lia.
Qed.

(** The scan of the float [argmax] over floats of counts finds the first
    largest count. *)
Lemma float_argmax_from_exact :
  forall (l pre : list Z) (bi : nat) (b : Z),
    Forall (fun z => 0 <= z <= bound) (pre ++ l) ->
    (bi < length pre)%nat -> nth bi pre 0 = b ->
    (forall k, (k < length pre)%nat -> nth k pre 0 <= b) ->
    (forall k, (k < bi)%nat -> nth k pre 0 < b) ->
    let j := npf.argmax_from bi (ffloat b) (length pre) (map ffloat l) in
    (j < length (pre ++ l))%nat /\
    (forall k, (k < length (pre ++ l))%nat ->
               nth k (pre ++ l) 0 <= nth j (pre ++ l) 0) /\
    (forall k, (k < j)%nat -> nth k (pre ++ l) 0 < nth j (pre ++ l) 0).
Proof.
  pose proof Hexact as [_ [_ Hle]].
  induction l as [ | v l IH ]; intros pre bi b Hrange Hbi Hb Hmax Hfirst.
  - cbn [map npf.argmax_from]. rewrite app_nil_r, Hb. auto.
  - cbn [map npf.argmax_from].
    assert (Hbrange : 0 <= b <= bound).
    { rewrite Forall_forall in Hrange. apply Hrange. apply in_or_app. left.
      rewrite <- Hb. apply nth_In. exact Hbi. }
    assert (Hvrange : 0 <= v <= bound).
    { rewrite Forall_forall in Hrange. apply Hrange. apply in_or_app. right.
      left. reflexivity. }
    assert (Hsplit : pre ++ v :: l = (pre ++ [v]) ++ l)
      by (rewrite <- app_assoc; reflexivity).
    rewrite Hsplit in *.
    replace (S (length pre)) with (length (pre ++ [v]))
      by (rewrite length_app; simpl; lia).
    assert (Hnth : forall k, (k < length pre)%nat ->
                             nth k (pre ++ [v]) 0 = nth k pre 0)
      by (intros k Hk; apply app_nth1; exact Hk).
    assert (Hv : nth (length pre) (pre ++ [v]) 0 = v)
      by (rewrite app_nth2, Nat.sub_diag by lia; reflexivity).
    assert (Hcases : forall k, (k < length (pre ++ [v]))%nat ->
                               (k < length pre)%nat \/ k = length pre)
      by (intros k; rewrite length_app; simpl; lia).
    rewrite (Hle v b Hvrange Hbrange).
    destruct (v <=? b) eqn:Hvb.
    + apply Z.leb_le in Hvb. apply IH.
      * exact Hrange.
      * rewrite length_app. simpl. lia.
      * rewrite Hnth by exact Hbi. exact Hb.
      * intros k Hk. destruct (Hcases k Hk) as [Hk' | ->].
        -- rewrite Hnth by exact Hk'. apply Hmax. exact Hk'.
        -- rewrite Hv. exact Hvb.
      * intros k Hk. rewrite Hnth by lia. apply Hfirst. exact Hk.
    + apply Z.leb_gt in Hvb.
      unfold npf.isnan. rewrite (Hle v v Hvrange Hvrange), Z.leb_refl.
      cbn [negb]. apply IH.
      * exact Hrange.
      * rewrite length_app. simpl. lia.
      * exact Hv.
      * intros k Hk. destruct (Hcases k Hk) as [Hk' | ->].
        -- rewrite Hnth by exact Hk'. specialize (Hmax k Hk'). lia.
        -- rewrite Hv. lia.
      * intros k Hk. rewrite Hnth by exact Hk. specialize (Hmax k Hk). lia.
Qed.

(** [np.argmax] of the floats of counts is the first index of the largest
    count. *)
Lemma float_argmax_exact (zs : list Z) (p : Z) :
  Forall (fun z => 0 <= z <= bound) zs ->
  npf.argmax (map ffloat zs) = Ok p ->
  0 <= p < Z.of_nat (length zs) /\
  (forall k, (k < length zs)%nat -> nth k zs 0 <= nth (Z.to_nat p) zs 0) /\
  (forall k, (k < Z.to_nat p)%nat -> nth k zs 0 < nth (Z.to_nat p) zs 0).
Proof.
  intros Hrange Hmax. destruct zs as [ | z zs ]; [ discriminate | ].
  cbn [map npf.argmax] in Hmax.
  assert (Hz : 0 <= z <= bound) by (inversion Hrange; assumption).
  pose proof Hexact as [_ [_ Hle]].
  unfold npf.isnan in Hmax. rewrite (Hle z z Hz Hz), Z.leb_refl in Hmax.
  cbn [negb] in Hmax. injection Hmax as <-. rewrite Nat2Z.id.
  destruct (@float_argmax_from_exact zs [z] 0%nat z Hrange)
    as [Hj [Hlargest Hfirst]].
  - simpl. lia.
  - reflexivity.
  - intros k Hk. simpl in Hk. destruct k; [ simpl; lia | lia ].
  - intros k Hk. lia.
  - change ([z] ++ zs) with (z :: zs) in *. change (length [z]) with 1%nat in *.
    split; [ lia | split; assumption ].
Qed.

(** Counting the exact hits is the tally. *)
Lemma hit_count_eqb (s : Sieve.t F) (y : list Z) (i : Z)
      (pairs : list (Z * Z)) (v : Z) :
  hit_count s y i Z.eqb pairs v = Sieve.tally s y i pairs v.
Proof. reflexivity. Qed.

Lemma hit_count_wraps (s : Sieve.t F) (y : list Z) (i : Z) (v : Z) :
  forall pairs,
    hit_count s y i wraps_to pairs v
    = Sieve.tally s y i pairs v + Sieve.tally s y i pairs (v - 100).
Proof.
  induction pairs as [ | [xi nxi] pairs IH ]; [ reflexivity | ].
  cbn [hit_count Sieve.tally fold_right].
  fold (hit_count s y i wraps_to pairs v).
  fold (Sieve.tally s y i pairs v). fold (Sieve.tally s y i pairs (v - 100)).
  rewrite IH. unfold wraps_to.
  destruct (Sieve.invert_variable s xi y i) as [v' | e]; [ | reflexivity ].
  destruct (Z.eqb_spec v' v); destruct (Z.eqb_spec v' (v - 100));
    cbn [orb]; lia.
Qed.

(** The [argmax] of float scores that did not round is the first position
    with the largest integer count. *)
Lemma argmax_of_counts (s : Sieve.t F) (y : list Z) (i : Z)
      (hits : Z -> Z -> bool) (stats : list Z) (score : Z -> Z) (p : Z) :
  Forall (fun n => 0 <= n) stats -> total stats <= bound ->
  (forall v, hit_count s y i hits (py.enumerate stats) v = score v) ->
  npf.argmax
    (map (fun v => Sieve.float_tally s y i hits (py.enumerate stats) v fzero)
         (py.range 100)) = Ok p ->
  Sieve.first_argmax 100 score p.
Proof.
  intros Hpos Hsum Hscore Hmax.
  destruct (@scores_exact s y i hits stats Hpos Hsum) as [Hfloats Hrange].
  rewrite Hfloats in Hmax.
  destruct (@float_argmax_exact _ p Hrange Hmax) as [Hp [Hlargest Hfirst]].
  rewrite length_map, range_length in Hp, Hlargest.
  assert (Hnth : forall k, (k < 100)%nat ->
            nth k (map (hit_count s y i hits (py.enumerate stats))
                       (py.range 100)) 0
            = score (Z.of_nat k)).
  { intros k Hk. rewrite nth_range_map by exact Hk. apply Hscore. }
  unfold Sieve.first_argmax. split; [ lia | split ].
  - intros v Hv. specialize (Hlargest (Z.to_nat v)).
    rewrite !Hnth, !Z2Nat.id in Hlargest by lia. apply Hlargest. lia.
  - intros v Hv. specialize (Hfirst (Z.to_nat v)).
    rewrite !Hnth, !Z2Nat.id in Hfirst by lia. apply Hfirst. lia.
Qed.

(** Without rounding, the [argmax] of the scores is the first value with
    the largest count. *)
Lemma argmax_scores_exact (s : Sieve.t F) (y : list Z) (i : Z)
      (stats : list Z) (p : Z) :
  Forall (fun n => 0 <= n) stats -> total stats <= bound ->
  npf.argmax (Sieve.scores s y i stats) = Ok p ->
  Sieve.first_argmax 100 (Sieve.vote s y i stats) p.
Proof.
  intros Hpos Hsum Hmax.
  apply (@argmax_of_counts s y i Z.eqb stats _ p Hpos Hsum); [ | exact Hmax ].
  intros v. apply hit_count_eqb.
Qed.

(** The same for the scores with wrapping. *)
Lemma argmax_wrapped_scores_exact (s : Sieve.t F) (y : list Z) (i : Z)
      (stats : list Z) (p : Z) :
  Forall (fun n => 0 <= n) stats -> total stats <= bound ->
  npf.argmax (wrapped_scores s y i stats) = Ok p ->
  Sieve.first_argmax 100 (wrapped_vote s y i stats) p.
Proof.
  intros Hpos Hsum Hmax.
  apply (@argmax_of_counts s y i wraps_to stats _ p Hpos Hsum);
    [ | exact Hmax ].
  intros v. apply hit_count_wraps.
Qed.

End ExactCounts.

(** Rational arithmetic never rounds. *)
Lemma Q_exact_counts (bound : Z) : @exact_counts Q Q_Scalar bound.
Proof.
  split; [ reflexivity | split ].
  - intros a b _ _ _. cbn. unfold Qplus, inject_Z. cbn.
    rewrite !Z.mul_1_r. reflexivity.
  - intros a b _ _. cbn. unfold Qle_bool, inject_Z. cbn.
    rewrite !Z.mul_1_r. reflexivity.
Qed.

Section PredictVariable.
Context {F : Type} `{Scalar F}.

Lemma accumulate_length (s : Sieve.t F) (y : list Z) (i : Z) :
  forall (pairs : list (Z * Z)) (p p' : list F),
    Sieve.foldM (Sieve.accumulate s y i) pairs p = Ok p' ->
    length p' = length p.
Proof.
  induction pairs as [ | [xi nxi] pairs IH ]; intros p p' Hfold;
    simpl in Hfold.
  - injection Hfold as <-. reflexivity.
  - destruct (Sieve.invert_variable s xi y i) as [v | e]; simpl in Hfold;
      [ | discriminate ].
    destruct (npf.add_at p v nxi) as [p1 | e] eqn:Hadd; simpl in Hfold;
      [ | discriminate ].
    rewrite (IH _ _ Hfold). eapply add_at_length. exact Hadd.
Qed.

(** [predict_variable] raises nothing but [IndexError] for a row, as long
    as the Remainder Models return. *)
Lemma predict_row_error (s : Sieve.t F) (y : list Z) (i : Z) (e : exn) :
  Sieve.predict_row s y i = Err e -> e = IndexError.
Proof.
  unfold Sieve.predict_row. intros Hrow.
  destruct (py.index (Sieve.x_stats s) i) as [stats | e1] eqn:Hstats;
    simpl in Hrow.
  - destruct (Sieve.foldM (Sieve.accumulate s y i) (py.enumerate stats)
                          (npf.zeros1 100)) as [p | e2] eqn:Hfold;
      simpl in Hrow.
    + apply accumulate_length in Hfold.
      destruct (@float_argmax_returns F _ p) as [j Hj].
      * intros ->. discriminate Hfold.
      * rewrite Hj in Hrow. discriminate Hrow.
    + injection Hrow as <-.
      eapply (@foldM_error _ _ (Sieve.accumulate s y i)); [ | exact Hfold ].
      intros b a e'. apply accumulate_error.
  - injection Hrow as <-. eapply index_error. exact Hstats.
Qed.

Lemma mapM_raises {A B : Type} (f : A -> result B) (a : A) :
  (forall a' e, f a' = Err e -> e = IndexError) ->
  f a = Err IndexError ->
  forall l, In a l -> mapM f l = Err IndexError.
Proof.
  intros Herr Ha. induction l as [ | a' l IH ]; intros Hin;
    [ contradiction | ].
  simpl. destruct (f a') as [b | e] eqn:Hfa'; simpl.
  - destruct Hin as [-> | Hin]; [ congruence | ].
    rewrite (IH Hin). reflexivity.
  - f_equal. eapply Herr. exact Hfa'.
Qed.

Lemma mapM_Forall2 {A B : Type} (f : A -> result B) (P : A -> B -> Prop) :
  forall l,
    (forall a, In a l -> exists b, f a = Ok b /\ P a b) ->
    exists bs, mapM f l = Ok bs /\ Forall2 P l bs.
Proof.
  induction l as [ | a l IH ]; intros Hall.
  - exists []. split; [ reflexivity | constructor ].
  - destruct (Hall a (or_introl eq_refl)) as [b [Hb HP]].
    destruct IH as [bs [Hbs HPs]].
    { intros a' Hin. apply Hall. right. exact Hin. }
    exists (b :: bs). split; [ | constructor; assumption ].
    simpl. rewrite Hb. simpl. rewrite Hbs. reflexivity.
Qed.

Lemma Forall2_impl_in {A B : Type} (P Q : A -> B -> Prop) :
  forall (l : list A) (l' : list B),
    (forall a b, In a l -> P a b -> Q a b) ->
    Forall2 P l l' -> Forall2 Q l l'.
Proof.
  intros l l' Himp Hall. induction Hall as [ | a b l l' Hab _ IH ];
    constructor.
  - apply Himp; [ left; reflexivity | exact Hab ].
  - apply IH. intros a' b' Hin. apply Himp. right. exact Hin.
Qed.

End PredictVariable.

(** C7, as stated, fails: a reconstructed value of [100] is not discarded,
    [predict_variable] raises [IndexError]; and a reconstructed value of
    [-1] is not discarded either, it is counted at index [99] and decides
    the prediction. *)
Lemma predict_variable_does_not_discard :
  Sieve.invert_variable (Example.sieve_shift 100) 0 [0] 0 = Ok 100 /\
  Sieve.predict_variable (Example.sieve_shift 100) [[0]] 0 = Err IndexError /\
  Sieve.invert_variable (Example.sieve_shift (-1)) 0 [0] 0 = Ok (-1) /\
  Sieve.predict_variable (Example.sieve_shift (-1)) [[0]] 0
  = Ok (np.Arr1 [99]).
Proof. repeat split; reflexivity. Qed.

(** C7, amended.  [predict_variable] accumulates the counts of [x_stats[i]]
    in an array of 100 floats.  A reconstructed value below [-100] or above
    [99] is not discarded: [predict_variable] raises [IndexError].  When
    all reconstructed values lie in [0 .. 99], it returns for every row of
    labels the [argmax] of the scores, the score of a value being the
    float sum of the counts of the codes reconstructed as it.  When the
    counts are not negative and their total can be added without rounding
    (for 64-bit floats, up to [2 ^ 53]), that is the first value with the
    largest accumulated count; beyond it, the sums may round and another
    value may win. *)
Theorem predict_variable_fixed_accumulator
        {F : Type} `{Scalar F} (s : Sieve.t F) (ys : list (list Z)) (i : Z)
        (stats : list Z) :
  py.index (Sieve.x_stats s) i = Ok stats ->
  (forall y xi nxi v,
      In y ys -> In (xi, nxi) (py.enumerate stats) ->
      Sieve.invert_variable s xi y i = Ok v -> v < -100 \/ 100 <= v ->
      Sieve.predict_variable s ys i = Err IndexError) /\
  ((forall y xi nxi,
       In y ys -> In (xi, nxi) (py.enumerate stats) ->
       exists v, Sieve.invert_variable s xi y i = Ok v /\ 0 <= v < 100) ->
   exists preds,
     Sieve.predict_variable s ys i = Ok (np.Arr1 preds) /\
     Forall2 (fun y p => npf.argmax (Sieve.scores s y i stats) = Ok p)
             ys preds /\
     (forall bound,
        exact_counts bound ->
        Forall (fun n => 0 <= n) stats -> total stats <= bound ->
        Forall2 (fun y p => Sieve.first_argmax 100 (Sieve.vote s y i stats) p)
                ys preds)).
Proof.
  intros Hstats. split.
  - intros y xi nxi v Hy Hin Hv Hbad. unfold Sieve.predict_variable.
    rewrite (@mapM_raises _ _ (fun y => Sieve.predict_row s y i) y).
    + reflexivity.
    + intros y' e. apply predict_row_error.
    + unfold Sieve.predict_row. rewrite Hstats. cbn [bind].
      rewrite (@accumulate_raises F _ s y i xi nxi v Hv Hbad
                 (py.enumerate stats) (npf.zeros1 100)
                 (repeat_length fzero 100%nat) Hin).
      reflexivity.
    + exact Hy.
  - intros Hall. unfold Sieve.predict_variable.
    destruct (@mapM_Forall2 _ _ (fun y => Sieve.predict_row s y i)
                (fun y p => npf.argmax (Sieve.scores s y i stats) = Ok p)
                ys) as [preds [Hpreds Hscores]].
    + intros y Hy.
      assert (Hrow : Sieve.predict_row s y i
                     = npf.argmax (Sieve.scores s y i stats)).
      { apply predict_row_scores; [ exact Hstats | ].
        intros xi nxi Hin. apply (Hall y xi nxi Hy Hin). }
      destruct (@float_argmax_returns F _ (Sieve.scores s y i stats))
        as [p Hp].
      * intros Hnil. pose proof (scores_length s y i stats) as [Hlen _].
        rewrite Hnil in Hlen. discriminate Hlen.
      * exists p. rewrite Hrow. split; exact Hp.
    + exists preds. rewrite Hpreds.
      split; [ reflexivity | split; [ exact Hscores | ] ].
      intros bound Hexact Hpos Hsum.
      eapply Forall2_impl_in; [ | exact Hscores ].
      intros y p _ Hp. cbn beta in Hp.
      eapply argmax_scores_exact;
        [ exact Hexact | exact Hpos | exact Hsum | exact Hp ].
Qed.

Lemma predict_variable_fixed_accumulator_witness :
  exists preds,
    Sieve.predict_variable (Example.sieve_shift 5) [[0]] 0
    = Ok (np.Arr1 preds) /\
    Forall2 (fun y p =>
               npf.argmax (Sieve.scores (Example.sieve_shift 5) y 0 [3])
               = Ok p)
            [[0]] preds /\
    Forall2 (fun y p =>
               Sieve.first_argmax 100
                 (Sieve.vote (Example.sieve_shift 5) y 0 [3]) p)
            [[0]] preds.
Proof.
  destruct (@predict_variable_fixed_accumulator Q Q_Scalar
              (Example.sieve_shift 5) [[0]] 0 [3] eq_refl) as [_ Hin].
  destruct Hin as [preds [Hpreds [Hscores Hcounts]]].
  - intros y xi nxi Hy Hpair.
    destruct Hy as [<- | []]. destruct Hpair as [Hpair | []].
    injection Hpair as <- <-. exists 5. split; [ reflexivity | lia ].
  - exists preds. split; [ exact Hpreds | split; [ exact Hscores | ] ].
    apply (Hcounts (2 ^ 53)).
    + apply Q_exact_counts.
    + constructor; [ lia | constructor ].
    + vm_compute. discriminate.
Defined.

(* ===================================================================== *)
(** ** The growth loop *)
(* ===================================================================== *)

Section Growth.
Context {F : Type} `{Scalar F} `{Collaborators F} `{Numpy}.

(** One turn of the [while] loop, as the source reads. *)
Lemma fit_loop_unfold (s : Sieve.t F) (x : np.matrix) (n nv : nat) :
  Sieve.fit_loop s x n nv
  = if py.len (Sieve.layers s) <? Sieve.max_layers s then
      match SieveLayer.init x (Sieve.kw s) with
      | Err e => Sieve.LoopRaise e s
      | Ok next_layer =>
          match SieveLayer.transform next_layer (np.Arr2 x) with
          | Err e => Sieve.LoopRaise e s
          | Ok x' =>
              match Sieve.accepts next_layer n with
              | Err e => Sieve.LoopRaise e s
              | Ok false => Sieve.LoopEnd s x' Sieve.CONVERGED
              | Ok true =>
                  match Sieve.count_values x' nv with
                  | Err e =>
                      Sieve.LoopRaise e (Sieve.append s next_layer)
                  | Ok stats =>
                      Sieve.fit_loop
                        (Sieve.set_x_stats (Sieve.append s next_layer)
                                           stats)
                        x' n nv
                  end
              end
          end
      end
    else Sieve.LoopEnd s x Sieve.MAX_LAYERS_REACHED.
Proof.
  funelim (Sieve.fit_loop s x n nv); rewrite_branches; reflexivity.
Qed.

(** The loop only appends to the layer sequence. *)
Lemma fit_loop_extends (s : Sieve.t F) (x : np.matrix) (n nv : nat) :
  exists new,
    Sieve.layers (Sieve.final_state (Sieve.fit_loop s x n nv))
    = Sieve.layers s ++ new.
Proof.
  funelim (Sieve.fit_loop s x n nv);
    try (exists []; rewrite app_nil_r; reflexivity);
    try (exists [next_layer]; reflexivity).
  match goal with
  | IH : exists _, _ |- _ => destruct IH as [new Hnew]
  end.
  exists (next_layer :: new). rewrite Hnew.
  cbn [Sieve.layers Sieve.set_x_stats Sieve.append].
  rewrite <- app_assoc. reflexivity.
Qed.

(** The loop keeps the configuration. *)
Lemma fit_loop_max_layers (s : Sieve.t F) (x : np.matrix) (n nv : nat) :
  Sieve.max_layers (Sieve.final_state (Sieve.fit_loop s x n nv))
  = Sieve.max_layers s.
Proof.
  funelim (Sieve.fit_loop s x n nv); try reflexivity.
  match goal with
  | IH : Sieve.max_layers _ = _ |- _ => rewrite IH
  end.
  reflexivity.
Qed.

(** The number of layers when the loop ends. *)
Lemma fit_loop_count (s : Sieve.t F) (x : np.matrix) (n nv : nat) :
  py.len (Sieve.layers s) <= Sieve.max_layers s ->
  forall s' xf why,
    Sieve.fit_loop s x n nv = Sieve.LoopEnd s' xf why ->
    match why with
    | Sieve.CONVERGED =>
        py.len (Sieve.layers s') < Sieve.max_layers s
    | Sieve.MAX_LAYERS_REACHED =>
        py.len (Sieve.layers s') = Sieve.max_layers s
    end.
Proof.
  funelim (Sieve.fit_loop s x n nv); intros Hle s' xf why Hend;
    try discriminate Hend;
    repeat match goal with
           | Hc : (_ <? _) = true |- _ => apply Z.ltb_lt in Hc
           | Hc : (_ <? _) = false |- _ => apply Z.ltb_ge in Hc
           end;
    try (injection Hend as <- <- <-; lia).
  match goal with
  | IH : _ -> forall _ _ _, _ -> _ |- _ => apply IH in Hend
  end.
  - exact Hend.
  - unfold py.len in *.
    cbn [Sieve.layers Sieve.set_x_stats Sieve.append Sieve.max_layers].
    rewrite length_app. cbn [length]. lia.
Qed.

(** The loop assigns nothing but [layers] and [x_stats]. *)
Lemma fit_loop_frame (s : Sieve.t F) (x : np.matrix) (n nv : nat) :
  Sieve.kw (Sieve.final_state (Sieve.fit_loop s x n nv)) = Sieve.kw s /\
  Sieve.n_variables (Sieve.final_state (Sieve.fit_loop s x n nv))
  = Sieve.n_variables s.
Proof.
  funelim (Sieve.fit_loop s x n nv); try (split; reflexivity).
  match goal with
  | IH : _ /\ _ |- _ => destruct IH as [IHkw IHn]
  end.
  rewrite IHkw, IHn. split; reflexivity.
Qed.

End Growth.

Section GrowthFacts.
Context {F : Type} `{Scalar F} `{Collaborators F} `{Numpy}.

Lemma state_of_fit (s : Sieve.t F) (x : np.ndarray) :
  Sieve.state_of (Sieve.fit s x) = Sieve.final_state (Sieve.fit_run s x).
Proof. unfold Sieve.fit. destruct (Sieve.fit_run s x); reflexivity. Qed.

Lemma candidates_step (kw : kwargs) (k : nat) (x x' : np.matrix)
      (c : SieveLayer.t F) (rest : list (SieveLayer.t F * np.matrix)) :
  SieveLayer.init x kw = Ok c ->
  SieveLayer.transform c (np.Arr2 x) = Ok x' ->
  Sieve.candidates kw k x' = Ok rest ->
  Sieve.candidates kw (S k) x = Ok ((c, x') :: rest).
Proof.
  intros Hinit Ht Hrest. cbn [Sieve.candidates].
  rewrite Hinit. cbn [bind]. rewrite Ht. cbn [bind]. rewrite Hrest.
  reflexivity.
Qed.

Lemma candidates_inv (kw : kwargs) (k : nat) (x x' : np.matrix)
      (c : SieveLayer.t F) (rest : list (SieveLayer.t F * np.matrix)) :
  Sieve.candidates kw (S k) x = Ok ((c, x') :: rest) ->
  SieveLayer.init x kw = Ok c /\
  SieveLayer.transform c (np.Arr2 x) = Ok x' /\
  Sieve.candidates kw k x' = Ok rest.
Proof.
  cbn [Sieve.candidates]. intros Hc.
  apply bind_Ok in Hc. destruct Hc as [c0 [Hinit Hc]].
  apply bind_Ok in Hc. destruct Hc as [x0 [Ht Hc]].
  apply bind_Ok in Hc. destruct Hc as [rest0 [Hrest Hc]].
  injection Hc as Hc0 Hx0 Hrest0. subst c0 x0 rest0. auto.
Qed.

Lemma data_after_cons (c : SieveLayer.t F) (x x' : np.matrix)
      (turns : list (SieveLayer.t F * np.matrix)) :
  Sieve.data_after ((c, x') :: turns) x = Sieve.data_after turns x'.
Proof.
  unfold Sieve.data_after. cbn [map snd]. apply last_cons_default.
Qed.

(** The outputs of the candidates are the outputs of the layers, each
    applied to the output of the one before. *)
Lemma candidates_outputs (kw : kwargs) :
  forall (turns : list (SieveLayer.t F * np.matrix)) (x : np.matrix),
    Sieve.candidates kw (length turns) x = Ok turns ->
    layer_outputs (map fst turns) (np.Arr2 x) = Ok (map snd turns).
Proof.
  induction turns as [ | [c x'] turns IH ]; intros x Hc; [ reflexivity | ].
  cbn [length] in Hc. apply candidates_inv in Hc.
  destruct Hc as [_ [Ht Hrest]].
  cbn [map fst snd layer_outputs]. rewrite Ht. cbn [bind].
  rewrite (IH x' Hrest). reflexivity.
Qed.

(** What a run of the loop that ends has done: it has built candidates in
    turn, each on the output of the one before, accepted and appended
    them all, and counted the values of the last output; then either the
    loop test failed, or one more candidate was built on the last output
    and rejected. *)
Lemma fit_loop_trace (s : Sieve.t F) (x : np.matrix) (n nv : nat) :
  forall s' xf why,
    Sieve.fit_loop s x n nv = Sieve.LoopEnd s' xf why ->
    exists turns,
      Sieve.candidates (Sieve.kw s) (length turns) x = Ok turns /\
      Sieve.layers s' = Sieve.layers s ++ map fst turns /\
      Forall (fun t => Sieve.accepts (fst t) n = Ok true) turns /\
      (turns = [] -> Sieve.x_stats s' = Sieve.x_stats s) /\
      (turns <> [] ->
       Sieve.count_values (Sieve.data_after turns x) nv
       = Ok (Sieve.x_stats s')) /\
      match why with
      | Sieve.MAX_LAYERS_REACHED =>
          Sieve.max_layers s <= py.len (Sieve.layers s') /\
          xf = Sieve.data_after turns x
      | Sieve.CONVERGED =>
          py.len (Sieve.layers s') < Sieve.max_layers s /\
          exists c,
            SieveLayer.init (Sieve.data_after turns x) (Sieve.kw s) = Ok c /\
            SieveLayer.transform c (np.Arr2 (Sieve.data_after turns x))
            = Ok xf /\
            Sieve.accepts c n = Ok false
      end.
Proof.
  funelim (Sieve.fit_loop s x n nv); intros s' xf why Hend;
    try discriminate Hend;
    repeat match goal with
           | Hc : (_ <? _) = true |- _ => apply Z.ltb_lt in Hc
           | Hc : (_ <? _) = false |- _ => apply Z.ltb_ge in Hc
           end.
  - injection Hend as <- <- <-. exists [].
    cbn [length Sieve.candidates map]. rewrite app_nil_r.
    repeat split; try reflexivity; try assumption; try constructor;
      try (apply Z.ltb_ge; assumption); try (apply Z.ltb_lt; assumption).
    intros Hne. contradiction Hne. reflexivity.
  - injection Hend as <- <- <-. exists [].
    cbn [length Sieve.candidates map]. rewrite app_nil_r.
    repeat split; try reflexivity; try assumption; try constructor;
      try (apply Z.ltb_ge; assumption); try (apply Z.ltb_lt; assumption).
    + intros Hne. contradiction Hne. reflexivity.
    + exists next_layer. unfold Sieve.data_after. cbn [map last]. auto.
  - match goal with
    | IH : forall _ _ _, _ -> _ |- _ =>
        destruct (IH s' xf why Hend)
          as [turns [Hc [Hlayers [Hall [Hsame [Hstats Hwhy]]]]]]
    end.
    cbn [Sieve.kw Sieve.layers Sieve.max_layers Sieve.x_stats
         Sieve.set_x_stats Sieve.append] in *.
    exists ((next_layer, x') :: turns).
    rewrite data_after_cons. cbn [length map fst].
    split; [ apply candidates_step; assumption | ].
    split; [ rewrite Hlayers, <- app_assoc; reflexivity | ].
    split; [ constructor; assumption | ].
    split; [ discriminate | ].
    split; [ | exact Hwhy ].
    intros _. destruct turns as [ | t turns ].
    + rewrite (Hsame eq_refl). unfold Sieve.data_after. cbn [map last].
      assumption.
    + apply Hstats. discriminate.
Qed.

(** A run whose first turns build candidates that are accepted and
    counted goes on, after them, from the output of the last one. *)
Lemma fit_loop_prefix (n nv : nat) :
  forall (turns : list (SieveLayer.t F * np.matrix))
         (s : Sieve.t F) (x : np.matrix),
    Sieve.candidates (Sieve.kw s) (length turns) x = Ok turns ->
    Forall (fun t => Sieve.accepts (fst t) n = Ok true /\
                     exists stats, Sieve.count_values (snd t) nv = Ok stats)
           turns ->
    py.len (Sieve.layers s) + py.len turns <= Sieve.max_layers s ->
    exists sk,
      Sieve.fit_loop s x n nv
      = Sieve.fit_loop sk (Sieve.data_after turns x) n nv /\
      Sieve.layers sk = Sieve.layers s ++ map fst turns /\
      Sieve.max_layers sk = Sieve.max_layers s /\
      Sieve.kw sk = Sieve.kw s.
Proof.
  induction turns as [ | [c x1] turns IH ]; intros s x Hc Hall Hroom.
  - exists s. cbn [map]. rewrite app_nil_r. auto.
  - cbn [length] in Hc. apply candidates_inv in Hc.
    destruct Hc as [Hinit [Ht Hrest]].
    inversion Hall as [ | t l [Hacc [stats Hstats]] Hall' ]; subst.
    cbn [fst snd] in Hacc, Hstats.
    unfold py.len in Hroom. cbn [length] in Hroom.
    destruct (IH (Sieve.set_x_stats (Sieve.append s c) stats) x1)
      as [sk [Hrun [Hlayers [Hmax Hkw]]]].
    + exact Hrest.
    + exact Hall'.
    + unfold py.len.
      cbn [Sieve.layers Sieve.max_layers Sieve.set_x_stats Sieve.append].
      rewrite length_app. cbn [length]. lia.
    + cbn [Sieve.kw Sieve.layers Sieve.max_layers Sieve.set_x_stats
           Sieve.append] in *.
      exists sk. rewrite data_after_cons. cbn [map fst].
      split; [ | split; [ rewrite Hlayers, <- app_assoc; reflexivity
                        | split; assumption ] ].
      rewrite fit_loop_unfold.
      assert (Hlt : (py.len (Sieve.layers s) <? Sieve.max_layers s) = true)
        by (apply Z.ltb_lt; unfold py.len; lia).
      rewrite Hlt, Hinit, Ht, Hacc, Hstats. exact Hrun.
Qed.

End GrowthFacts.

(** C2.  In every turn of the growth loop of [Sieve.fit] on a matrix of
    [n_samples] rows, the candidate layer is in the layer sequence
    afterwards, right after the layers appended before it, if and only if
    [candidate.corex.tc - candidate.lb > 1 / n_samples].  The turn is
    reached when the candidates before it were built in turn, each on the
    output of the one before, accepted and counted, and there is room for
    one more layer.  When the inequality fails, [fit] returns with the
    layers appended before and without the candidate: nothing more is
    built. *)
Theorem fit_appends_iff_accepted
        {F : Type} `{Scalar F} `{Collaborators F} `{Numpy}
        (s : Sieve.t F) (m : np.matrix)
        (turns : list (SieveLayer.t F * np.matrix))
        (candidate : SieveLayer.t F) (x' : np.matrix) :
  Sieve.candidates (Sieve.kw s) (length turns) m = Ok turns ->
  Forall (fun t =>
            Sieve.accepts (fst t) (np.nrows m) = Ok true /\
            exists stats,
              Sieve.count_values (snd t) (np.ncols m) = Ok stats)
         turns ->
  py.len (Sieve.layers s) + py.len turns < Sieve.max_layers s ->
  SieveLayer.init (Sieve.data_after turns m) (Sieve.kw s) = Ok candidate ->
  SieveLayer.transform candidate (np.Arr2 (Sieve.data_after turns m))
  = Ok x' ->
  np.nrows m <> 0%nat ->
  let accepted :=
    fltb (frecip (Pos.of_nat (np.nrows m)))
         (fsub (Corex.tc (SieveLayer.corex candidate))
               (SieveLayer.lb candidate)) in
  let s' := Sieve.state_of (Sieve.fit s (np.Arr2 m)) in
  (accepted = true <->
   exists rest,
     Sieve.layers s'
     = Sieve.layers s ++ map fst turns ++ candidate :: rest) /\
  (accepted = false ->
   Sieve.fit s (np.Arr2 m) = Sieve.Returned s' /\
   Sieve.layers s' = Sieve.layers s ++ map fst turns).
Proof.
  intros Hturns Hall Hroom Hinit Htransform Hn accepted s'.
  assert (Haccepts : Sieve.accepts candidate (np.nrows m) = Ok accepted)
    by (unfold Sieve.accepts; destruct (np.nrows m);
        [ contradiction | reflexivity ]).
  set (s0 := Sieve.set_n_variables s (np.ncols m)).
  set (x := Sieve.data_after turns m) in *.
  destruct (@fit_loop_prefix F _ _ _ (np.nrows m) (np.ncols m) turns s0 m
              Hturns Hall) as [sk [Hprefix [Hlayers [Hmax Hkw]]]].
  { cbn [s0 Sieve.layers Sieve.max_layers Sieve.set_n_variables]. lia. }
  fold x in Hprefix.
  cbn [s0 Sieve.layers Sieve.max_layers Sieve.kw Sieve.set_n_variables]
    in Hlayers, Hmax, Hkw.
  assert (Hrun : Sieve.fit_run s (np.Arr2 m)
                 = if accepted then
                     match Sieve.count_values x' (np.ncols m) with
                     | Err e =>
                         Sieve.LoopRaise e (Sieve.append sk candidate)
                     | Ok stats =>
                         Sieve.fit_loop
                           (Sieve.set_x_stats (Sieve.append sk candidate)
                                              stats)
                           x' (np.nrows m) (np.ncols m)
                     end
                   else Sieve.LoopEnd sk x' Sieve.CONVERGED).
  { unfold Sieve.fit_run. fold s0. rewrite Hprefix, fit_loop_unfold.
    assert (Hlt : (py.len (Sieve.layers sk) <? Sieve.max_layers sk) = true).
    { apply Z.ltb_lt. rewrite Hlayers, Hmax. unfold py.len in *.
      rewrite length_app, length_map. lia. }
    rewrite Hlt, Hkw, Hinit, Htransform, Haccepts. reflexivity. }
  assert (Hstate : s' = Sieve.final_state (Sieve.fit_run s (np.Arr2 m)))
    by (subst s'; apply state_of_fit).
  assert (Hfit : accepted = false ->
                 Sieve.fit s (np.Arr2 m) = Sieve.Returned sk /\ s' = sk).
  { intros Hno. rewrite Hstate. unfold Sieve.fit.
    rewrite Hrun, Hno. split; reflexivity. }
  clearbody accepted s'. clear Haccepts.
  destruct accepted.
  - split; [ | discriminate ].
    split; [ intros _ | reflexivity ].
    rewrite Hstate, Hrun.
    destruct (Sieve.count_values x' (np.ncols m)) as [stats | e].
    + destruct (fit_loop_extends
                  (Sieve.set_x_stats (Sieve.append sk candidate) stats)
                  x' (np.nrows m) (np.ncols m)) as [new Hnew].
      exists new. rewrite Hnew.
      cbn [Sieve.layers Sieve.set_x_stats Sieve.append].
      rewrite Hlayers, <- !app_assoc. reflexivity.
    + exists []. cbn [Sieve.final_state Sieve.layers Sieve.append].
      rewrite Hlayers, <- !app_assoc. reflexivity.
  - destruct (Hfit eq_refl) as [Hreturned Hsk].
    split; [ | intros _; rewrite Hsk; split; assumption ].
    split; [ discriminate | ].
    intros [rest Hrest]. rewrite Hsk, Hlayers in Hrest.
    apply app_inv_head in Hrest.
    apply (f_equal (@length _)) in Hrest.
    rewrite length_app in Hrest. cbn [length] in Hrest. lia.
Qed.

Lemma fit_appends_iff_accepted_witness :
  let s := Sieve.init Q 2 (Kwargs None) in
  let first :=
    SieveLayer.Build (Example.flat 0 2 1) [0; 0] [Example.keep 0 0] in
  let candidate :=
    SieveLayer.Build (Example.flat 0 2 1) [0; 0]
                     [Example.keep 0 0; Example.keep 0 0] in
  let s' :=
    Sieve.state_of
      (@Sieve.fit Q Q_Scalar (Example.collaborators 1 0 0) Example.numpy s
                  (np.Arr2 Example.x2)) in
  (negb (Qle_bool (1 - 0) (1 # 2)) = true <->
   exists rest,
     Sieve.layers s' = Sieve.layers s ++ [first] ++ candidate :: rest) /\
  (negb (Qle_bool (1 - 0) (1 # 2)) = false ->
   @Sieve.fit Q Q_Scalar (Example.collaborators 1 0 0) Example.numpy s
              (np.Arr2 Example.x2)
   = Sieve.Returned s' /\
   Sieve.layers s' = Sieve.layers s ++ [first]).
Proof.
  intros s first candidate s'.
  apply (@fit_appends_iff_accepted Q Q_Scalar (Example.collaborators 1 0 0)
           Example.numpy s Example.x2
           [(first, np.Matrix 2 [[1; 0]; [0; 0]])] candidate
           (np.Matrix 2 [[1; 0]; [0; 0]; [0; 0]])).
  - reflexivity.
  - constructor; [ | constructor ].
    split; [ reflexivity | exists [[1; 1]]; reflexivity ].
  - reflexivity.
  - reflexivity.
  - reflexivity.
  - discriminate.
Defined.

(** C5.  When [Sieve.fit] returns, the Sieve has at most [max_layers]
    layers.  The layers it has appended are the candidates it built in
    turn on the training matrix, each on the output of the one before,
    and every one of them passed the acceptance test.  When the loop
    ended because a candidate failed the test, the Sieve has strictly
    fewer than [max_layers] layers and the rejected candidate is the one
    built on the output of the last appended layer: it is not among the
    layers and no layer was appended after it.  Otherwise the Sieve has
    exactly [max_layers] layers and no candidate failed. *)
Theorem fit_at_most_max_layers
        {F : Type} `{Scalar F} `{Collaborators F} `{Numpy}
        (s : Sieve.t F) (m : np.matrix) (s' : Sieve.t F) (xf : np.matrix)
        (why : Sieve.terminal) :
  py.len (Sieve.layers s) <= Sieve.max_layers s ->
  Sieve.fit_run s (np.Arr2 m) = Sieve.LoopEnd s' xf why ->
  Sieve.fit s (np.Arr2 m) = Sieve.Returned s' /\
  py.len (Sieve.layers s') <= Sieve.max_layers s' /\
  exists turns,
    Sieve.layers s' = Sieve.layers s ++ map fst turns /\
    Sieve.candidates (Sieve.kw s') (length turns) m = Ok turns /\
    Forall (fun t => Sieve.accepts (fst t) (np.nrows m) = Ok true) turns /\
    match why with
    | Sieve.CONVERGED =>
        py.len (Sieve.layers s') < Sieve.max_layers s' /\
        exists c,
          SieveLayer.init (Sieve.data_after turns m) (Sieve.kw s') = Ok c /\
          SieveLayer.transform c (np.Arr2 (Sieve.data_after turns m))
          = Ok xf /\
          Sieve.accepts c (np.nrows m) = Ok false
    | Sieve.MAX_LAYERS_REACHED =>
        py.len (Sieve.layers s') = Sieve.max_layers s' /\
        xf = Sieve.data_after turns m
    end.
Proof.
  intros Hle Hrun.
  split; [ unfold Sieve.fit; rewrite Hrun; reflexivity | ].
  unfold Sieve.fit_run in Hrun.
  set (s0 := Sieve.set_n_variables s (np.ncols m)) in *.
  pose proof (fit_loop_max_layers s0 m (np.nrows m) (np.ncols m)) as Hmax.
  destruct (fit_loop_frame s0 m (np.nrows m) (np.ncols m)) as [Hkw _].
  rewrite Hrun in Hmax, Hkw. cbn [Sieve.final_state] in Hmax, Hkw.
  pose proof (@fit_loop_count F _ _ _ s0 m (np.nrows m) (np.ncols m) Hle
                s' xf why Hrun) as Hcount.
  destruct (fit_loop_trace s0 m (np.nrows m) (np.ncols m) Hrun)
    as [turns [Hc [Hlayers [Hall [_ [_ Hwhy]]]]]].
  cbn [s0 Sieve.max_layers Sieve.kw Sieve.layers Sieve.set_n_variables]
    in Hmax, Hkw, Hcount, Hc, Hlayers, Hwhy.
  rewrite Hmax, Hkw.
  split; [ destruct why; lia | ].
  exists turns. repeat (split; [ assumption | ]).
  destruct why.
  - exact Hwhy.
  - destruct Hwhy as [_ Hxf]. split; assumption.
Qed.

Lemma fit_at_most_max_layers_witness :
  let s := Sieve.init Q 10 (Kwargs None) in
  let first :=
    SieveLayer.Build (Example.flat 0 2 1) [0; 0] [Example.keep (1 # 4) 0] in
  let s' := Sieve.Build 10 (Kwargs None) [first] [[1; 1]] (Some 1%nat) in
  let xf := np.Matrix 2 [[1; 0]; [0; 0]; [0; 0]] in
  @Sieve.fit Q Q_Scalar (Example.collaborators 1 (1 # 4) 0) Example.numpy s
             (np.Arr2 Example.x2)
  = Sieve.Returned s' /\
  py.len (Sieve.layers s') <= Sieve.max_layers s' /\
  exists turns,
    Sieve.layers s' = Sieve.layers s ++ map fst turns /\
    @Sieve.candidates Q (Example.collaborators 1 (1 # 4) 0) (Sieve.kw s')
                      (length turns) Example.x2 = Ok turns /\
    Forall (fun t => Sieve.accepts (fst t) 2 = Ok true) turns /\
    py.len (Sieve.layers s') < Sieve.max_layers s' /\
    exists c,
      @SieveLayer.init Q (Example.collaborators 1 (1 # 4) 0)
                       (Sieve.data_after turns Example.x2) (Sieve.kw s')
      = Ok c /\
      SieveLayer.transform c (np.Arr2 (Sieve.data_after turns Example.x2))
      = Ok xf /\
      Sieve.accepts c 2 = Ok false.
Proof.
  intros s first s' xf.
  apply (@fit_at_most_max_layers Q Q_Scalar
           (Example.collaborators 1 (1 # 4) 0)
           Example.numpy s Example.x2 s' xf Sieve.CONVERGED).
  - vm_compute. discriminate.
  - reflexivity.
Defined.

(* ===================================================================== *)
(** ** What [fit] establishes *)
(* ===================================================================== *)

Section FitEstablishes.
Context {F : Type} `{Scalar F} `{Collaborators F} `{Numpy}.

Lemma mapM_length {A B : Type} (f : A -> result B) :
  forall l bs, mapM f l = Ok bs -> length bs = length l.
Proof.
  induction l as [ | a l IH ]; intros bs Hm; simpl in Hm.
  - injection Hm as <-. reflexivity.
  - destruct (f a) as [b | e]; simpl in Hm; [ | discriminate ].
    destruct (mapM f l) as [bs' | e]; simpl in Hm; [ | discriminate ].
    injection Hm as <-. simpl. rewrite (IH bs' eq_refl). reflexivity.
Qed.

Lemma mapM_Forall {A B : Type} (f : A -> result B) (P : B -> Prop) :
  (forall a b, f a = Ok b -> P b) ->
  forall l bs, mapM f l = Ok bs -> Forall P bs.
Proof.
  intros Hf. induction l as [ | a l IH ]; intros bs Hm; simpl in Hm.
  - injection Hm as <-. constructor.
  - destruct (f a) as [b | e] eqn:Hfa; simpl in Hm; [ | discriminate ].
    destruct (mapM f l) as [bs' | e]; simpl in Hm; [ | discriminate ].
    injection Hm as <-. constructor; [ eapply Hf; exact Hfa | ].
    apply IH. reflexivity.
Qed.

(** A constructed layer holds the fitted extractor, its labels, and one
    Remainder Model per column. *)
Lemma init_fields (x : np.matrix) (kw : kwargs) (c : SieveLayer.t F) :
  SieveLayer.init x kw = Ok c ->
  SieveLayer.corex c = corex_fit x /\
  SieveLayer.labels c = Corex.labels (corex_fit x) /\
  length (SieveLayer.remainders c) = np.ncols x /\
  (remainder_contract -> Forall per_sample (SieveLayer.remainders c)).
Proof.
  unfold SieveLayer.init. intros Hinit.
  apply bind_Ok in Hinit. destruct Hinit as [rs [Hrs Hc]].
  injection Hc as <-. cbn [SieveLayer.corex SieveLayer.labels
    SieveLayer.remainders].
  repeat split.
  - apply (mapM_length _ _ Hrs).
  - intros Hcontract. eapply mapM_Forall; [ | exact Hrs ].
    intros xs r Hr. cbn beta in Hr.
    apply bind_Ok in Hr. destruct Hr as [ls [_ Hr]].
    injection Hr as <-. apply Hcontract.
Qed.

(** The output of a layer has as many rows as the extractor gave labels. *)
Lemma layer_transform_rows (l : SieveLayer.t F) (m m' : np.matrix) :
  SieveLayer.transform l (np.Arr2 m) = Ok m' ->
  np.nrows m' = length (Corex.transform (SieveLayer.corex l) (np.Arr2 m)).
Proof.
  unfold SieveLayer.transform. cbn [np.shape1 bind]. intros Ht.
  apply bind_Ok in Ht. destruct Ht as [xr [_ Hstack]].
  unfold np.hstack in Hstack.
  destruct (np.array_T xr) as [v | vs | ma]; try discriminate.
  destruct (Nat.eqb (np.nrows ma) (np.nrows (np.newaxis _))) eqn:Hrows;
    [ | discriminate ].
  injection Hstack as <-. apply Nat.eqb_eq in Hrows. exact Hrows.
Qed.

(** A layer needs at least one column to transform. *)
Lemma layer_transform_needs_column (l : SieveLayer.t F) (m m' : np.matrix) :
  SieveLayer.transform l (np.Arr2 m) = Ok m' -> (1 <= np.ncols m)%nat.
Proof.
  unfold SieveLayer.transform. cbn [np.shape1 bind]. intros Ht.
  destruct (np.ncols m) eqn:Hw; [ | lia ].
  cbn in Ht. discriminate.
Qed.

(** Every layer that the loop holds at its end has one label per row of
    the training matrix. *)
Lemma fit_loop_labels (k : nat) :
  extractor_contract ->
  forall (s : Sieve.t F) (x : np.matrix) (n nv : nat),
    np.nrows x = k ->
    Forall (fun l => length (SieveLayer.labels l) = k) (Sieve.layers s) ->
    Forall (fun l => length (SieveLayer.labels l) = k)
           (Sieve.layers (Sieve.final_state (Sieve.fit_loop s x n nv))).
Proof.
  intros Hcontract s x n nv.
  funelim (Sieve.fit_loop s x n nv); intros Hrows Hall;
    cbn [Sieve.final_state]; try exact Hall;
    match goal with
    | Hinit : SieveLayer.init _ _ = Ok _ |- _ =>
        destruct (init_fields _ _ Hinit) as [Hcorex [Hlabels _]]
    end;
    assert (Hnew : length (SieveLayer.labels next_layer) = k)
      by (rewrite Hlabels; destruct (Hcontract x) as [Hl _];
          rewrite Hl; exact Hrows).
  - match goal with
    | IH : context [Sieve.final_state] |- _ => apply IH
    end.
    + exact Hcontract.
    + match goal with
      | Ht : SieveLayer.transform _ _ = Ok _ |- _ =>
          rewrite (layer_transform_rows _ _ Ht)
      end.
      rewrite Hcorex.
      destruct (Hcontract x) as [_ Hone].
      rewrite Hone. exact Hrows.
    + cbn [Sieve.layers Sieve.set_x_stats Sieve.append].
      apply Forall_app. split; [ exact Hall | ].
      constructor; [ exact Hnew | constructor ].
  - cbn [Sieve.layers Sieve.append].
    apply Forall_app. split; [ exact Hall | ].
    constructor; [ exact Hnew | constructor ].
Qed.

Lemma fitted_stack_snoc :
  forall (ls : list (SieveLayer.t F)) (V : nat) (c : SieveLayer.t F),
    fitted_stack V ls -> fitted_layer (V + length ls) c ->
    fitted_stack V (ls ++ [c]).
Proof.
  induction ls as [ | l ls IH ]; intros V c Hls Hc.
  - simpl in *. rewrite Nat.add_0_r in Hc.
    constructor; [ exact Hc | constructor ].
  - inversion Hls as [ | V' l' ls' Hl Hrest ]; subst.
    simpl. constructor; [ exact Hl | ].
    apply IH; [ exact Hrest | ].
    simpl in Hc. replace (S V + length ls)%nat with (V + S (length ls))%nat
      by lia.
    exact Hc.
Qed.

(** The layers that the loop holds at its end form a fitted stack on the
    columns of the training matrix, and there is a layer only if the
    matrix has a column. *)
Lemma fit_loop_fitted (V : nat) :
  extractor_contract -> remainder_contract ->
  forall (s : Sieve.t F) (x : np.matrix) (n nv : nat),
    np.wf x ->
    np.ncols x = (V + length (Sieve.layers s))%nat ->
    fitted_stack V (Sieve.layers s) ->
    (Sieve.layers s <> [] -> (1 <= V)%nat) ->
    let s' := Sieve.final_state (Sieve.fit_loop s x n nv) in
    fitted_stack V (Sieve.layers s') /\
    (Sieve.layers s' <> [] -> (1 <= V)%nat).
Proof.
  intros Hext Hrem s x n nv.
  funelim (Sieve.fit_loop s x n nv); intros Hwf Hcols Hstack Hpos;
    cbn zeta; cbn [Sieve.final_state]; try (split; assumption);
    match goal with
    | Hinit : SieveLayer.init _ _ = Ok _ |- _ =>
        destruct (init_fields _ _ Hinit) as [Hcorex [_ [Hlen Hper]]]
    end;
    match goal with
    | Ht : SieveLayer.transform _ _ = Ok _ |- _ =>
        pose proof (layer_transform_needs_column _ _ Ht) as Hcol;
        pose proof Ht as Hout
    end;
    assert (Hlayer : fitted_layer (np.ncols x) next_layer)
      by (split; [ exact Hlen | split; [ | apply Hper; exact Hrem ] ];
          rewrite Hcorex; apply Hext);
    rewrite layer_transform_fitted in Hout by assumption;
    injection Hout as Hout;
    destruct (layer_output_shape Hlayer Hwf) as [Hwf' [_ [Hcols' _]]];
    fold (layer_output next_layer x) in Hout; rewrite Hout in Hwf', Hcols';
    assert (Hstack' : fitted_stack V (Sieve.layers self ++ [next_layer]))
      by (apply fitted_stack_snoc; [ exact Hstack | ];
          rewrite <- Hcols; exact Hlayer);
    assert (Hpos' : (1 <= V)%nat)
      by (destruct (Sieve.layers self) eqn:Hls;
          [ simpl in Hcols; lia | apply Hpos; discriminate ]).
  - match goal with
    | IH : context [Sieve.final_state] |- _ => apply IH
    end.
    + exact Hext.
    + exact Hrem.
    + exact Hwf'.
    + cbn [Sieve.layers Sieve.set_x_stats Sieve.append].
      rewrite Hcols', Hcols, length_app. simpl. lia.
    + exact Hstack'.
    + intros _. exact Hpos'.
  - cbn [Sieve.layers Sieve.append]. split; [ exact Hstack' | ].
    intros _. exact Hpos'.
Qed.

End FitEstablishes.

Lemma example_extractor_contract (tc mi h : Q) :
  @extractor_contract Q (Example.collaborators tc mi h).
Proof.
  intros m. split.
  - simpl. apply repeat_length.
  - apply flat_one_label_per_row.
Qed.

Lemma example_remainder_contract (tc mi h : Q) :
  @remainder_contract Q (Example.collaborators tc mi h).
Proof. intros xs ls k. apply keep_per_sample. Qed.

(** A Sieve that [fit] returns, started without layers on a well-formed
    matrix, is fitted in the sense used above. *)
Lemma fit_fitted {F : Type} `{Scalar F} `{Collaborators F} `{Numpy}
      (max_layers : Z) (kw : kwargs) (m : np.matrix) (s' : Sieve.t F) :
  extractor_contract -> remainder_contract -> np.wf m ->
  Sieve.fit (Sieve.init F max_layers kw) (np.Arr2 m) = Sieve.Returned s' ->
  fitted_stack (np.ncols m) (Sieve.layers s') /\
  (Sieve.layers s' <> [] -> (1 <= np.ncols m)%nat).
Proof.
  intros Hext Hrem Hwf Hfit. unfold Sieve.fit, Sieve.fit_run in Hfit.
  pose proof (@fit_loop_fitted F _ _ _ (np.ncols m) Hext Hrem
                (Sieve.set_n_variables (Sieve.init F max_layers kw)
                                       (np.ncols m))
                m (np.nrows m) (np.ncols m) Hwf) as Hloop.
  cbn zeta in Hloop.
  destruct (Sieve.fit_loop _ m (np.nrows m) (np.ncols m))
    as [s1 x1 why | e s1]; [ | discriminate ].
  injection Hfit as <-. cbn [Sieve.final_state] in Hloop.
  apply Hloop.
  - simpl. lia.
  - constructor.
  - intros Hne. contradiction Hne. reflexivity.
Qed.

(** C8, as stated, fails: after a fit that accepts no layer, [labels] is
    the one-dimensional empty array, of shape [(0,)], not a matrix of
    shape [(n_samples, 0)]. *)
Lemma labels_shape_without_layers :
  let s' := Sieve.Build 10 (Kwargs None) [] [] (Some 1%nat) in
  @Sieve.fit Q Q_Scalar (Example.collaborators 0 0 0) Example.numpy
             (Sieve.init Q 10 (Kwargs None)) (np.Arr2 Example.x2)
  = Sieve.Returned s' /\
  np.shape (Sieve.labels s') = [0%nat] /\
  np.shape (Sieve.labels s') <> [np.nrows Example.x2;
                                 length (Sieve.layers s')].
Proof.
  intros s'. split; [ reflexivity | ].
  split; [ reflexivity | ].
  simpl. discriminate.
Qed.

(** C8, amended.  After [fit] on a matrix of [n_samples] rows, started
    without layers, [labels] has shape [(n_samples, number_of_layers)]
    when at least one layer was accepted, and shape [(0,)] when none
    was. *)
Theorem labels_shape_after_fit
        {F : Type} `{Scalar F} `{Collaborators F} `{Numpy}
        (max_layers : Z) (kw : kwargs) (m : np.matrix) (s' : Sieve.t F) :
  extractor_contract ->
  Sieve.fit (Sieve.init F max_layers kw) (np.Arr2 m) = Sieve.Returned s' ->
  np.shape (Sieve.labels s')
  = match Sieve.layers s' with
    | [] => [0%nat]
    | _ :: _ => [np.nrows m; length (Sieve.layers s')]
    end.
Proof.
  intros Hext Hfit. unfold Sieve.fit, Sieve.fit_run in Hfit.
  pose proof (@fit_loop_labels F _ _ _ (np.nrows m) Hext
                (Sieve.set_n_variables (Sieve.init F max_layers kw)
                                       (np.ncols m))
                m (np.nrows m) (np.ncols m) eq_refl) as Hloop.
  destruct (Sieve.fit_loop _ m (np.nrows m) (np.ncols m))
    as [s1 x1 why | e s1]; [ | discriminate ].
  injection Hfit as <-. cbn [Sieve.final_state] in Hloop.
  specialize (Hloop (Forall_nil _)).
  unfold Sieve.labels.
  destruct (Sieve.layers s1) as [ | l ls ] eqn:Hls; [ reflexivity | ].
  rewrite (array_T_matrix (n := np.nrows m)).
  - unfold np.shape, np.ncols. cbn [np.nrows np.cols].
    rewrite length_map. reflexivity.
  - discriminate.
  - apply Forall_forall. intros c Hc.
    apply in_map_iff in Hc. destruct Hc as [l' [<- Hin]].
    rewrite Forall_forall in Hloop. apply Hloop. exact Hin.
Qed.

Lemma labels_shape_after_fit_witness :
  let s' :=
    Sieve.Build 2 (Kwargs None)
      [SieveLayer.Build (Example.flat 0 2 1) [0; 0] [Example.keep 0 0];
       SieveLayer.Build (Example.flat 0 2 1) [0; 0]
                        [Example.keep 0 0; Example.keep 0 0]]
      [[1; 1]] (Some 1%nat) in
  @extractor_contract Q (Example.collaborators 1 0 0) /\
  np.shape (Sieve.labels s') = [2%nat; 2%nat].
Proof.
  intros s'. split; [ apply example_extractor_contract | ].
  apply (@labels_shape_after_fit Q Q_Scalar (Example.collaborators 1 0 0)
           Example.numpy 2 (Kwargs None) Example.x2 s').
  - apply example_extractor_contract.
  - reflexivity.
Defined.

(* ===================================================================== *)
(** ** The matrix of mutual informations and the cluster assignment *)
(* ===================================================================== *)

Section MutualInformation.
Context {F : Type} `{Scalar F}.

(** The step of the loop of [Sieve.mis]. *)
Let mis_step (acc : npf.matrix F) (layer : SieveLayer.t F)
  : result (npf.matrix F) :=
  padded <- npf.hstack acc (npf.zeros (npf.nrows acc) 1) ;;
  npf.vstack padded (Corex.mis (SieveLayer.corex layer)).

Lemma zero_column_appended (rows : list (list F)) :
  map (fun p => fst p ++ snd p)
      (combine rows (repeat (repeat fzero 1) (length rows)))
  = map (fun r => r ++ [fzero]) rows.
Proof.
  induction rows as [ | r rows IH ]; [ reflexivity | ].
  cbn [length repeat combine map fst snd]. f_equal. exact IH.
Qed.

(** One turn of the loop: a column of zeros, then the layer's row, which
    must be as long as the widened matrix. *)
Lemma mis_step_value (w : nat) (rows : list (list F))
      (layer : SieveLayer.t F) :
  mis_step (npf.Matrix w rows) layer
  = if Nat.eqb (w + 1) (length (Corex.mis (SieveLayer.corex layer)))
    then Ok (npf.Matrix (w + 1)
               (map (fun r => r ++ [fzero]) rows
                  ++ [Corex.mis (SieveLayer.corex layer)]))
    else Err ValueError.
Proof.
  unfold mis_step, npf.hstack, npf.zeros, npf.nrows. cbn [npf.rows npf.ncols].
  rewrite repeat_length, Nat.eqb_refl. cbn [bind].
  rewrite zero_column_appended. reflexivity.
Qed.

Lemma pad_again (r : list F) (n : nat) :
  (r ++ [fzero]) ++ repeat fzero n = r ++ repeat fzero (S n).
Proof. rewrite <- app_assoc. reflexivity. Qed.

Lemma mis_loop_value :
  forall (ls : list (SieveLayer.t F)) (w : nat) (rows : list (list F)),
    (forall j l, nth_error ls j = Some l ->
                 length (Corex.mis (SieveLayer.corex l)) = S (w + j)) ->
    Sieve.foldM mis_step ls (npf.Matrix w rows)
    = Ok (npf.Matrix (w + length ls)
            (map (fun r => r ++ repeat fzero (length ls)) rows
               ++ padded_mis ls)).
Proof.
  induction ls as [ | l ls IH ]; intros w rows Hlen.
  - cbn [Sieve.foldM length padded_mis repeat].
    rewrite Nat.add_0_r, app_nil_r.
    rewrite (map_ext _ (fun r => r)) by (intros r; apply app_nil_r).
    rewrite map_id. reflexivity.
  - cbn [Sieve.foldM]. rewrite mis_step_value.
    rewrite (Hlen 0%nat l eq_refl).
    replace (S (w + 0)) with (w + 1)%nat by lia.
    rewrite Nat.eqb_refl. cbn [bind].
    rewrite IH.
    + cbn [length padded_mis]. f_equal. f_equal; [ lia | ].
      rewrite map_app, map_map. cbn [map].
      rewrite <- app_assoc. cbn [app].
      f_equal. apply map_ext. intros r. apply pad_again.
    + intros j l' Hj. rewrite (Hlen (S j) l' Hj). lia.
Qed.

Lemma mis_loop_widths :
  forall (ls : list (SieveLayer.t F)) (w : nat) (rows : list (list F))
         (M : npf.matrix F),
    Sieve.foldM mis_step ls (npf.Matrix w rows) = Ok M ->
    forall j l, nth_error ls j = Some l ->
                length (Corex.mis (SieveLayer.corex l)) = S (w + j).
Proof.
  induction ls as [ | l ls IH ]; intros w rows M Hfold j l' Hj.
  - destruct j; discriminate.
  - cbn [Sieve.foldM] in Hfold. rewrite mis_step_value in Hfold.
    destruct (Nat.eqb (w + 1) (length (Corex.mis (SieveLayer.corex l))))
      eqn:Hw; [ | discriminate ].
    apply Nat.eqb_eq in Hw. cbn [bind] in Hfold.
    destruct j as [ | j ].
    + injection Hj as <-. lia.
    + rewrite (IH _ _ _ Hfold j l' Hj). lia.
Qed.

Lemma mis_loop_error :
  forall (ls : list (SieveLayer.t F)) (acc : npf.matrix F) (e : exn),
    Sieve.foldM mis_step ls acc = Err e -> e = ValueError.
Proof.
  induction ls as [ | l ls IH ]; intros acc e Hfold; [ discriminate | ].
  cbn [Sieve.foldM] in Hfold. destruct acc as [w rows].
  rewrite mis_step_value in Hfold.
  destruct (Nat.eqb _ _).
  - cbn [bind] in Hfold. eapply IH. exact Hfold.
  - injection Hfold as <-. reflexivity.
Qed.

Lemma mis_as_loop (s : Sieve.t F) (l : SieveLayer.t F)
      (ls : list (SieveLayer.t F)) :
  Sieve.layers s = l :: ls ->
  Sieve.mis s
  = Sieve.foldM mis_step ls
      (npf.Matrix (length (Corex.mis (SieveLayer.corex l)))
                  [Corex.mis (SieveLayer.corex l)]).
Proof.
  intros Hs. unfold Sieve.mis. rewrite Hs.
  pose proof (index_middle [] ls l) as Hhead. cbn [app length] in Hhead.
  change (Z.of_nat 0) with 0 in Hhead. rewrite Hhead. reflexivity.
Qed.

Lemma padded_mis_length (ls : list (SieveLayer.t F)) :
  length (padded_mis ls) = length ls.
Proof.
  induction ls as [ | l ls IH ]; simpl; [ reflexivity | rewrite IH; reflexivity ].
Qed.

Lemma padded_mis_nth :
  forall (ls : list (SieveLayer.t F)) (k : nat) (l : SieveLayer.t F),
    nth_error ls k = Some l ->
    nth_error (padded_mis ls) k
    = Some (Corex.mis (SieveLayer.corex l)
              ++ repeat fzero (length ls - 1 - k)).
Proof.
  induction ls as [ | l0 ls IH ]; intros k l Hk.
  - destruct k; discriminate.
  - destruct k as [ | k ].
    + injection Hk as <-. cbn [padded_mis nth_error length].
      replace (S (length ls) - 1 - 0)%nat with (length ls) by lia.
      reflexivity.
    + cbn [padded_mis nth_error length]. rewrite (IH k l Hk).
      assert (Hlt : (k < length ls)%nat)
        by (apply nth_error_Some; simpl in Hk; rewrite Hk; discriminate).
      replace (S (length ls) - 1 - S k)%nat with (length ls - 1 - k)%nat
        by lia.
      reflexivity.
Qed.

Lemma padded_mis_wf :
  forall (ls : list (SieveLayer.t F)) (V : nat),
    (forall k l, nth_error ls k = Some l ->
                 length (Corex.mis (SieveLayer.corex l)) = (V + k)%nat) ->
    Forall (fun r => length r = (V + length ls - 1)%nat) (padded_mis ls).
Proof.
  induction ls as [ | l ls IH ]; intros V Hlen; [ constructor | ].
  cbn [padded_mis length]. constructor.
  - rewrite length_app, repeat_length, (Hlen 0%nat l eq_refl). lia.
  - replace (V + S (length ls) - 1)%nat with (S V + length ls - 1)%nat
      by lia.
    apply IH. intros k l' Hk. rewrite (Hlen (S k) l' Hk). lia.
Qed.

Lemma float_argmax_from_bound :
  forall (l : list F) (bi i : nat) (b : F),
    (bi < i)%nat -> (npf.argmax_from bi b i l < i + length l)%nat.
Proof.
  induction l as [ | v l IH ]; intros bi i b Hbi; cbn [npf.argmax_from length].
  - lia.
  - destruct (fleb v b).
    + specialize (IH bi (S i) b). lia.
    + destruct (npf.isnan v); [ lia | ].
      specialize (IH i (S i) v). lia.
Qed.

(** The float [argmax] of a non-empty array is one of its positions. *)
Lemma float_argmax_bound (a : list F) :
  a <> [] -> exists j, npf.argmax a = Ok j /\ 0 <= j < Z.of_nat (length a).
Proof.
  intros Hne. destruct a as [ | v a ]; [ contradiction | ].
  cbn [npf.argmax length]. destruct (npf.isnan v).
  - exists 0. split; [ reflexivity | lia ].
  - eexists. split; [ reflexivity | ].
    pose proof (@float_argmax_from_bound a 0%nat 1%nat v). lia.
Qed.

Lemma mis_returns (s : Sieve.t F) (l0 : SieveLayer.t F)
      (ls : list (SieveLayer.t F)) (V : nat) :
  Sieve.layers s = l0 :: ls ->
  (forall k l, nth_error (l0 :: ls) k = Some l ->
               length (Corex.mis (SieveLayer.corex l)) = (V + k)%nat) ->
  Sieve.mis s = Ok (npf.Matrix (V + length ls) (padded_mis (l0 :: ls))).
Proof.
  intros Hs Hlen.
  pose proof (Hlen 0%nat l0 eq_refl) as H0. rewrite Nat.add_0_r in H0.
  rewrite (mis_as_loop s Hs), H0, mis_loop_value.
  - reflexivity.
  - intros j l Hj. rewrite (Hlen (S j) l Hj). lia.
Qed.

(** X1.  When a Sieve has at least one layer and the extractor of layer
    [k] reports one mutual information per column of its input ([V + k]
    of them), [Sieve.mis] returns a matrix with one row per layer and
    [V + L - 1] columns; row [k] is the vector of layer [k] followed by a
    zero for each deeper layer. *)
Theorem mis_value (s : Sieve.t F) (V : nat) :
  Sieve.layers s <> [] ->
  (forall k l, nth_error (Sieve.layers s) k = Some l ->
               length (Corex.mis (SieveLayer.corex l)) = (V + k)%nat) ->
  exists M,
    Sieve.mis s = Ok M /\
    npf.shape M = [length (Sieve.layers s);
                   (V + length (Sieve.layers s) - 1)%nat] /\
    npf.wf M /\
    forall k l, nth_error (Sieve.layers s) k = Some l ->
      nth_error (npf.rows M) k
      = Some (Corex.mis (SieveLayer.corex l)
                ++ repeat fzero (length (Sieve.layers s) - 1 - k)).
Proof.
  intros Hne Hlen.
  destruct (Sieve.layers s) as [ | l0 ls ] eqn:Hs; [ contradiction | ].
  exists (npf.Matrix (V + length ls) (padded_mis (l0 :: ls))).
  split; [ | split; [ | split ] ].
  - eapply mis_returns; [ exact Hs | exact Hlen ].
  - unfold npf.shape, npf.nrows. cbn [npf.rows npf.ncols].
    rewrite padded_mis_length. cbn [length]. do 2 f_equal. lia.
  - unfold npf.wf. cbn [npf.rows npf.ncols].
    replace (V + length ls)%nat with (V + length (l0 :: ls) - 1)%nat
      by (cbn [length]; lia).
    apply padded_mis_wf. exact Hlen.
  - intros k l Hk. cbn [npf.rows]. apply padded_mis_nth. exact Hk.
Qed.

(** X2.  [Sieve.mis] raises [IndexError] on a Sieve without layers.  With
    layers it returns exactly when the vector of every layer is one entry
    longer than the vector of the layer before it, and raises
    [ValueError] otherwise. *)
Theorem mis_returns_iff (s : Sieve.t F) :
  (Sieve.layers s = [] -> Sieve.mis s = Err IndexError) /\
  (forall l0 ls, Sieve.layers s = l0 :: ls ->
     ((exists M, Sieve.mis s = Ok M) <->
      (forall k l, nth_error (Sieve.layers s) k = Some l ->
         length (Corex.mis (SieveLayer.corex l))
         = (length (Corex.mis (SieveLayer.corex l0)) + k)%nat)) /\
     ((forall M, Sieve.mis s <> Ok M) -> Sieve.mis s = Err ValueError)).
Proof.
  split.
  - intros Hs. unfold Sieve.mis. rewrite Hs, index_nil. reflexivity.
  - intros l0 ls Hs. split; [ split | ].
    + intros [M HM] k l Hk. rewrite Hs in Hk.
      rewrite (mis_as_loop s Hs) in HM.
      destruct k as [ | k ]; [ injection Hk as <-; lia | ].
      rewrite (@mis_loop_widths _ _ _ _ HM k l Hk). lia.
    + intros Hlen. eexists. eapply mis_returns; [ exact Hs | ].
      rewrite Hs in Hlen. exact Hlen.
    + intros Hnever. destruct (Sieve.mis s) as [M | e] eqn:Hmis.
      * contradiction (Hnever M). reflexivity.
      * rewrite (mis_as_loop s Hs) in Hmis.
        rewrite (@mis_loop_error _ _ _ Hmis). reflexivity.
Qed.

Lemma column_length (a : npf.matrix F) (j : nat) :
  length (npf.column a j) = npf.nrows a.
Proof. unfold npf.column, npf.nrows. apply length_map. Qed.

End MutualInformation.

Lemma sieve_mis_widths :
  forall k l, nth_error (Sieve.layers Example.sieve_mis) k = Some l ->
              length (Corex.mis (SieveLayer.corex l)) = (2 + k)%nat.
Proof.
  intros k l Hk. simpl in Hk.
  destruct k as [ | [ | k ] ]; simpl in Hk.
  - injection Hk as <-. reflexivity.
  - injection Hk as <-. reflexivity.
  - destruct k; discriminate.
Qed.

Lemma mis_value_witness :
  exists M,
    Sieve.mis Example.sieve_mis = Ok M /\
    npf.shape M = [2%nat; 3%nat] /\
    npf.wf M /\
    forall k l, nth_error (Sieve.layers Example.sieve_mis) k = Some l ->
      nth_error (npf.rows M) k
      = Some (Corex.mis (SieveLayer.corex l) ++ repeat 0%Q (2 - 1 - k)).
Proof.
  apply (@mis_value Q Q_Scalar Example.sieve_mis 2%nat).
  - discriminate.
  - exact sieve_mis_widths.
Defined.

(** X3.  Under the same conditions [Sieve.clusters] returns one entry per
    column of [Sieve.mis], that is [V + L - 1] entries and not [V], and
    every entry is the index of a layer. *)
Theorem clusters_range {F : Type} `{Scalar F} (s : Sieve.t F) (V : nat) :
  Sieve.layers s <> [] ->
  (forall k l, nth_error (Sieve.layers s) k = Some l ->
               length (Corex.mis (SieveLayer.corex l)) = (V + k)%nat) ->
  exists c,
    Sieve.clusters s = Ok (np.Arr1 c) /\
    length c = (V + length (Sieve.layers s) - 1)%nat /\
    Forall (fun j => 0 <= j < Z.of_nat (length (Sieve.layers s))) c.
Proof.
  intros Hne Hlen.
  destruct (Sieve.layers s) as [ | l0 ls ] eqn:Hs; [ contradiction | ].
  unfold Sieve.clusters.
  rewrite (@mis_returns F _ s l0 ls V Hs Hlen). cbn [bind].
  set (M := npf.Matrix (V + length ls) (padded_mis (l0 :: ls))).
  assert (Hrows : npf.nrows M = length (l0 :: ls))
    by (unfold npf.nrows, M; cbn [npf.rows]; apply padded_mis_length).
  destruct (@mapM_Forall2 _ _ (fun j => npf.argmax (npf.column M j))
              (fun _ j => 0 <= j < Z.of_nat (length (l0 :: ls)))
              (seq 0 (npf.ncols M))) as [c [Hc Hall]].
  { intros j _.
    destruct (@float_argmax_bound F _ (npf.column M j)) as [i [Hi Hb]].
    - intros Hnil. apply (f_equal (@length _)) in Hnil.
      rewrite column_length, Hrows in Hnil. discriminate.
    - exists i. rewrite column_length, Hrows in Hb. auto. }
  exists c. split; [ | split ].
  - unfold npf.argmax_axis0. cbn [npf.rows M padded_mis].
    fold M. rewrite Hc. reflexivity.
  - rewrite <- (Forall2_length Hall), length_seq. unfold M.
    cbn [npf.ncols length]. lia.
  - clear Hc. induction Hall; constructor; assumption.
Qed.

Lemma clusters_range_witness :
  exists c,
    Sieve.clusters Example.sieve_mis = Ok (np.Arr1 c) /\
    length c = 3%nat /\
    Forall (fun j => 0 <= j < 2) c.
Proof.
  apply (@clusters_range Q Q_Scalar Example.sieve_mis 2%nat).
  - discriminate.
  - exact sieve_mis_widths.
Defined.

(* ===================================================================== *)
(** ** More on prediction *)
(* ===================================================================== *)

Section PredictMore.
Context {F : Type} `{Scalar F}.

Lemma predict_variable_most_likely (s : Sieve.t F) (ys : list (list Z))
      (i : Z) :
  Sieve.predict_variable s ys i
  = (ml <- Sieve.most_likely s ys i ;; Ok (np.Arr1 ml)).
Proof. reflexivity. Qed.

Lemma rows_length (m : np.matrix) : length (np.rows m) = np.nrows m.
Proof. unfold np.rows. rewrite length_map, length_seq. reflexivity. Qed.

(** The prediction for a row is a position of the accumulator. *)
Lemma predict_row_range (s : Sieve.t F) (y : list Z) (i p : Z) :
  Sieve.predict_row s y i = Ok p -> 0 <= p < 100.
Proof.
  unfold Sieve.predict_row. intros Hrow.
  apply bind_Ok in Hrow. destruct Hrow as [stats [_ Hrow]].
  apply bind_Ok in Hrow. destruct Hrow as [scores [Hfold Hmax]].
  apply accumulate_length in Hfold. unfold npf.zeros1 in Hfold.
  rewrite repeat_length in Hfold.
  destruct (@float_argmax_bound F _ scores) as [j [Hj Hlt]].
  - intros ->. discriminate.
  - rewrite Hj in Hmax. injection Hmax as <-. rewrite Hfold in Hlt. lia.
Qed.

End PredictMore.

(** X4.  [predict_variable] returns, whenever it returns, a
    one-dimensional array with one prediction per row of labels, and every
    prediction lies in [0 .. 99]: a value of [100] or more, or a negative
    value, is never predicted. *)
Theorem predict_variable_range {F : Type} `{Scalar F} (s : Sieve.t F)
        (ys : list (list Z)) (i : Z) (a : np.ndarray) :
  Sieve.predict_variable s ys i = Ok a ->
  exists preds,
    a = np.Arr1 preds /\
    length preds = length ys /\
    Forall (fun p => 0 <= p < 100) preds.
Proof.
  unfold Sieve.predict_variable. intros Hp.
  apply bind_Ok in Hp. destruct Hp as [preds [Hpreds Ha]].
  injection Ha as <-. exists preds. split; [ reflexivity | split ].
  - apply (mapM_length _ _ Hpreds).
  - eapply mapM_Forall; [ | exact Hpreds ].
    intros y p Hrow. cbn beta in Hrow. eapply predict_row_range. exact Hrow.
Qed.

Lemma predict_variable_range_witness :
  exists preds,
    np.Arr1 [5] = np.Arr1 preds /\
    length preds = length [[0]] /\
    Forall (fun p => 0 <= p < 100) preds.
Proof.
  exact (@predict_variable_range Q Q_Scalar (Example.sieve_shift 5) [[0]] 0
           (np.Arr1 [5]) eq_refl).
Defined.

(** X5.  When every value reconstructed for the rows [ys] lies in
    [-100 .. 99], [predict_variable] returns for every row the [argmax]
    of the accumulator, whose position [v] holds the float sum of the
    counts of the codes reconstructed as [v] or as the negative value
    [v - 100]: a negative reconstruction is counted from the end of the
    accumulator.  When the counts are not negative and their total can be
    added without rounding (for 64-bit floats, up to [2 ^ 53]), the
    prediction is the first position for which the count of the codes
    reconstructed as [v], plus the count of those reconstructed as
    [v - 100], is largest. *)
Theorem predict_variable_wraps_negative
        {F : Type} `{Scalar F} (s : Sieve.t F) (ys : list (list Z)) (i : Z)
        (stats : list Z) :
  py.index (Sieve.x_stats s) i = Ok stats ->
  (forall y xi nxi,
      In y ys -> In (xi, nxi) (py.enumerate stats) ->
      exists v, Sieve.invert_variable s xi y i = Ok v /\ -100 <= v < 100) ->
  exists preds,
    Sieve.predict_variable s ys i = Ok (np.Arr1 preds) /\
    Forall2 (fun y p => npf.argmax (wrapped_scores s y i stats) = Ok p)
            ys preds /\
    (forall bound,
       exact_counts bound ->
       Forall (fun n => 0 <= n) stats -> total stats <= bound ->
       Forall2 (fun y p => Sieve.first_argmax 100 (wrapped_vote s y i stats) p)
               ys preds).
Proof.
  intros Hstats Hall. unfold Sieve.predict_variable.
  destruct (@mapM_Forall2 _ _ (fun y => Sieve.predict_row s y i)
              (fun y p => npf.argmax (wrapped_scores s y i stats) = Ok p)
              ys) as [preds [Hpreds Hscores]].
  - intros y Hy.
    assert (Hrow : Sieve.predict_row s y i
                   = npf.argmax (wrapped_scores s y i stats)).
    { apply predict_row_wrapped; [ exact Hstats | ].
      intros xi nxi Hin. apply (Hall y xi nxi Hy Hin). }
    destruct (@float_argmax_returns F _ (wrapped_scores s y i stats))
      as [p Hp].
    + intros Hnil. pose proof (scores_length s y i stats) as [_ Hlen].
      rewrite Hnil in Hlen. discriminate Hlen.
    + exists p. rewrite Hrow. split; exact Hp.
  - exists preds. rewrite Hpreds.
    split; [ reflexivity | split; [ exact Hscores | ] ].
    intros bound Hexact Hpos Hsum.
    eapply Forall2_impl_in; [ | exact Hscores ].
    intros y p _ Hp. cbn beta in Hp.
    eapply argmax_wrapped_scores_exact;
      [ exact Hexact | exact Hpos | exact Hsum | exact Hp ].
Qed.

Lemma predict_variable_wraps_negative_witness :
  exists preds,
    Sieve.predict_variable (Example.sieve_shift (-1)) [[0]] 0
    = Ok (np.Arr1 preds) /\
    Forall2 (fun y p =>
               npf.argmax (wrapped_scores (Example.sieve_shift (-1)) y 0 [3])
               = Ok p)
            [[0]] preds /\
    Forall2 (fun y p =>
               Sieve.first_argmax 100
                 (wrapped_vote (Example.sieve_shift (-1)) y 0 [3]) p)
            [[0]] preds.
Proof.
  destruct (@predict_variable_wraps_negative Q Q_Scalar
              (Example.sieve_shift (-1)) [[0]] 0 [3] eq_refl)
    as [preds [Hpreds [Hscores Hcounts]]].
  - intros y xi nxi Hy Hin.
    destruct Hy as [<- | []]. destruct Hin as [Hin | []].
    injection Hin as <- <-. exists (-1). split; [ reflexivity | lia ].
  - exists preds. split; [ exact Hpreds | split; [ exact Hscores | ] ].
    apply (Hcounts (2 ^ 53)).
    + apply Q_exact_counts.
    + constructor; [ lia | constructor ].
    + vm_compute. discriminate.
Defined.

(** X7.  [predict] raises [AttributeError] on a Sieve that was never
    fitted.  On a fitted Sieve and a label matrix without rows it returns
    an empty array, of shape [(0, n_variables)], or [(0,)] when
    [n_variables] is [0], without reading the layers or [x_stats]. *)
Theorem predict_without_fit_or_rows
        {F : Type} `{Scalar F} (s : Sieve.t F) (y : np.matrix) :
  (Sieve.n_variables s = None -> Sieve.predict s y = None) /\
  (forall n, Sieve.n_variables s = Some n -> np.nrows y = 0%nat ->
     Sieve.predict s y
     = Some (Ok (match n with
                 | O => np.Arr1 []
                 | S _ => np.Arr2 (np.Matrix 0 (repeat [] n))
                 end))).
Proof.
  split.
  - intros Hn. unfold Sieve.predict. rewrite Hn. reflexivity.
  - intros n Hn Hrows. unfold Sieve.predict. rewrite Hn.
    unfold np.rows. rewrite Hrows. cbn [seq map].
    assert (Hcols : mapM (fun i => Sieve.most_likely s [] i) (py.range n)
                    = Ok (repeat [] n)).
    { clear Hn. unfold py.range, Sieve.most_likely. cbn [mapM].
      generalize 0%nat.
      induction n as [ | n IH ]; intros start; [ reflexivity | ].
      cbn [seq map mapM bind repeat].
      rewrite IH. reflexivity. }
    rewrite Hcols. cbn [bind]. do 2 f_equal.
    destruct n as [ | n ]; [ reflexivity | ].
    cbn [repeat]. rewrite (@array_T_matrix 0%nat ([] :: repeat [] n)).
    + reflexivity.
    + discriminate.
    + apply Forall_forall. intros c Hc.
      change ([] :: repeat [] n) with (repeat (@nil Z) (S n)) in Hc.
      apply repeat_spec in Hc. subst c. reflexivity.
Qed.

Lemma Forall2_nth_error {A B : Type} (P : A -> B -> Prop)
      (l : list A) (l' : list B) :
  Forall2 P l l' ->
  forall i a b, nth_error l i = Some a -> nth_error l' i = Some b -> P a b.
Proof.
  induction 1 as [ | x y l l' Hxy _ IH ]; intros i a b Ha Hb.
  - destruct i; discriminate.
  - destruct i as [ | i ].
    + injection Ha as <-. injection Hb as <-. exact Hxy.
    + apply (IH i a b Ha Hb).
Qed.

(** X8.  On a fitted Sieve with at least one variable, when
    [predict_variable] returns for every variable, [predict] returns the
    matrix of shape [(rows of y, n_variables)] whose column [i] is what
    [predict_variable(y, i)] returns. *)
Theorem predict_stacks_columns
        {F : Type} `{Scalar F} (s : Sieve.t F) (y : np.matrix) (n : nat) :
  Sieve.n_variables s = Some n -> (1 <= n)%nat ->
  (forall i, (i < n)%nat ->
     exists a, Sieve.predict_variable s (np.rows y) (Z.of_nat i) = Ok a) ->
  exists M,
    Sieve.predict s y = Some (Ok (np.Arr2 M)) /\
    np.shape (np.Arr2 M) = [np.nrows y; n] /\
    np.wf M /\
    forall i, (i < n)%nat ->
      exists col,
        nth_error (np.cols M) i = Some col /\
        Sieve.predict_variable s (np.rows y) (Z.of_nat i)
        = Ok (np.Arr1 col).
Proof.
  intros Hn Hpos Hall. unfold Sieve.predict. rewrite Hn.
  destruct (@mapM_Forall2 _ _
              (fun i => Sieve.most_likely s (np.rows y) i)
              (fun i col =>
                 Sieve.predict_variable s (np.rows y) i = Ok (np.Arr1 col) /\
                 length col = np.nrows y)
              (py.range n)) as [columns [Hcols Hrel]].
  { intros i Hi. unfold py.range in Hi. apply in_map_iff in Hi.
    destruct Hi as [k [<- Hk]]. apply in_seq in Hk.
    destruct (Hall k) as [a Ha]; [ lia | ].
    rewrite predict_variable_most_likely in Ha.
    destruct (Sieve.most_likely s (np.rows y) (Z.of_nat k)) as [col | e]
      eqn:Hcol; [ | discriminate ].
    exists col. split; [ reflexivity | ].
    split; [ rewrite predict_variable_most_likely, Hcol; reflexivity | ].
    unfold Sieve.most_likely in Hcol.
    rewrite (mapM_length _ _ Hcol). apply rows_length. }
  rewrite Hcols. cbn [bind].
  assert (Hlen : length columns = n)
    by (rewrite <- (Forall2_length Hrel); apply range_length).
  assert (Hwf : Forall (fun c => length c = np.nrows y) columns).
  { clear Hcols Hlen. induction Hrel as [ | i col tl cs [_ Hc] _ IH ];
      constructor; assumption. }
  exists (np.Matrix (np.nrows y) columns).
  rewrite (@array_T_matrix (np.nrows y) columns).
  - split; [ reflexivity | split; [ | split ] ].
    + unfold np.shape, np.ncols. cbn [np.nrows np.cols]. rewrite Hlen.
      reflexivity.
    + exact Hwf.
    + intros i Hi. cbn [np.cols].
      unfold py.range in Hrel.
      destruct (nth_error columns i) as [col | ] eqn:Hcol.
      * exists col. split; [ reflexivity | ].
        assert (Hith : nth_error (map Z.of_nat (seq 0 n)) i
                       = Some (Z.of_nat i)).
        { apply map_nth_error.
          rewrite (nth_error_nth' _ 0%nat) by (rewrite length_seq; lia).
          rewrite seq_nth by lia. reflexivity. }
        apply (Forall2_nth_error Hrel i Hith Hcol).
      * apply nth_error_None in Hcol. lia.
  - intros Hnil. rewrite Hnil in Hlen. simpl in Hlen. lia.
  - exact Hwf.
Qed.

Lemma predict_stacks_columns_witness :
  exists M,
    Sieve.predict (Example.sieve_shift 5) (np.Matrix 1 [[0]])
    = Some (Ok (np.Arr2 M)) /\
    np.shape (np.Arr2 M) = [1%nat; 1%nat] /\
    np.wf M /\
    forall i, (i < 1)%nat ->
      exists col,
        nth_error (np.cols M) i = Some col /\
        Sieve.predict_variable (Example.sieve_shift 5)
                               (np.rows (np.Matrix 1 [[0]])) (Z.of_nat i)
        = Ok (np.Arr1 col).
Proof.
  apply (@predict_stacks_columns Q Q_Scalar (Example.sieve_shift 5)
           (np.Matrix 1 [[0]]) 1%nat).
  - reflexivity.
  - lia.
  - intros i Hi. assert (i = 0%nat) as -> by lia.
    exists (np.Arr1 [5]). reflexivity.
Defined.

(* ===================================================================== *)
(** ** More on [invert_variable] *)
(* ===================================================================== *)

Section InvertVariable.
Context {F : Type}.

Lemma index_out_of_range {A : Type} (l : list A) (i : Z) :
  py.len l <= i -> py.index l i = Err IndexError.
Proof.
  intros Hi. unfold py.index. unfold py.len in *.
  assert (Hneg : (i <? 0) = false) by (apply Z.ltb_ge; lia).
  assert (Hhigh : (Z.of_nat (length l) <=? i) = true) by (apply Z.leb_le; lia).
  rewrite Hneg, Hneg, Hhigh. reflexivity.
Qed.

Lemma index_app_left {A : Type} (l extra : list A) (i : Z) :
  0 <= i < py.len l -> py.index (l ++ extra) i = py.index l i.
Proof.
  intros Hi. unfold py.index, py.len in *. rewrite length_app.
  assert (Hneg : (i <? 0) = false) by (apply Z.ltb_ge; lia).
  assert (H1 : (Z.of_nat (length l + length extra) <=? i) = false)
    by (apply Z.leb_gt; lia).
  assert (H2 : (Z.of_nat (length l) <=? i) = false) by (apply Z.leb_gt; lia).
  rewrite Hneg, Hneg, H1, H2. cbn [orb].
  rewrite nth_error_app1 by lia. reflexivity.
Qed.

Lemma range_snoc (n : nat) : py.range (S n) = py.range n ++ [Z.of_nat n].
Proof. unfold py.range. rewrite seq_S, map_app. reflexivity. Qed.

Lemma combine_snoc {A B : Type} (a : A) (b : B) :
  forall (l : list A) (l' : list B),
    length l = length l' ->
    combine (l ++ [a]) (l' ++ [b]) = combine l l' ++ [(a, b)].
Proof.
  induction l as [ | x l IH ]; intros l' Hlen; destruct l' as [ | y l' ];
    try discriminate; [ reflexivity | ].
  simpl. rewrite IH by (simpl in Hlen; lia). reflexivity.
Qed.

Lemma enumerate_snoc {A : Type} (l : list A) (a : A) :
  py.enumerate (l ++ [a]) = py.enumerate l ++ [(Z.of_nat (length l), a)].
Proof.
  unfold py.enumerate. rewrite length_app. cbn [length].
  replace (length l + 1)%nat with (S (length l)) by lia.
  rewrite range_snoc, combine_snoc by apply range_length. reflexivity.
Qed.

Lemma enumerate_In {A : Type} (l : list A) (k : Z) (a : A) :
  In (k, a) (py.enumerate l) -> 0 <= k < py.len l.
Proof.
  unfold py.enumerate, py.range, py.len. intros Hin.
  apply in_combine_l in Hin. apply in_map_iff in Hin.
  destruct Hin as [j [<- Hj]]. apply in_seq in Hj. lia.
Qed.

Lemma foldM_ext_in {A B : Type} (f g : B -> A -> result B) :
  forall l b, (forall a b', In a l -> f b' a = g b' a) ->
              Sieve.foldM f l b = Sieve.foldM g l b.
Proof.
  induction l as [ | a l IH ]; intros b Hext; [ reflexivity | ].
  cbn [Sieve.foldM]. rewrite (Hext a b (or_introl eq_refl)).
  destruct (g b a) as [b' | e]; [ | reflexivity ].
  cbn [bind]. apply IH. intros a' b'' Hin. apply Hext. right. exact Hin.
Qed.

End InvertVariable.

(** X9.  [invert_variable] reads the label of the deepest layer first: a
    row of labels with fewer entries than the Sieve has layers raises
    [IndexError]. *)
Theorem invert_variable_short_labels
        {F : Type} (s : Sieve.t F) (zi : Z) (y : list Z) (i : Z) :
  (length y < length (Sieve.layers s))%nat ->
  Sieve.invert_variable s zi y i = Err IndexError.
Proof.
  intros Hshort.
  assert (Hne : Sieve.layers s <> []) by (intros Hnil; rewrite Hnil in Hshort;
                                          simpl in Hshort; lia).
  destruct (exists_last Hne) as [pre [l Hs]].
  unfold Sieve.invert_variable.
  rewrite Hs, enumerate_snoc, rev_unit. cbn [Sieve.foldM].
  rewrite Hs, length_app in Hshort. cbn [length] in Hshort.
  destruct (py.index (SieveLayer.remainders l) i) as [r | e] eqn:Hr.
  - cbn [bind]. rewrite index_out_of_range by (unfold py.len; lia).
    reflexivity.
  - cbn [bind]. rewrite (index_error _ _ Hr). reflexivity.
Qed.

Lemma invert_variable_short_labels_witness :
  Sieve.invert_variable Example.sieve2 0 [7] 0 = Err IndexError.
Proof.
  apply (@invert_variable_short_labels Q Example.sieve2 0 [7] 0).
  simpl. lia.
Defined.

(** X10.  [invert_variable] reads one label per layer: entries of the row
    beyond the number of layers change nothing, neither the value nor an
    exception. *)
Theorem invert_variable_ignores_extra_labels
        {F : Type} (s : Sieve.t F) (zi : Z) (y extra : list Z) (i : Z) :
  (length (Sieve.layers s) <= length y)%nat ->
  Sieve.invert_variable s zi (y ++ extra) i = Sieve.invert_variable s zi y i.
Proof.
  intros Hlong. unfold Sieve.invert_variable.
  apply foldM_ext_in. intros [k layer] z Hin.
  apply in_rev in Hin. apply enumerate_In in Hin.
  rewrite index_app_left by (unfold py.len in *; lia). reflexivity.
Qed.

Lemma invert_variable_ignores_extra_labels_witness :
  Sieve.invert_variable Example.sieve2 3 ([7; 9] ++ [4; 4]) 0
  = Sieve.invert_variable Example.sieve2 3 [7; 9] 0.
Proof.
  apply (@invert_variable_ignores_extra_labels Q Example.sieve2 3 [7; 9]
           [4; 4] 0).
  simpl. lia.
Defined.

(* ===================================================================== *)
(** ** More on [fit] *)
(* ===================================================================== *)

Section FitMore.
Context {F : Type} `{Scalar F} `{Collaborators F} `{Numpy}.

(** The loop leaves [x_stats] alone unless it appends a layer. *)
Lemma fit_loop_no_layer_no_stats (s : Sieve.t F) (x : np.matrix)
      (n nv : nat) :
  Sieve.layers (Sieve.final_state (Sieve.fit_loop s x n nv)) = Sieve.layers s ->
  Sieve.final_state (Sieve.fit_loop s x n nv) = s.
Proof.
  funelim (Sieve.fit_loop s x n nv); cbn [Sieve.final_state];
    try reflexivity; intros Hsame; exfalso.
  - destruct (fit_loop_extends
                (Sieve.set_x_stats (Sieve.append self next_layer) stats)
                x' n_samples n_variables) as [new Hnew].
    rewrite Hnew in Hsame.
    cbn [Sieve.layers Sieve.set_x_stats Sieve.append] in Hsame.
    apply (f_equal (@length _)) in Hsame.
    rewrite !length_app in Hsame. cbn [length] in Hsame. lia.
  - cbn [Sieve.layers Sieve.append] in Hsame.
    apply (f_equal (@length _)) in Hsame.
    rewrite length_app in Hsame. cbn [length] in Hsame. lia.
Qed.

(** Every layer that the loop appends passed the acceptance test. *)
Lemma fit_loop_accepted (s : Sieve.t F) (x : np.matrix) (n nv : nat) :
  exists new,
    Sieve.layers (Sieve.final_state (Sieve.fit_loop s x n nv))
    = Sieve.layers s ++ new /\
    Forall (fun l => Sieve.accepts l n = Ok true) new.
Proof.
  funelim (Sieve.fit_loop s x n nv);
    try (exists []; rewrite app_nil_r; split; [ reflexivity | constructor ]);
    try (exists [next_layer]; split;
         [ reflexivity | constructor; [ assumption | constructor ] ]).
  match goal with
  | IH : exists _, _ |- _ => destruct IH as [new [Hnew Hall]]
  end.
  exists (next_layer :: new). split.
  - rewrite Hnew. cbn [Sieve.layers Sieve.set_x_stats Sieve.append].
    rewrite <- app_assoc. reflexivity.
  - constructor; assumption.
Qed.

Lemma array_T_Arr2 (l : list (list Z)) (ma : np.matrix) :
  np.array_T l = np.Arr2 ma ->
  l <> [] /\ np.cols ma = l /\
  Forall (fun c => length c = np.nrows ma) l.
Proof.
  unfold np.array_T. destruct l as [ | c l ]; [ discriminate | ].
  destruct (np.same_length (length c) (c :: l)) eqn:Hsame; [ | discriminate ].
  intros Heq. injection Heq as <-. cbn [np.cols np.nrows].
  split; [ discriminate | split; [ reflexivity | ] ].
  unfold np.same_length in Hsame. rewrite forallb_forall in Hsame.
  apply Forall_forall. intros c' Hc'. apply Nat.eqb_eq. apply Hsame. exact Hc'.
Qed.

(** What a layer returns is a well-formed matrix, one column wider than
    its input, that ends with the labels of the extractor. *)
Lemma layer_transform_result (l : SieveLayer.t F) (x : np.ndarray)
      (m' : np.matrix) :
  SieveLayer.transform l x = Ok m' ->
  exists m,
    x = np.Arr2 m /\ (1 <= np.ncols m)%nat /\
    np.wf m' /\
    np.ncols m' = S (np.ncols m) /\
    np.nrows m' = length (Corex.transform (SieveLayer.corex l) x) /\
    last_column m' = Corex.transform (SieveLayer.corex l) x.
Proof.
  unfold SieveLayer.transform. intros Ht.
  destruct x as [v | vs | m]; try discriminate.
  cbn [np.shape1 bind] in Ht.
  apply bind_Ok in Ht. destruct Ht as [xr [Hxr Hstack]].
  apply mapM_length in Hxr. rewrite range_length in Hxr.
  unfold np.hstack in Hstack.
  destruct (np.array_T xr) as [v | vs | ma] eqn:Harr; try discriminate.
  destruct (array_T_Arr2 _ Harr) as [Hne [Hcols Hlens]].
  destruct (Nat.eqb (np.nrows ma) (np.nrows (np.newaxis _))) eqn:Hrows;
    [ | discriminate ].
  apply Nat.eqb_eq in Hrows. cbn [np.newaxis np.nrows] in Hrows.
  injection Hstack as <-. exists m.
  unfold np.wf, np.ncols, last_column in *.
  cbn [np.nrows np.cols np.newaxis]. rewrite Hcols.
  split; [ reflexivity | ].
  split; [ destruct xr; [ contradiction | simpl in Hxr; lia ] | ].
  split; [ apply Forall_app; split;
           [ exact Hlens | constructor; [ symmetry; exact Hrows | constructor ] ] | ].
  split; [ rewrite length_app, Hxr; simpl; lia | ].
  split; [ exact Hrows | apply last_last ].
Qed.

(** The layer that the loop appends in its [j]-th turn was built on a
    matrix with [j] more columns than the matrix the loop started on. *)
Lemma fit_loop_layout (s : Sieve.t F) (x : np.matrix) (n nv : nat) :
  exists new,
    Sieve.layers (Sieve.final_state (Sieve.fit_loop s x n nv))
    = Sieve.layers s ++ new /\
    forall j l, nth_error new j = Some l ->
                length (SieveLayer.remainders l) = (np.ncols x + j)%nat.
Proof.
  funelim (Sieve.fit_loop s x n nv);
    try (exists []; rewrite app_nil_r; split; [ reflexivity | ];
         intros j l Hj; destruct j; discriminate);
    match goal with
    | Hinit : SieveLayer.init _ _ = Ok _ |- _ =>
        destruct (init_fields _ _ Hinit) as [_ [_ [Hlen _]]]
    end.
  - match goal with
    | IH : exists _, _ |- _ => destruct IH as [new [Hnew Hall]]
    end.
    exists (next_layer :: new). split.
    + rewrite Hnew. cbn [Sieve.layers Sieve.set_x_stats Sieve.append].
      rewrite <- app_assoc. reflexivity.
    + match goal with
      | Ht : SieveLayer.transform _ _ = Ok _ |- _ =>
          destruct (layer_transform_result _ _ Ht)
            as [m [Hm [_ [_ [Hcols _]]]]]
      end.
      injection Hm as <-.
      intros j l Hj. destruct j as [ | j ].
      * injection Hj as <-. rewrite Hlen. lia.
      * rewrite (Hall j l Hj), Hcols. lia.
  - exists [next_layer]. split; [ reflexivity | ].
    intros j l Hj. destruct j as [ | j ].
    + injection Hj as <-. rewrite Hlen. lia.
    + destruct j; discriminate.
Qed.

End FitMore.

(** X11.  [fit] only appends to the layer sequence: whether it returns or
    raises, the layers it found are still there, in place, and
    [max_layers] and the keyword arguments are unchanged.  On a matrix it
    records the number of columns in [n_variables]; [x_stats] changes
    only if a layer was appended; and when there is no room for a layer
    ([max_layers <= len(layers)]) it returns at once. *)
Theorem fit_only_appends
        {F : Type} `{Scalar F} `{Collaborators F} `{Numpy}
        (s : Sieve.t F) (x : np.ndarray) :
  let s' := Sieve.state_of (Sieve.fit s x) in
  (exists new, Sieve.layers s' = Sieve.layers s ++ new) /\
  Sieve.max_layers s' = Sieve.max_layers s /\
  Sieve.kw s' = Sieve.kw s /\
  (forall m, x = np.Arr2 m -> Sieve.n_variables s' = Some (np.ncols m)) /\
  (Sieve.layers s' = Sieve.layers s -> Sieve.x_stats s' = Sieve.x_stats s) /\
  (forall m, x = np.Arr2 m ->
     Sieve.max_layers s <= py.len (Sieve.layers s) ->
     Sieve.fit s x = Sieve.Returned (Sieve.set_n_variables s (np.ncols m))).
Proof.
  cbn zeta. rewrite state_of_fit. unfold Sieve.fit, Sieve.fit_run.
  destruct x as [v | vs | m];
    try (cbn [Sieve.final_state]; repeat split;
         try (exists []; rewrite app_nil_r; reflexivity);
         intros m Hm; discriminate Hm).
  set (s0 := Sieve.set_n_variables s (np.ncols m)).
  destruct (fit_loop_extends s0 m (np.nrows m) (np.ncols m)) as [new Hnew].
  pose proof (fit_loop_max_layers s0 m (np.nrows m) (np.ncols m)) as Hmax.
  destruct (fit_loop_frame s0 m (np.nrows m) (np.ncols m)) as [Hkw Hnv].
  split; [ exists new; exact Hnew | ].
  split; [ exact Hmax | ].
  split; [ exact Hkw | ].
  split; [ intros m' Hm'; injection Hm' as <-; exact Hnv | ].
  split.
  - intros Hsame.
    rewrite (fit_loop_no_layer_no_stats s0 m (np.nrows m) (np.ncols m) Hsame).
    reflexivity.
  - intros m' Hm' Hfull. injection Hm' as <-.
    rewrite fit_loop_unfold.
    assert (Hroom : (py.len (Sieve.layers s0) <? Sieve.max_layers s0) = false)
      by (apply Z.ltb_ge; exact Hfull).
    rewrite Hroom. reflexivity.
Qed.

(** X12.  Every layer that [fit] appends passed the acceptance test with
    the number of rows of the training matrix: the matrix has rows, and
    [tc - lb > 1 / n_samples] held for the layer. *)
Theorem fit_layers_all_accepted
        {F : Type} `{Scalar F} `{Collaborators F} `{Numpy}
        (s : Sieve.t F) (m : np.matrix) :
  exists new,
    Sieve.layers (Sieve.state_of (Sieve.fit s (np.Arr2 m)))
    = Sieve.layers s ++ new /\
    Forall (fun l =>
              np.nrows m <> 0%nat /\
              fltb (frecip (Pos.of_nat (np.nrows m)))
                   (fsub (Corex.tc (SieveLayer.corex l)) (SieveLayer.lb l))
              = true)
           new.
Proof.
  rewrite state_of_fit. unfold Sieve.fit_run.
  destruct (fit_loop_accepted (Sieve.set_n_variables s (np.ncols m)) m
              (np.nrows m) (np.ncols m)) as [new [Hnew Hall]].
  exists new. split; [ exact Hnew | ].
  eapply Forall_impl; [ | exact Hall ].
  intros l Hl. unfold Sieve.accepts in Hl.
  destruct (np.nrows m) as [ | n ]; [ discriminate | ].
  injection Hl as Hl. split; [ discriminate | exact Hl ].
Qed.

(** X13.  The [j]-th layer that [fit] appends holds one Remainder Model
    for each column of the training matrix and one for the label column
    of each layer appended before it in this call: [V + j] models. *)
Theorem fit_layer_widths
        {F : Type} `{Scalar F} `{Collaborators F} `{Numpy}
        (s : Sieve.t F) (m : np.matrix) :
  exists new,
    Sieve.layers (Sieve.state_of (Sieve.fit s (np.Arr2 m)))
    = Sieve.layers s ++ new /\
    forall j l, nth_error new j = Some l ->
                length (SieveLayer.remainders l) = (np.ncols m + j)%nat.
Proof.
  rewrite state_of_fit. unfold Sieve.fit_run.
  destruct (fit_loop_layout (Sieve.set_n_variables s (np.ncols m)) m
              (np.nrows m) (np.ncols m)) as [new [Hnew Hall]].
  exists new. split; [ exact Hnew | exact Hall ].
Qed.

(** X14.  Whenever [SieveLayer.transform] returns, its argument was a
    matrix with at least one column and the result is a well-formed
    matrix with one column more, whose last column is the label vector of
    the extractor and whose number of rows is the length of that vector,
    whatever the Remainder Models do. *)
Theorem layer_transform_returns_wellformed
        {F : Type} (l : SieveLayer.t F) (x : np.ndarray) (m' : np.matrix) :
  SieveLayer.transform l x = Ok m' ->
  exists m,
    x = np.Arr2 m /\ (1 <= np.ncols m)%nat /\
    np.wf m' /\
    np.shape (np.Arr2 m')
    = [length (Corex.transform (SieveLayer.corex l) x); S (np.ncols m)] /\
    last_column m' = Corex.transform (SieveLayer.corex l) x.
Proof.
  intros Ht.
  destruct (layer_transform_result _ _ Ht)
    as [m [Hx [Hpos [Hwf [Hcols [Hrows Hlast]]]]]].
  exists m. repeat split; try assumption.
  unfold np.shape. rewrite Hrows, Hcols. reflexivity.
Qed.

Lemma layer_transform_returns_wellformed_witness :
  exists m,
    np.Arr2 Example.x2 = np.Arr2 m /\ (1 <= np.ncols m)%nat /\
    np.wf (np.Matrix 2 [[1; 0]; [7; 7]]) /\
    np.shape (np.Arr2 (np.Matrix 2 [[1; 0]; [7; 7]]))
    = [length (Corex.transform (SieveLayer.corex (Example.layer 7 1))
                               (np.Arr2 Example.x2));
       S (np.ncols m)] /\
    last_column (np.Matrix 2 [[1; 0]; [7; 7]])
    = Corex.transform (SieveLayer.corex (Example.layer 7 1))
                      (np.Arr2 Example.x2).
Proof.
  exact (@layer_transform_returns_wellformed Q (Example.layer 7 1)
           (np.Arr2 Example.x2) (np.Matrix 2 [[1; 0]; [7; 7]]) eq_refl).
Defined.

(** X15.  The aggregate bounds grow by the bounds of an appended layer:
    after [layers.append(layer)], [lb] is the old [lb] plus the layer's
    [lb], and likewise [ub]. *)
Theorem bounds_after_append
        {F : Type} `{Scalar F} (s : Sieve.t F) (layer : SieveLayer.t F) :
  Sieve.lb (Sieve.append s layer) = fadd (Sieve.lb s) (SieveLayer.lb layer) /\
  Sieve.ub (Sieve.append s layer) = fadd (Sieve.ub s) (SieveLayer.ub layer).
Proof.
  unfold Sieve.lb, Sieve.ub, py_sum. cbn [Sieve.layers Sieve.append].
  rewrite !map_app, !fold_left_app. split; reflexivity.
Qed.

(* ===================================================================== *)
(** ** Construction of a layer *)
(* ===================================================================== *)

Section Construction.
Context {F : Type} `{Scalar F} `{Collaborators F}.

Lemma mapM_ok_map {A B : Type} (f : A -> result B) (g : A -> B) :
  forall l, (forall a, In a l -> f a = Ok (g a)) -> mapM f l = Ok (map g l).
Proof.
  induction l as [ | a l IH ]; intros Hall; [ reflexivity | ].
  cbn [mapM map]. rewrite (Hall a (or_introl eq_refl)). cbn [bind].
  rewrite IH by (intros a' Hin; apply Hall; right; exact Hin).
  reflexivity.
Qed.

(** Selecting the labels with the mask of a column keeps the labels of the
    rows where the column is not missing. *)
Lemma mask_take_kept :
  forall (xs labels : list Z),
    (length xs <= length labels)%nat ->
    SieveLayer.mask_take labels (map (fun v => 0 <=? v) xs)
    = Ok (kept_labels labels xs).
Proof.
  induction xs as [ | v xs IH ]; intros labels Hlen.
  - destruct labels; reflexivity.
  - destruct labels as [ | lab labels ]; [ simpl in Hlen; lia | ].
    cbn [map SieveLayer.mask_take]. rewrite IH by (simpl in Hlen; lia).
    cbn [bind]. unfold kept_labels. cbn [combine filter fst].
    destruct (0 <=? v); reflexivity.
Qed.

Lemma kept_labels_length :
  forall (xs labels : list Z),
    (length xs <= length labels)%nat ->
    length (kept_labels labels xs)
    = length (filter (fun v => 0 <=? v) xs).
Proof.
  induction xs as [ | v xs IH ]; intros labels Hlen; [ reflexivity | ].
  destruct labels as [ | lab labels ]; [ simpl in Hlen; lia | ].
  unfold kept_labels in *. cbn [combine filter fst].
  specialize (IH labels). simpl in Hlen.
  destruct (0 <=? v); cbn [map length]; rewrite IH by lia; reflexivity.
Qed.

(** With one label per row, the constructor returns. *)
Lemma init_returns (x : np.matrix) (kw : kwargs) :
  np.wf x -> length (Corex.labels (corex_fit x)) = np.nrows x ->
  SieveLayer.init x kw
  = Ok (SieveLayer.Build (corex_fit x) (Corex.labels (corex_fit x))
                         (built_remainders x kw)).
Proof.
  intros Hwf Hlabels. unfold SieveLayer.init, built_remainders.
  rewrite (mapM_ok_map _
             (fun xs => remainder_new (filter (fun v => 0 <=? v) xs)
                          (kept_labels (Corex.labels (corex_fit x)) xs)
                          match k_max kw with Some k => k | None => 2 end)).
  - reflexivity.
  - intros xs Hxs. unfold np.wf in Hwf. rewrite Forall_forall in Hwf.
    rewrite mask_take_kept by (rewrite Hlabels, (Hwf xs Hxs); lia).
    reflexivity.
Qed.

End Construction.

(** X16.  When the fitted extractor has one label per row of a
    well-formed matrix, [SieveLayer(x)] returns a layer with the
    extractor, its labels, and one Remainder Model per column; the model
    of a column is built from the entries of the column that are not
    missing (not negative) and from the labels of the same rows, two
    vectors of one length, with [k_max] taken from the keyword arguments
    or [2]. *)
Theorem init_builds_one_model_per_column
        {F : Type} `{Scalar F} `{Collaborators F}
        (x : np.matrix) (kw : kwargs) :
  np.wf x -> length (Corex.labels (corex_fit x)) = np.nrows x ->
  let labels := Corex.labels (corex_fit x) in
  let k := match k_max kw with Some k => k | None => 2 end in
  exists layer,
    SieveLayer.init x kw = Ok layer /\
    SieveLayer.corex layer = corex_fit x /\
    SieveLayer.labels layer = labels /\
    SieveLayer.remainders layer
    = map (fun xs => remainder_new (filter (fun v => 0 <=? v) xs)
                                   (kept_labels labels xs) k)
          (np.cols x) /\
    Forall (fun xs => length (kept_labels labels xs)
                      = length (filter (fun v => 0 <=? v) xs))
           (np.cols x).
Proof.
  intros Hwf Hlabels labels k.
  eexists. split; [ apply init_returns; assumption | ].
  cbn [SieveLayer.corex SieveLayer.labels SieveLayer.remainders].
  repeat split.
  apply Forall_forall. intros xs Hxs.
  unfold np.wf in Hwf. rewrite Forall_forall in Hwf.
  apply kept_labels_length. subst labels. rewrite Hlabels, (Hwf xs Hxs). lia.
Qed.

Lemma init_builds_one_model_per_column_witness :
  exists layer,
    @SieveLayer.init Q (Example.collaborators 1 0 0)
                     (np.Matrix 3 [[1; -1; 0]]) (Kwargs None)
    = Ok layer /\
    SieveLayer.corex layer = Example.flat 0 3 1 /\
    SieveLayer.labels layer = [0; 0; 0] /\
    SieveLayer.remainders layer
    = map (fun xs =>
             @remainder_new Q (Example.collaborators 1 0 0)
               (filter (fun v => 0 <=? v) xs)
               (kept_labels [0; 0; 0] xs) 2)
          [[1; -1; 0]] /\
    Forall (fun xs => length (kept_labels [0; 0; 0] xs)
                      = length (filter (fun v => 0 <=? v) xs))
           [[1; -1; 0]].
Proof.
  apply (@init_builds_one_model_per_column Q Q_Scalar
           (Example.collaborators 1 0 0) (np.Matrix 3 [[1; -1; 0]])
           (Kwargs None)).
  - repeat constructor.
  - reflexivity.
Defined.

(** X17.  [fit] on a matrix without rows and with at least one column
    raises [ZeroDivisionError] in the acceptance test of the first
    candidate, when there is room for a layer and the collaborators keep
    their contracts; no layer is appended and only [n_variables] is
    assigned. *)
Theorem fit_without_rows_raises
        {F : Type} `{Scalar F} `{Collaborators F} `{Numpy}
        (s : Sieve.t F) (m : np.matrix) :
  extractor_contract -> remainder_contract ->
  np.wf m -> np.nrows m = 0%nat -> (1 <= np.ncols m)%nat ->
  py.len (Sieve.layers s) < Sieve.max_layers s ->
  Sieve.fit s (np.Arr2 m)
  = Sieve.Raised ZeroDivisionError (Sieve.set_n_variables s (np.ncols m)).
Proof.
  intros Hext Hrem Hwf Hrows Hcols Hroom.
  unfold Sieve.fit, Sieve.fit_run. rewrite fit_loop_unfold.
  cbn [Sieve.layers Sieve.max_layers Sieve.kw Sieve.set_n_variables].
  apply Z.ltb_lt in Hroom. rewrite Hroom.
  destruct (Hext m) as [Hlabels Hone].
  pose proof (@init_returns F _ m (Sieve.kw s) Hwf Hlabels) as Hinit.
  rewrite Hinit.
  destruct (init_fields _ _ Hinit) as [Hcorex [_ [Hlen Hper]]].
  rewrite layer_transform_fitted.
  - rewrite Hrows. reflexivity.
  - split; [ exact Hlen | split; [ rewrite Hcorex; exact Hone | ] ].
    apply Hper. exact Hrem.
  - exact Hcols.
  - exact Hwf.
Qed.

Lemma fit_without_rows_raises_witness :
  @Sieve.fit Q Q_Scalar (Example.collaborators 1 0 0) Example.numpy
             (Sieve.init Q 10 (Kwargs None)) (np.Arr2 (np.Matrix 0 [[]]))
  = Sieve.Raised ZeroDivisionError
      (Sieve.set_n_variables (Sieve.init Q 10 (Kwargs None)) 1).
Proof.
  apply (@fit_without_rows_raises Q Q_Scalar (Example.collaborators 1 0 0)
           Example.numpy (Sieve.init Q 10 (Kwargs None))
           (np.Matrix 0 [[]])).
  - apply example_extractor_contract.
  - apply example_remainder_contract.
  - repeat constructor.
  - reflexivity.
  - apply le_n.
  - reflexivity.
Defined.

(* ===================================================================== *)
(** ** A layer and a matrix of another width *)
(* ===================================================================== *)

Section OtherWidth.
Context {F : Type}.

(** Reading a model that is not there raises [IndexError], whatever came
    before. *)
Lemma comprehension_runs_out {B C : Type} (g : Remainder.t F -> B -> C)
      (rs : list (Remainder.t F)) (cs : list B) (w : nat) :
  (length rs < w)%nat ->
  mapM (fun i => r <- py.index rs i ;; c <- py.index cs i ;; Ok (g r c))
       (py.range w)
  = Err IndexError.
Proof.
  intros Hshort.
  apply (@mapM_raises _ _ _ (Z.of_nat (length rs))).
  - intros i e Hi.
    destruct (py.index rs i) as [r | e1] eqn:Hr; simpl in Hi.
    + destruct (py.index cs i) as [c | e2] eqn:Hc; simpl in Hi;
        [ discriminate | ].
      injection Hi as <-. eapply index_error. exact Hc.
    + injection Hi as <-. eapply index_error. exact Hr.
  - rewrite index_out_of_range by (unfold py.len; lia). reflexivity.
  - unfold py.range. apply in_map. apply in_seq. lia.
Qed.

Lemma combine_firstn_left {A B : Type} :
  forall (l : list A) (l' : list B),
    combine l l' = combine (firstn (length l') l) l'.
Proof.
  induction l as [ | a l IH ]; intros l'.
  - rewrite firstn_nil. reflexivity.
  - destruct l' as [ | b l' ]; [ reflexivity | ].
    cbn [length firstn combine]. rewrite <- IH. reflexivity.
Qed.

End OtherWidth.

(** X18.  A layer does not fit a wider matrix: [transform] on a matrix
    with more columns than the layer has Remainder Models raises
    [IndexError], and so does [invert] on a matrix with more code columns
    than models.  [invert] on a matrix that holds only the label column
    returns the empty one-dimensional array. *)
Theorem layer_on_wider_matrix_raises
        {F : Type} (l : SieveLayer.t F) :
  (forall m, (length (SieveLayer.remainders l) < np.ncols m)%nat ->
             SieveLayer.transform l (np.Arr2 m) = Err IndexError) /\
  (forall n zs ys,
      (length (SieveLayer.remainders l) < length zs)%nat ->
      SieveLayer.invert l (np.Arr2 (np.Matrix n (zs ++ [ys])))
      = Err IndexError) /\
  (forall n ys,
      SieveLayer.invert l (np.Arr2 (np.Matrix n [ys])) = Ok (np.Arr1 [])).
Proof.
  split; [ | split ].
  - intros m Hwide. unfold SieveLayer.transform. cbn [np.shape1 bind np.col].
    rewrite comprehension_runs_out by exact Hwide. reflexivity.
  - intros n zs ys Hwide. unfold SieveLayer.invert. cbn [np.col np.cols].
    rewrite index_last. cbn [bind np.shape1]. unfold np.ncols.
    cbn [np.cols]. rewrite length_app. cbn [length].
    replace (length zs + 1 - 1)%nat with (length zs) by lia.
    rewrite comprehension_runs_out by exact Hwide. reflexivity.
  - intros n ys. reflexivity.
Qed.

(** X19.  A layer accepts a narrower matrix without complaint: on a
    well-formed matrix with at least one column and no more columns than
    the layer has Remainder Models, [transform] uses the first models and
    returns their codes followed by the label column. *)
Theorem layer_on_narrower_matrix
        {F : Type} (l : SieveLayer.t F) (m : np.matrix) :
  one_label_per_row (SieveLayer.corex l) ->
  Forall per_sample (SieveLayer.remainders l) ->
  np.wf m -> (1 <= np.ncols m)%nat ->
  (np.ncols m <= length (SieveLayer.remainders l))%nat ->
  let labels := Corex.transform (SieveLayer.corex l) (np.Arr2 m) in
  SieveLayer.transform l (np.Arr2 m)
  = Ok (np.Matrix (np.nrows m)
          (map (fun rc => Remainder.transform (fst rc) (snd rc) labels)
               (combine (firstn (np.ncols m) (SieveLayer.remainders l))
                        (np.cols m))
             ++ [labels])).
Proof.
  intros Hc Hr Hm Hw Hnarrow labels.
  unfold SieveLayer.transform. cbn [np.shape1 bind np.col].
  fold labels. unfold py.range.
  pose proof (mapM_zip_index
                (fun r xi => Remainder.transform r xi labels)
                (firstn (np.ncols m) (SieveLayer.remainders l)) (np.cols m)
                [] (skipn (np.ncols m) (SieveLayer.remainders l)) [] []
                eq_refl) as Hmap.
  cbn [app length] in Hmap.
  rewrite firstn_skipn, app_nil_r, firstn_length_le in Hmap by exact Hnarrow.
  rewrite Hmap by reflexivity. cbn [bind].
  unfold np.ncols. rewrite <- combine_firstn_left.
  fold (residual_codes l m).
  rewrite (@array_T_matrix (np.nrows m)).
  - unfold np.hstack, np.newaxis. cbn [np.nrows np.cols].
    unfold labels. rewrite Hc, Nat.eqb_refl. reflexivity.
  - intros Hnil. apply (f_equal (@length _)) in Hnil.
    unfold residual_codes in Hnil.
    rewrite length_map, length_combine in Hnil. unfold np.ncols in *.
    simpl in Hnil. lia.
  - apply residual_codes_rows; assumption.
Qed.

Lemma layer_on_narrower_matrix_witness :
  SieveLayer.transform (Example.layer 9 2) (np.Arr2 Example.x2)
  = Ok (np.Matrix 2
          (map (fun rc => Remainder.transform (fst rc) (snd rc) [9; 9])
               (combine (firstn 1 (SieveLayer.remainders (Example.layer 9 2)))
                        [[1; 0]])
             ++ [[9; 9]])).
Proof.
  apply (@layer_on_narrower_matrix Q (Example.layer 9 2) Example.x2).
  - apply flat_one_label_per_row.
  - apply example_layer_fitted.
  - exact x2_wf.
  - apply le_n.
  - simpl. apply le_S, le_n.
Defined.

(* ===================================================================== *)
(** ** The value statistics *)
(* ===================================================================== *)

Section Statistics.

Lemma total_map_add {A : Type} (f g : A -> Z) (l : list A) :
  total (map (fun a => f a + g a) l) = total (map f l) + total (map g l).
Proof.
  unfold total. induction l as [ | a l IH ]; simpl; [ reflexivity | ].
  rewrite IH. lia.
Qed.

Lemma total_app (l l' : list Z) : total (l ++ l') = total l + total l'.
Proof.
  unfold total. induction l as [ | a l IH ]; simpl; [ reflexivity | ].
  rewrite IH. lia.
Qed.

(** A value below [n] is met once in [range(n)]. *)
Lemma indicator_total (a : Z) :
  0 <= a ->
  forall n, total (map (fun v => if a =? v then 1 else 0) (py.range n))
            = if a <? Z.of_nat n then 1 else 0.
Proof.
  intros Ha. induction n as [ | n IH ].
  - cbn. destruct (a <? 0) eqn:Hneg; [ apply Z.ltb_lt in Hneg; lia | ].
    reflexivity.
  - rewrite range_snoc, map_app, total_app, IH. cbn [map total fold_right].
    destruct (Z.ltb_spec a (Z.of_nat n)); destruct (Z.eqb_spec a (Z.of_nat n));
      destruct (Z.ltb_spec a (Z.of_nat (S n))); lia.
Qed.

(** The counts of the values below [n] add up to the length of a list
    whose entries all lie below [n]. *)
Lemma count_total :
  forall (l : list Z) (n : nat),
    (forall a, In a l -> 0 <= a < Z.of_nat n) ->
    total (map (fun v => Z.of_nat (count_occ Z.eq_dec l v)) (py.range n))
    = Z.of_nat (length l).
Proof.
  induction l as [ | a l IH ]; intros n Hall.
  - cbn [count_occ length]. change (Z.of_nat 0) with 0.
    induction (py.range n) as [ | v r IHr ]; [ reflexivity | ].
    cbn [map]. unfold total in *. cbn [fold_right]. rewrite IHr. reflexivity.
  - rewrite (map_ext _ (fun v => Z.of_nat (count_occ Z.eq_dec l v)
                                  + (if a =? v then 1 else 0))).
    + rewrite total_map_add, IH, indicator_total.
      * destruct (Hall a (or_introl eq_refl)) as [_ Hlt].
        apply Z.ltb_lt in Hlt. rewrite Hlt. cbn [length]. lia.
      * apply (Hall a). left. reflexivity.
      * intros a' Hin. apply Hall. right. exact Hin.
    + intros v. cbn [count_occ].
      destruct (Z.eq_dec a v) as [Heq | Hne].
      * apply Z.eqb_eq in Heq. rewrite Heq. lia.
      * apply Z.eqb_neq in Hne. rewrite Hne. lia.
Qed.

Lemma max_bounds (l : list Z) :
  0 <= fold_right Z.max 0 l /\
  forall a, In a l -> a <= fold_right Z.max 0 l.
Proof.
  induction l as [ | b l [IH0 IH] ]; simpl.
  - split; [ lia | intros a [] ].
  - split; [ lia | ].
    intros a [-> | Hin]; [ lia | ]. specialize (IH a Hin). lia.
Qed.

(** [np.bincount] of a non-empty array of values that are not negative:
    one count per value up to the largest, and the counts add up to the
    length of the array. *)
Lemma bincount_total `{Numpy} (l : list Z) :
  l <> [] -> (forall a, In a l -> 0 <= a) ->
  exists c,
    np.bincount l = Ok c /\
    length c = S (Z.to_nat (fold_right Z.max 0 l)) /\
    total c = Z.of_nat (length l) /\
    Forall (fun k => 0 <= k) c.
Proof.
  intros Hne Hpos. unfold np.bincount.
  destruct l as [ | a0 l0 ]; [ contradiction | ].
  set (l := a0 :: l0) in *.
  assert (Hnoneg : existsb (fun v => v <? 0) l = false).
  { apply not_true_is_false. intros Hex. apply existsb_exists in Hex.
    destruct Hex as [v [Hv Hlt]]. apply Z.ltb_lt in Hlt.
    specialize (Hpos v Hv). lia. }
  rewrite Hnoneg. eexists. split; [ reflexivity | ].
  destruct (max_bounds l) as [Hmax0 Hmax].
  split; [ rewrite length_map, range_length; reflexivity | ].
  split.
  - apply count_total. intros a Ha.
    specialize (Hpos a Ha). specialize (Hmax a Ha). lia.
  - apply Forall_forall. intros k Hk. apply in_map_iff in Hk.
    destruct Hk as [v [<- _]]. lia.
Qed.

Lemma mapM_inv {A B : Type} (f : A -> result B) :
  forall l bs, mapM f l = Ok bs -> Forall2 (fun a b => f a = Ok b) l bs.
Proof.
  induction l as [ | a l IH ]; intros bs Hm; simpl in Hm.
  - injection Hm as <-. constructor.
  - destruct (f a) as [b | e] eqn:Hfa; simpl in Hm; [ | discriminate ].
    destruct (mapM f l) as [bs' | e]; simpl in Hm; [ | discriminate ].
    injection Hm as <-. constructor; [ exact Hfa | apply IH; reflexivity ].
Qed.

Lemma index_nth_error {A : Type} (l : list A) (i : nat) (a : A) :
  nth_error l i = Some a -> py.index l (Z.of_nat i) = Ok a.
Proof.
  intros Hi.
  assert (Hlt : (i < length l)%nat)
    by (apply nth_error_Some; rewrite Hi; discriminate).
  unfold py.index, py.len.
  assert (Hneg : (Z.of_nat i <? 0) = false) by (apply Z.ltb_ge; lia).
  assert (Hhigh : (Z.of_nat (length l) <=? Z.of_nat i) = false)
    by (apply Z.leb_gt; lia).
  rewrite Hneg, Hneg, Hhigh, Nat2Z.id, Hi. reflexivity.
Qed.

End Statistics.

(** X20.  When the assignment to [x_stats] succeeds, there is one
    histogram per variable index below [n_variables]; the histogram of a
    column with at least one entry that is not missing has one count for
    each value from [0] to the largest entry of the column, no count is
    negative, and the counts add up to the number of entries that are not
    missing. *)
Theorem count_values_totals `{Numpy} (x : np.matrix) (n_variables : nat)
        (stats : list (list Z)) :
  Sieve.count_values x n_variables = Ok stats ->
  length stats = n_variables /\
  forall i col c,
    nth_error stats i = Some c -> nth_error (np.cols x) i = Some col ->
    count_observed col <> 0%nat ->
    length c = S (Z.to_nat (fold_right Z.max 0
                              (filter (fun v => 0 <=? v) col))) /\
    total c = Z.of_nat (count_observed col) /\
    Forall (fun k => 0 <= k) c.
Proof.
  unfold Sieve.count_values. intros Hstats.
  split; [ rewrite (mapM_length _ _ Hstats); apply range_length | ].
  intros i col c Hc Hcol Hsome.
  apply mapM_inv in Hstats.
  assert (Hi : nth_error (py.range n_variables) i = Some (Z.of_nat i)).
  { assert (Hlt : (i < n_variables)%nat).
    { rewrite <- (range_length n_variables), (Forall2_length Hstats).
      apply nth_error_Some. rewrite Hc. discriminate. }
    unfold py.range. apply map_nth_error.
    rewrite (nth_error_nth' _ 0%nat) by (rewrite length_seq; lia).
    rewrite seq_nth by lia. reflexivity. }
  pose proof (Forall2_nth_error Hstats i Hi Hc) as Hbin. cbn beta in Hbin.
  unfold Sieve.observed in Hbin. cbn [np.col] in Hbin.
  rewrite (index_nth_error _ _ Hcol) in Hbin. cbn [bind] in Hbin.
  destruct (@bincount_total _ (filter (fun v => 0 <=? v) col))
    as [c' [Hc' Hprops]].
  - intros Hnil. apply Hsome. unfold count_observed. rewrite Hnil.
    reflexivity.
  - intros a Ha. apply filter_In in Ha. destruct Ha as [_ Ha].
    apply Z.leb_le in Ha. exact Ha.
  - rewrite Hc' in Hbin. injection Hbin as <-. exact Hprops.
Qed.

Lemma count_values_totals_witness :
  length [[1; 0; 2]] = 1%nat /\
  forall i col c,
    nth_error [[1; 0; 2]] i = Some c ->
    nth_error (np.cols (np.Matrix 4 [[2; -1; 0; 2]])) i = Some col ->
    count_observed col <> 0%nat ->
    length c = S (Z.to_nat (fold_right Z.max 0
                              (filter (fun v => 0 <=? v) col))) /\
    total c = Z.of_nat (count_observed col) /\
    Forall (fun k => 0 <= k) c.
Proof.
  exact (@count_values_totals Example.numpy (np.Matrix 4 [[2; -1; 0; 2]])
           1%nat [[1; 0; 2]] eq_refl).
Defined.

(** X21.  When [fit] returns after appending at least one layer,
    [x_stats] holds one histogram for each column of the training matrix,
    and the histograms are those of the first [n_variables] columns of
    what the training matrix has become after it went through the
    appended layers, each applied to the whole output of the one before:
    the statistics of the residual codes of the deepest layer, not of the
    training data. *)
Theorem fit_x_stats_of_deepest_output
        {F : Type} `{Scalar F} `{Collaborators F} `{Numpy}
        (s : Sieve.t F) (m : np.matrix) (s' : Sieve.t F) :
  Sieve.fit s (np.Arr2 m) = Sieve.Returned s' ->
  Sieve.layers s' <> Sieve.layers s ->
  length (Sieve.x_stats s') = np.ncols m /\
  exists new outs,
    Sieve.layers s' = Sieve.layers s ++ new /\
    layer_outputs new (np.Arr2 m) = Ok outs /\
    length outs = length new /\
    Sieve.count_values (last outs m) (np.ncols m) = Ok (Sieve.x_stats s').
Proof.
  unfold Sieve.fit, Sieve.fit_run. intros Hfit Hnew.
  destruct (Sieve.fit_loop (Sieve.set_n_variables s (np.ncols m)) m
              (np.nrows m) (np.ncols m)) as [s1 xf why | e s1] eqn:Hloop;
    [ | discriminate ].
  injection Hfit as <-.
  destruct (fit_loop_trace _ _ _ _ Hloop)
    as [turns [Hc [Hlayers [_ [_ [Hstats _]]]]]].
  cbn [Sieve.kw Sieve.layers Sieve.set_n_variables] in Hc, Hlayers.
  assert (Hne : turns <> []).
  { intros ->. apply Hnew. rewrite Hlayers. cbn [map]. apply app_nil_r. }
  specialize (Hstats Hne).
  split.
  - rewrite (mapM_length _ _ Hstats). apply range_length.
  - exists (map fst turns), (map snd turns).
    split; [ exact Hlayers | ].
    split; [ eapply candidates_outputs; exact Hc | ].
    split; [ rewrite !length_map; reflexivity | exact Hstats ].
Qed.

Lemma fit_x_stats_of_deepest_output_witness :
  let s' :=
    Sieve.Build 2 (Kwargs None)
      [SieveLayer.Build (Example.flat 0 2 1) [0; 0] [Example.keep 0 0];
       SieveLayer.Build (Example.flat 0 2 1) [0; 0]
                        [Example.keep 0 0; Example.keep 0 0]]
      [[1; 1]] (Some 1%nat) in
  length (Sieve.x_stats s') = 1%nat /\
  exists new outs,
    Sieve.layers s' = Sieve.layers (Sieve.init Q 2 (Kwargs None)) ++ new /\
    layer_outputs new (np.Arr2 Example.x2) = Ok outs /\
    length outs = length new /\
    @Sieve.count_values Example.numpy (last outs Example.x2) 1
    = Ok (Sieve.x_stats s').
Proof.
  intros s'.
  apply (@fit_x_stats_of_deepest_output Q Q_Scalar
           (Example.collaborators 1 0 0) Example.numpy
           (Sieve.init Q 2 (Kwargs None)) Example.x2 s').
  - reflexivity.
  - discriminate.
Defined.
